(** * Album submission server: record store, ingestion, review, export

    A shallow embedding of the Express server (the file whose first line
    is [// server.js]): the JSON record store ([readDB]/[writeDB]), the
    upload middleware and the [POST /submit] handler, the admin session
    gate with the approve/reject handlers, and the zip export.

    JavaScript values that travel through [JSON.parse]/[JSON.stringify]
    are a first-order datatype [json]; objects are association lists in
    property order.  The platform functions the server calls but does not
    define ([JSON.parse], [JSON.stringify], the [path] module, the process
    environment) are the fields of the class [Platform]. *)

From Stdlib Require Import ZArith String Ascii List Lia.
From Stdlib Require Import DecimalString DecimalPos DecimalZ DecimalFacts.
From stdpp Require Import base option list strings gmap.

Local Open Scope string_scope.
Local Open Scope Z_scope.

(** ** JSON values and the JavaScript operators used on them *)

#[warnings="-register-all"]
Inductive json : Type :=
| JNull
| JBool (b : bool)
| JNum (n : Z)
| JStr (s : string)
| JArr (elems : list json)
| JObj (props : list (string * json)).

(** Exceptions of the language: what a handler can throw. *)
Inductive JsError := TypeError | SyntaxError.

Inductive exc (A : Type) : Type :=
| Ok (a : A)
| Throw (e : JsError).
Arguments Ok {A} a.
Arguments Throw {A} e.

#[global] Instance exc_ret : MRet exc := @Ok.
#[global] Instance exc_bind : MBind exc := fun A B f m =>
  match m with
  | Ok a => f a
  | Throw e => Throw e
  end.
#[global] Instance exc_fmap : FMap exc := fun A B f m =>
  match m with
  | Ok a => Ok (f a)
  | Throw e => Throw e
  end.

(** [ToBoolean]: [null], [false], [0] and [''] are falsy. *)
Definition truthy (v : json) : bool :=
  match v with
  | JNull => false
  | JBool b => b
  | JNum n => negb (n =? 0)
  | JStr s => negb (String.eqb s "")
  | JArr _ | JObj _ => true
  end.

(** [x || d] where [x] may be [undefined] ([None]). *)
Definition js_or (x : option json) (d : json) : json :=
  match x with
  | Some v => if truthy v then v else d
  | None => d
  end.

(** [s || d] on a form field that is a string or missing. *)
Definition str_or (x : option string) (d : string) : string :=
  match x with
  | Some s => if String.eqb s "" then d else s
  | None => d
  end.

(** Own property lookup in an object, first binding of the key. *)
Fixpoint obj_get (k : string) (o : list (string * json)) : option json :=
  match o with
  | [] => None
  | (k', v) :: o' => if String.eqb k k' then Some v else obj_get k o'
  end.

(** [o.k = v]: an existing property keeps its place, a new one goes last. *)
Fixpoint obj_set (k : string) (v : json) (o : list (string * json))
  : list (string * json) :=
  match o with
  | [] => [(k, v)]
  | (k', v') :: o' =>
      if String.eqb k k' then (k', v) :: o' else (k', v') :: obj_set k v o'
  end.

(** [v.k] for the property names this program reads ([id], [fileName],
    [file], [cover], [tracks], ...): none of them is defined on the
    prototypes of numbers, booleans, strings or arrays, so only an object
    can answer; reading a property of [null] throws. *)
Definition js_get (v : json) (k : string) : exc (option json) :=
  match v with
  | JNull => Throw TypeError
  | JObj o => Ok (obj_get k o)
  | _ => Ok None
  end.

(** [a === s] against a string. *)
Definition strict_eq_str (a : json) (s : string) : bool :=
  match a with
  | JStr s' => String.eqb s' s
  | _ => false
  end.

(** Decimal numerals, as [String(n)] and template literals print them. *)
Definition decimal (n : Z) : string :=
  NilZero.string_of_int (Z.to_int n).

Definition index_keyed (l : list json) : list (string * json) :=
  imap (fun i v => (decimal (Z.of_nat i), v)) l.

(** The own enumerable properties copied by [{...v}]. *)
Definition spread (v : json) : list (string * json) :=
  match v with
  | JObj o => o
  | JArr l => index_keyed l
  | JStr s =>
      index_keyed ((fun c => JStr (String c EmptyString)) <$> list_ascii_of_string s)
  | _ => []
  end.

(** ** Strings: [trim], [split(',')], [parseInt(_, 10)] *)

(** Strings are sequences of code units, here the units below 256.  The
    white space and line terminators that [trim] and [parseInt] skip,
    among those units: tab, line feed, vertical tab, form feed, carriage
    return, space and the no-break space (unit 160). *)
Definition is_ws (c : ascii) : bool :=
  let n := nat_of_ascii c in
  ((9 <=? n) && (n <=? 13) || (n =? 32) || (n =? 160))%nat.

Fixpoint skip_ws (s : string) : string :=
  match s with
  | String c r => if is_ws c then skip_ws r else s
  | EmptyString => EmptyString
  end.

Definition rev_string (s : string) : string :=
  string_of_list_ascii (rev (list_ascii_of_string s)).

Definition trim (s : string) : string :=
  rev_string (skip_ws (rev_string (skip_ws s))).

(** [s.split(sep)] for a one-character separator. *)
Fixpoint split_on (sep : ascii) (s : string) : list string :=
  match s with
  | EmptyString => [EmptyString]
  | String c r =>
      if Ascii.eqb c sep then EmptyString :: split_on sep r
      else match split_on sep r with
           | h :: t => String c h :: t
           | [] => [String c EmptyString]
           end
  end.

Definition split_comma : string -> list string := split_on ",".

Definition nonempty (s : string) : bool := negb (String.eqb s "").

Definition is_digit (c : ascii) : bool :=
  let n := nat_of_ascii c in ((48 <=? n) && (n <=? 57))%nat.

Definition digit_val (c : ascii) : option Z :=
  let n := nat_of_ascii c in
  if ((48 <=? n) && (n <=? 57))%nat then Some (Z.of_nat n - 48) else None.

(** The value of the longest digit prefix; [None] when there is no digit. *)
Fixpoint digits_prefix (s : string) (acc : option Z) : option Z :=
  match s with
  | String c r =>
      match digit_val c with
      | Some d => digits_prefix r (Some (10 * default 0 acc + d))
      | None => acc
      end
  | EmptyString => acc
  end.

(** The numbers of this program are integers, [NaN] and the infinities:
    [parseInt] returns nothing else, and the program adds and compares but
    never divides.  An integer is a [Z] that is a double, [NaN] is [None],
    and an infinity is held as [2^1024] or its opposite, the first
    magnitude beyond the doubles. *)
Definition infinity : Z := 2 ^ 1024.

(** The double nearest to a natural number, ties to the even significand
    of 53 bits; the infinity from [2^1024 - 2^970] on. *)
Definition round_double (a : Z) : Z :=
  if a <? 2 ^ 53 then a
  else
    let e := Z.log2 a - 52 in
    let q := a / 2 ^ e in
    let r := a mod 2 ^ e in
    let q' :=
      if (2 ^ (e - 1) <? r) || ((r =? 2 ^ (e - 1)) && Z.odd q) then q + 1
      else q in
    Z.min (q' * 2 ^ e) infinity.

(** The Number value of a mathematical integer. *)
Definition to_Number (z : Z) : Z := Z.sgn z * round_double (Z.abs z).

(** The integer that the text spells after leading white space: an
    optional sign and the longest digit prefix; [None] without a digit. *)
Definition mathInt10 (s : string) : option Z :=
  match skip_ws s with
  | String "-" r => Z.opp <$> digits_prefix r None
  | String "+" r => digits_prefix r None
  | r => digits_prefix r None
  end.

(** [parseInt(s, 10)]: the Number value of that integer; [None] is
    [NaN]. *)
Definition parseInt10 (s : string) : option Z :=
  to_Number <$> mathInt10 s.

(** A number as [JSON.stringify] writes it: an infinity is written
    [null]. *)
Definition js_number (z : Z) : json :=
  if Z.abs z <? infinity then JNum z else JNull.

(** ** The platform *)

Class Platform := {
  (** [JSON.parse]; [None] when it throws [SyntaxError] *)
  JSON_parse : string -> option json;
  (** [JSON.stringify(v, null, space)] *)
  JSON_stringify : json -> nat -> string;
  path_join : string -> string -> string;
  path_relative : string -> string -> string;
  path_basename : string -> string;
  path_extname : string -> string;
  (** [__dirname] *)
  dirname : string;
  (** [process.env.ADMIN_PASS] *)
  env_ADMIN_PASS : option string;
  (** the content of the file at a path once several write streams
      opened on it in this order, each piping this content, have all
      finished: their writes interleave, and the outcome is the
      platform's *)
  concurrent_writes : string -> list string -> string
}.

Section Server.
Context `{P : Platform}.

Definition DATA_DIR : string := path_join dirname "data".
Definition UPLOADS_DIR : string := path_join dirname "uploads".
Definition DB_FILE : string := path_join DATA_DIR "submissions.json".
Definition ADMIN_PASS : string := str_or env_ADMIN_PASS "adminpass".

(** ** The disk

    [db_file] is the content of [DB_FILE] ([None]: the file cannot be
    read); [upload_files] and [upload_dirs] are the files and directories
    below [UPLOADS_DIR], keyed by path.  The upload storage writes only
    below [UPLOADS_DIR] and the record store only [DB_FILE]. *)
Record Disk := {
  db_file : option string;
  upload_files : gmap string string;
  upload_dirs : gset string
}.

Definition existsSync (fs : Disk) (p : string) : bool :=
  bool_decide (is_Some (upload_files fs !! p) ∨ p ∈ upload_dirs fs).

(** ** Record store *)

Definition readDB (fs : Disk) : json :=
  match db_file fs with
  | Some text =>
      match JSON_parse text with
      | Some v => v
      | None => JArr []
      end
  | None => JArr []
  end.

Definition writeDB (data : json) (fs : Disk) : Disk :=
  {| db_file := Some (JSON_stringify data 2);
     upload_files := upload_files fs;
     upload_dirs := upload_dirs fs |}.

(** ** Asset placement: the upload middleware

    A multipart request carries text fields and file parts in arrival
    order.  [upload.fields] admits at most one [cover] and 200
    [trackFiles]; the disk storage puts every admitted part under
    [UPLOADS_DIR/<subId>/<original name>]. *)

Record FilePart := {
  part_field : string;
  part_filename : string;
  part_content : string
}.

(** The file object the middleware hands to the handler. *)
Record File := {
  fieldname : string;
  originalname : string;
  path : string
}.

(** A [multipart/form-data] request to [/submit]: the text fields
    ([req.body]) and the file parts.  Every text field is sent once, under
    a plain name, so that every value of [req.body] is a string. *)
Record SubmitRequest := {
  req_body : gmap string string;
  req_parts : list FilePart
}.

Definition mkdirSync (dir : string) (fs : Disk) : Disk :=
  {| db_file := db_file fs;
     upload_files := upload_files fs;
     upload_dirs := {[dir]} ∪ upload_dirs fs |}.

Definition write_file (p content : string) (fs : Disk) : Disk :=
  {| db_file := db_file fs;
     upload_files := <[p := content]> (upload_files fs);
     upload_dirs := upload_dirs fs |}.

(** [destination]: the per-submission directory, created on first use. *)
Definition storage_destination (subId : string) (fs : Disk) : string * Disk :=
  let dest := path_join UPLOADS_DIR subId in
  (dest, if existsSync fs dest then fs else mkdirSync dest fs).

(** What the write streams opened on [final] leave there once they have
    all finished, [contents] being what each of them pipes, in the order
    they were opened: a stream that is alone on its path leaves its
    content; streams that share a path write to one file at the same
    time, and the platform decides what stays. *)
Definition settled (final : string) (contents : list string) : string :=
  match contents with
  | [content] => content
  | _ => concurrent_writes final contents
  end.

(** [filename] keeps the original name; [_handleFile] opens a write
    stream on that path and pipes the part into it.  [earlier] are the
    parts of the request piped before this one; the handler runs when
    every stream has finished, so the disk after a part is the disk with
    the streams opened so far settled. *)
Definition storage_handle (subId : string) (earlier : list FilePart)
    (p : FilePart) (fs : Disk) : File * Disk :=
  let '(dest, fs1) := storage_destination subId fs in
  let final := path_join dest (part_filename p) in
  let same :=
    filter (λ q, path_join dest (part_filename q) = final) earlier in
  ({| fieldname := part_field p;
      originalname := part_filename p;
      path := final |},
   write_file final (settled final (part_content <$> (same ++ [p])%list)) fs1).

Definition field_limits : gmap string nat :=
  {[ "cover" := 1%nat; "trackFiles" := 200%nat ]}.

(** The middleware loop: a part without a file name is skipped, a part
    for a field with no file left aborts the upload ([None]: the
    middleware reports the error itself and the handler does not run). *)
Fixpoint store_parts (subId : string) (filesLeft : gmap string nat)
    (parts : list FilePart) (stored : list File) (piped : list FilePart)
    (fs : Disk) : option (list File * Disk) :=
  match parts with
  | [] => Some (stored, fs)
  | p :: ps =>
      if String.eqb (part_filename p) "" then
        store_parts subId filesLeft ps stored piped fs
      else
        match filesLeft !! part_field p with
        | Some (S n) =>
            let '(f, fs') := storage_handle subId piped p fs in
            store_parts subId (<[part_field p := n]> filesLeft) ps
              (stored ++ [f]) (piped ++ [p]) fs'
        | _ => None
        end
  end.

Definition upload_fields (subId : string) (parts : list FilePart) (fs : Disk)
  : option (list File * Disk) :=
  store_parts subId field_limits parts [] [] fs.

(** [req.files[field]], as a list (empty when the key is absent). *)
Definition files_of (field : string) (files : list File) : list File :=
  filter (fun f => fieldname f = field) files.

(** ** Responses *)

Inductive Source :=
| FromString (text : string)
| FromFile (file_path : string).

(** One [archive.append] or [archive.file] call. *)
Record ArchiveEntry := {
  entry_source : Source;
  entry_name : json
}.

Inductive Body :=
| BJson (v : json)
| BText (s : string)
| BRedirect (location : string)
| BSendFile (file_path : string)
| BArchive (disposition : string) (entries : list ArchiveEntry)
| BUncaught (e : JsError).

Record Response := {
  status : nat;
  body : Body
}.

Definition res_json (code : nat) (v : json) : Response :=
  {| status := code; body := BJson v |}.
Definition res_send (code : nat) (s : string) : Response :=
  {| status := code; body := BText s |}.
Definition res_redirect (location : string) : Response :=
  {| status := 302; body := BRedirect location |}.
(** An exception that leaves a handler reaches the framework's default
    error handler. *)
Definition res_uncaught (e : JsError) : Response :=
  {| status := 500; body := BUncaught e |}.

(** ** Submission ingestion *)

Fixpoint find_exc {A} (p : A -> exc bool) (l : list A) : exc (option A) :=
  match l with
  | [] => Ok None
  | x :: l' => b ← p x; if b : bool then Ok (Some x) else find_exc p l'
  end.

Fixpoint mapi_exc {A B} (f : A -> nat -> exc B) (i : nat) (l : list A)
  : exc (list B) :=
  match l with
  | [] => Ok []
  | x :: l' => y ← f x i; ys ← mapi_exc f (S i) l'; Ok (y :: ys)
  end.

(** The receiver of [.map], [.find], [.push], [.forEach] must be an array:
    no other JSON value has a callable property of that name. *)
Definition js_array (v : json) : exc (list json) :=
  match v with
  | JArr l => Ok l
  | _ => Throw TypeError
  end.

Definition with_file (t : json) (file originalFileName : json) : json :=
  JObj (obj_set "originalFileName" originalFileName
          (obj_set "file" file (spread t))).

Definition file_ref (f : File) : json :=
  JStr (path_relative UPLOADS_DIR (path f)).

(** The callback of [tracks.map]. *)
Definition track_with_file (audioFiles : list File) (t : json) (idx : nat)
  : exc json :=
  matched ← find_exc (fun f =>
      name ← js_get t "fileName";
      Ok (strict_eq_str (js_or name (JStr "")) (originalname f))) audioFiles;
  match matched with
  | Some f => Ok (with_file t (file_ref f) (JStr (originalname f)))
  | None =>
      match audioFiles !! idx with
      | Some f => Ok (with_file t (file_ref f) (JStr (originalname f)))
      | None => Ok (with_file t JNull JNull)
      end
  end.

Definition tracksWithFiles (tracks : json) (audioFiles : list File)
  : exc (list json) :=
  ts ← js_array tracks;
  mapi_exc (track_with_file audioFiles) 0 ts.

Definition parse_platforms (field : option string) : list string :=
  filter (fun s => nonempty s = true) (trim <$> split_comma (str_or field "")).

Definition parse_numSongs (field : option string) : Z :=
  default 0 (parseInt10 (str_or field "0")).

(** The [submission] object, as a JSON value: the handler builds it only
    to push it to the list that [writeDB] prints, and a [numSongs] that is
    an infinity is printed [null]. *)
Definition make_submission (subId now : string) (body : gmap string string)
    (coverFile : option File) (tracks : list json) : json :=
  JObj [ ("id", JStr subId);
         ("albumName", JStr (trim (str_or (body !! "albumName") "")));
         ("releaseDate", JStr (str_or (body !! "releaseDate") ""));
         ("platforms", JArr (JStr <$> parse_platforms (body !! "platforms")));
         ("numSongs", js_number (parse_numSongs (body !! "numSongs")));
         ("cover", match coverFile with
                   | Some f => file_ref f
                   | None => JNull
                   end);
         ("tracks", JArr tracks);
         ("createdAt", JStr now);
         ("status", JStr "pending");
         ("adminNote", JNull) ].

(** The part of the handler after the metadata is parsed, inside [try]. *)
Definition assemble_and_save (subId now : string) (body : gmap string string)
    (files : list File) (tracks : json) (fs : Disk) : exc Disk :=
  let coverFile := head (files_of "cover" files) in
  let audioFiles := files_of "trackFiles" files in
  ts ← tracksWithFiles tracks audioFiles;
  let submission := make_submission subId now body coverFile ts in
  db ← js_array (readDB fs);
  Ok (writeDB (JArr (db ++ [submission])) fs).

Definition submit_handler (subId now : string) (body : gmap string string)
    (files : list File) (fs : Disk) : Response * Disk :=
  match JSON_parse (str_or (body !! "tracks") "[]") with
  | None =>
      (res_json 400 (JObj [("error", JStr "Invalid tracks metadata")]), fs)
  | Some tracks =>
      match assemble_and_save subId now body files tracks fs with
      | Ok fs' =>
          (res_json 200
             (JObj [ ("ok", JBool true);
                     ("id", JStr subId);
                     ("message",
                      JStr "Submission received. Admin will review.") ]),
           fs')
      | Throw _ =>
          (res_json 500 (JObj [("error", JStr "Internal server error")]), fs)
      end
  end.

(** [POST /submit]: [subId] is the identifier drawn for the request and
    [now] the time stamp; the upload middleware runs before the handler. *)
Definition post_submit (req : SubmitRequest) (subId now : string) (fs : Disk)
  : option (Response * Disk) :=
  '(files, fs1) ← upload_fields subId (req_parts req) fs;
  Some (submit_handler subId now (req_body req) files fs1).

(** ** Review workflow *)

Record Session := { isAdmin : bool }.

Definition requireAdmin (sess : Session) (fs : Disk)
    (next : Response * Disk) : Response * Disk :=
  if isAdmin sess then next else (res_redirect "/admin/login", fs).

(** [POST /admin/login]; [password] is [req.body.password]. *)
Definition post_login (password : option string) (sess : Session)
  : Response * Session :=
  let pass := str_or password "" in
  if String.eqb pass ADMIN_PASS then
    (res_redirect "/admin/dashboard", {| isAdmin := true |})
  else (res_redirect "/admin/login?err=1", sess).

(** The predicate [s => s.id === req.params.id]. *)
Definition has_id (id : string) (s : json) : exc bool :=
  v ← js_get s "id";
  Ok (match v with
      | Some a => strict_eq_str a id
      | None => false
      end).

(** [find] when the result is then mutated through the reference: the
    position of the element in the array stands for the reference. *)
Fixpoint find_ref_exc {A} (p : A -> exc bool) (i : nat) (l : list A)
  : exc (option (nat * A)) :=
  match l with
  | [] => Ok None
  | x :: l' =>
      b ← p x; if b : bool then Ok (Some (i, x)) else find_ref_exc p (S i) l'
  end.

(** [v.k = x] on a value that is an object. *)
Definition set_prop (k : string) (x : json) (v : json) : json :=
  match v with
  | JObj o => JObj (obj_set k x o)
  | _ => v
  end.

Definition run_handler (fs : Disk) (h : exc (Response * Disk))
  : Response * Disk :=
  match h with
  | Ok r => r
  | Throw e => (res_uncaught e, fs)
  end.

Definition not_found_json : Response :=
  res_json 404 (JObj [("error", JStr "Not found")]).

(** The approve and reject handlers differ in the status they write. *)
Definition review_handler (outcome : string) (id : string)
    (note : option json) (fs : Disk) : exc (Response * Disk) :=
  db ← js_array (readDB fs);
  found ← find_ref_exc (has_id id) 0 db;
  match found with
  | None => Ok (not_found_json, fs)
  | Some (i, sub) =>
      let sub' :=
        set_prop "adminNote" (js_or note JNull)
          (set_prop "status" (JStr outcome) sub) in
      Ok (res_json 200 (JObj [("ok", JBool true)]),
          writeDB (JArr (<[i := sub']> db)) fs)
  end.

Definition list_handler (fs : Disk) : exc (Response * Disk) :=
  Ok (res_json 200 (readDB fs), fs).

Definition get_handler (id : string) (fs : Disk) : exc (Response * Disk) :=
  db ← js_array (readDB fs);
  found ← find_exc (has_id id) db;
  match found with
  | None => Ok (not_found_json, fs)
  | Some sub => Ok (res_json 200 sub, fs)
  end.

(** ** Archive export *)

Definition truthy_opt (x : option json) : bool :=
  match x with
  | Some v => truthy v
  | None => false
  end.

(** [a || b] where both sides may be [undefined]. *)
Definition js_or_opt (x y : option json) : option json :=
  match x with
  | Some v => if truthy v then Some v else y
  | None => y
  end.

(** A value used where only a string works: the argument of [path.join],
    the receiver of [.replace]. *)
Definition js_string (x : option json) : exc string :=
  match x with
  | Some (JStr s) => Ok s
  | _ => Throw TypeError
  end.

Definition keep_char (c : ascii) : bool :=
  let n := nat_of_ascii c in
  ((97 <=? n) && (n <=? 122) || (65 <=? n) && (n <=? 90)
   || (48 <=? n) && (n <=? 57)
   || (n =? 95) || (n =? 45) || (n =? 46))%nat.

(** [s.replace(/[^a-z0-9_\-\.]/gi, '_')] *)
Fixpoint sanitize (s : string) : string :=
  match s with
  | EmptyString => EmptyString
  | String c r => String (if keep_char c then c else "_"%char) (sanitize r)
  end.

Definition cover_entries (sub : json) (fs : Disk) : exc (list ArchiveEntry) :=
  cover ← js_get sub "cover";
  if truthy_opt cover then
    coverPath ← path_join UPLOADS_DIR <$> js_string cover;
    Ok (if existsSync fs coverPath then
          [ {| entry_source := FromFile coverPath;
               entry_name := JStr (path_basename coverPath) |} ]
        else [])
  else Ok [].

(** The callback of [sub.tracks.forEach]: the entries one track adds. *)
Definition track_entries (fs : Disk) (t : json) (idx : nat)
  : exc (list ArchiveEntry) :=
  file ← js_get t "file";
  if truthy_opt file then
    full ← path_join UPLOADS_DIR <$> js_string file;
    if existsSync fs full then
      orig ← js_get t "originalFileName";
      let name :=
        js_or orig
          (JStr ("track-" ++ decimal (Z.of_nat idx + 1) ++ path_extname full)) in
      Ok [ {| entry_source := FromFile full; entry_name := name |} ]
    else Ok []
  else Ok [].

Definition download_handler (id : string) (fs : Disk)
  : exc (Response * Disk) :=
  db ← js_array (readDB fs);
  found ← find_exc (has_id id) db;
  match found with
  | None => Ok (res_send 404 "Not found", fs)
  | Some sub =>
      sid ← js_get sub "id";
      dir ← path_join UPLOADS_DIR <$> js_string sid;
      if negb (existsSync fs dir) then Ok (res_send 404 "Files missing", fs)
      else
        albumName ← js_get sub "albumName";
        base ← sanitize <$> js_string (js_or_opt albumName sid);
        let disposition := "attachment; filename=" ++ base ++ ".zip" in
        let metadata :=
          {| entry_source := FromString (JSON_stringify sub 2);
             entry_name := JStr "metadata.json" |} in
        cover ← cover_entries sub fs;
        tracks ← js_get sub "tracks";
        ts ← from_option js_array (Throw TypeError) tracks;
        audio ← mapi_exc (track_entries fs) 0 ts;
        Ok ({| status := 200;
               body := BArchive disposition
                         (metadata :: cover ++ concat audio) |}, fs)
  end.

(** ** The admin routes, each behind [requireAdmin] *)

Inductive AdminRequest :=
| GetDashboard
| ListSubmissions
| GetSubmission (id : string)
| Approve (id : string) (note : option json)
| Reject (id : string) (note : option json)
| Download (id : string).

Definition admin_route (r : AdminRequest) (sess : Session) (fs : Disk)
  : Response * Disk :=
  requireAdmin sess fs
    (run_handler fs
       match r with
       | GetDashboard =>
           Ok ({| status := 200;
                  body := BSendFile
                            (path_join (path_join dirname "public")
                               "admin-dashboard.html") |}, fs)
       | ListSubmissions => list_handler fs
       | GetSubmission id => get_handler id fs
       | Approve id note => review_handler "approved" id note fs
       | Reject id note => review_handler "rejected" id note fs
       | Download id => download_handler id fs
       end).

End Server.

(** ** A reference platform

    A concrete [Platform] on which the handlers can be run: a JSON
    printer and parser for the values of [json], and POSIX-style paths.
    The theorems below hold for every platform; this one serves to run
    the handlers on concrete requests. *)

Module Ref.

Definition dq : ascii := "034"%char.
Definition bs : ascii := "092"%char.
Definition nl : ascii := "010"%char.

Definition hex_digit (n : nat) : ascii :=
  if (n <? 10)%nat then ascii_of_nat (48 + n) else ascii_of_nat (87 + n).

Definition hex_val (c : ascii) : option nat :=
  let n := nat_of_ascii c in
  if ((48 <=? n) && (n <=? 57))%nat then Some (n - 48)%nat
  else if ((97 <=? n) && (n <=? 102))%nat then Some (n - 87)%nat
  else if ((65 <=? n) && (n <=? 70))%nat then Some (n - 55)%nat
  else None.

(** [QuoteJSONString] on one code unit. *)
Definition quote_char (c : ascii) : string :=
  let n := nat_of_ascii c in
  if (n =? 34)%nat then String bs (String dq EmptyString)
  else if (n =? 92)%nat then String bs (String bs EmptyString)
  else if (n =? 8)%nat then String bs "b"
  else if (n =? 9)%nat then String bs "t"
  else if (n =? 10)%nat then String bs "n"
  else if (n =? 12)%nat then String bs "f"
  else if (n =? 13)%nat then String bs "r"
  else if (n <? 32)%nat then
    String bs (String "u" (String "0" (String "0"
      (String (hex_digit (n / 16)) (String (hex_digit (n mod 16)) EmptyString)))))
  else String c EmptyString.

(** The printer threads the text that follows: [print_to gap indent v k]
    is the text of [v] followed by [k]. *)
Fixpoint quote_body (s k : string) : string :=
  match s with
  | EmptyString => k
  | String c r => quote_char c ++ quote_body r k
  end.

Definition quote_to (s k : string) : string :=
  String dq (quote_body s (String dq k)).

Fixpoint spaces (n : nat) : string :=
  match n with
  | O => EmptyString
  | S n' => String " " (spaces n')
  end.

(** A line break followed by the indentation, when there is a gap. *)
Definition brk (gap indent : string) : string :=
  if nonempty gap then String nl indent else EmptyString.

(** The items of a non-empty array or object: [sep] between two items,
    [close] after the last. *)
Definition print_items {A} (pr : A -> string -> string) (sep close : string)
  : list A -> string -> string :=
  fix go (l : list A) (k : string) : string :=
    match l with
    | [] => close ++ k
    | x :: l' =>
        pr x (match l' with
              | [] => close ++ k
              | _ :: _ => sep ++ go l' k
              end)
    end.

Fixpoint print_to (gap indent : string) (v : json) (k : string) : string :=
  let inner := indent ++ gap in
  match v with
  | JNull => "null" ++ k
  | JBool true => "true" ++ k
  | JBool false => "false" ++ k
  | JNum n => decimal n ++ k
  | JStr s => quote_to s k
  | JArr [] => "[]" ++ k
  | JArr l =>
      "[" ++ brk gap inner
      ++ print_items (print_to gap inner) ("," ++ brk gap inner)
           (brk gap indent ++ "]") l k
  | JObj [] => "{}" ++ k
  | JObj o =>
      "{" ++ brk gap inner
      ++ print_items
           (fun kv k' =>
              match kv with
              | (key, x) =>
                  quote_to key
                    (":" ++ (if nonempty gap then " " else "")
                     ++ print_to gap inner x k')
              end)
           ("," ++ brk gap inner) (brk gap indent ++ "}") o k
  end.

Definition stringify (v : json) (space : nat) : string :=
  print_to (spaces (Nat.min space 10)) EmptyString v EmptyString.

(** JSON white space: space, tab, line feed, carriage return. *)
Definition is_json_ws (c : ascii) : bool :=
  let n := nat_of_ascii c in
  ((n =? 32) || (n =? 9) || (n =? 10) || (n =? 13))%nat.

Fixpoint skip_json_ws (s : string) : string :=
  match s with
  | String c r => if is_json_ws c then skip_json_ws r else s
  | EmptyString => EmptyString
  end.

(** The characters of a string literal after the opening quote. *)
Fixpoint parse_chars (s : string) : option (string * string) :=
  match s with
  | EmptyString => None
  | String c r =>
      if Ascii.eqb c dq then Some (EmptyString, r)
      else if Ascii.eqb c bs then
        match r with
        | String e r' =>
            let plain (x : ascii) :=
              '(str, rest) ← parse_chars r'; Some (String x str, rest) in
            if Ascii.eqb e dq then plain dq
            else if Ascii.eqb e bs then plain bs
            else if Ascii.eqb e "/" then plain "/"%char
            else if Ascii.eqb e "b" then plain "008"%char
            else if Ascii.eqb e "t" then plain "009"%char
            else if Ascii.eqb e "n" then plain "010"%char
            else if Ascii.eqb e "f" then plain "012"%char
            else if Ascii.eqb e "r" then plain "013"%char
            else if Ascii.eqb e "u" then
              match r' with
              | String h1 (String h2 (String h3 (String h4 r''))) =>
                  a ← hex_val h1; b ← hex_val h2;
                  c' ← hex_val h3; d ← hex_val h4;
                  if ((a =? 0) && (b =? 0))%nat then
                    '(str, rest) ← parse_chars r'';
                    Some (String (ascii_of_nat (16 * c' + d)) str, rest)
                  else None
              | _ => None
              end
            else None
        | EmptyString => None
        end
      else if (nat_of_ascii c <? 32)%nat then None
      else '(str, rest) ← parse_chars r; Some (String c str, rest)
  end.

Fixpoint span_digits (s : string) : string * string :=
  match s with
  | String c r =>
      if is_digit c then
        let '(ds, rest) := span_digits r in (String c ds, rest)
      else (EmptyString, s)
  | EmptyString => (EmptyString, EmptyString)
  end.

Definition leading_zero (ds : string) : bool :=
  match ds with
  | String c (String _ _) => Ascii.eqb c "0"
  | _ => false
  end.

(** The text after an integer literal starts a fraction or an exponent. *)
Definition frac_start (rest : string) : bool :=
  match rest with
  | String c _ => Ascii.eqb c "." || Ascii.eqb c "e" || Ascii.eqb c "E"
  | EmptyString => false
  end.

(** An integer literal; a fraction or an exponent is outside [json]. *)
Definition parse_number (s : string) : option (json * string) :=
  let '(sign, s') :=
    match s with
    | String c r =>
        if Ascii.eqb c "-" then (String c EmptyString, r) else (EmptyString, s)
    | EmptyString => (EmptyString, s)
    end in
  let '(ds, rest) := span_digits s' in
  if String.eqb ds "" || leading_zero ds || frac_start rest then None
  else d ← NilZero.int_of_string (sign ++ ds); Some (JNum (Z.of_int d), rest).

Fixpoint expect (word s : string) : option string :=
  match word, s with
  | EmptyString, _ => Some s
  | String a w, String b r => if Ascii.eqb a b then expect w r else None
  | String _ _, EmptyString => None
  end.

Fixpoint parse_value (fuel : nat) (s : string) : option (json * string) :=
  match fuel with
  | O => None
  | S fuel' =>
      match skip_json_ws s with
      | EmptyString => None
      | String c r =>
          if Ascii.eqb c "n" then rest ← expect "ull" r; Some (JNull, rest)
          else if Ascii.eqb c "t" then
            rest ← expect "rue" r; Some (JBool true, rest)
          else if Ascii.eqb c "f" then
            rest ← expect "alse" r; Some (JBool false, rest)
          else if Ascii.eqb c dq then
            '(str, rest) ← parse_chars r; Some (JStr str, rest)
          else if Ascii.eqb c "[" then
            match skip_json_ws r with
            | String c' rest =>
                if Ascii.eqb c' "]" then Some (JArr [], rest)
                else parse_elems fuel' r []
            | EmptyString => None
            end
          else if Ascii.eqb c "{" then
            match skip_json_ws r with
            | String c' rest =>
                if Ascii.eqb c' "}" then Some (JObj [], rest)
                else parse_members fuel' r []
            | EmptyString => None
            end
          else parse_number (String c r)
      end
  end
with parse_elems (fuel : nat) (s : string) (acc : list json)
  : option (json * string) :=
  match fuel with
  | O => None
  | S fuel' =>
      '(v, rest) ← parse_value fuel' s;
      match skip_json_ws rest with
      | String c rest' =>
          if Ascii.eqb c "," then parse_elems fuel' rest' (acc ++ [v])
          else if Ascii.eqb c "]" then Some (JArr (acc ++ [v]), rest')
          else None
      | EmptyString => None
      end
  end
with parse_members (fuel : nat) (s : string) (acc : list (string * json))
  : option (json * string) :=
  match fuel with
  | O => None
  | S fuel' =>
      match skip_json_ws s with
      | String c r =>
          if Ascii.eqb c dq then
            '(key, rest) ← parse_chars r;
            match skip_json_ws rest with
            | String c1 rest1 =>
                if Ascii.eqb c1 ":" then
                  '(v, rest2) ← parse_value fuel' rest1;
                  match skip_json_ws rest2 with
                  | String c2 rest' =>
                      if Ascii.eqb c2 "," then
                        parse_members fuel' rest' (obj_set key v acc)
                      else if Ascii.eqb c2 "}" then
                        Some (JObj (obj_set key v acc), rest')
                      else None
                  | EmptyString => None
                  end
                else None
            | EmptyString => None
            end
          else None
      | EmptyString => None
      end
  end.

(** The whole text must be one value. *)
Definition parse (text : string) : option json :=
  '(v, rest) ← parse_value (S (String.length text)) text;
  match skip_json_ws rest with
  | EmptyString => Some v
  | _ => None
  end.

(** *** What the printer and the parser are proved to agree on *)

(** White space only. *)
Fixpoint blank (s : string) : bool :=
  match s with
  | EmptyString => true
  | String c r => is_json_ws c && blank r
  end.

(** A text before which an integer literal ends. *)
Definition stop (k : string) : bool :=
  match k with
  | EmptyString => true
  | String c _ => negb (is_digit c) && negb (frac_start k)
  end.

(** The fuel the parser needs for a value: its number of nodes. *)
Fixpoint weight (v : json) : nat :=
  match v with
  | JArr l =>
      S ((fix go (l : list json) : nat :=
            match l with
            | [] => O
            | x :: l' => S (weight x + go l')
            end) l)
  | JObj o =>
      S ((fix go (o : list (string * json)) : nat :=
            match o with
            | [] => O
            | (_, x) :: o' => S (weight x + go o')
            end) o)
  | _ => 1%nat
  end.

Definition weight_items (l : list json) : nat :=
  foldr (λ x n, S (weight x + n)) O l.

(** The values [JSON.parse] can return: no object has a key twice. *)
Fixpoint wf (v : json) : Prop :=
  match v with
  | JArr l =>
      (fix all (l : list json) : Prop :=
         match l with
         | [] => True
         | x :: l' => wf x ∧ all l'
         end) l
  | JObj o =>
      NoDup (o.*1) ∧
      (fix all (o : list (string * json)) : Prop :=
         match o with
         | [] => True
         | (_, x) :: o' => wf x ∧ all o'
         end) o
  | _ => True
  end.

Definition colon_gap (gap : string) : string :=
  if nonempty gap then " " else "".

(** One member of an object, as [print_to] prints it. *)
Definition print_member (gap inner : string) (kv : string * json) (k : string)
  : string :=
  match kv with
  | (key, x) =>
      quote_to key (":" ++ colon_gap gap ++ print_to gap inner x k)
  end.

(** The text of [v] is read back as [v], whatever follows it. *)
Definition reads_back (v : json) : Prop :=
  ∀ gap indent k fuel,
    blank gap = true → blank indent = true → stop k = true →
    (weight v ≤ fuel)%nat →
    parse_value fuel (print_to gap indent v k) = Some (v, k).

(** The text of [v] is at least as long as the fuel [v] needs. *)
Definition long_enough (v : json) : Prop :=
  ∀ gap indent k,
    (weight v + String.length k ≤ String.length (print_to gap indent v k))%nat.

Definition join (a b : string) : string := a ++ "/" ++ b.

Fixpoint strip_prefix (pre s : string) : option string :=
  match pre, s with
  | EmptyString, _ => Some s
  | String a p', String b s' => if Ascii.eqb a b then strip_prefix p' s' else None
  | String _ _, EmptyString => None
  end.

Definition relative (from to : string) : string :=
  default to (strip_prefix (from ++ "/") to).

Definition basename (p : string) : string :=
  List.last (split_on "/" p) EmptyString.

Definition extname (p : string) : string :=
  let b := basename p in
  match split_on "." b with
  | [] | [_] => EmptyString
  | [EmptyString; _] => EmptyString
  | parts => if String.eqb b ".." then EmptyString
             else String "." (List.last parts EmptyString)
  end.

(** One outcome of write streams sharing a path: every stream writes its
    content from the start of the file, over what is there. *)
Definition overlay (file content : string) : string :=
  String.append content
    (String.substring (String.length content)
       (String.length file - String.length content) file).

Definition platform : Platform :=
  {| JSON_parse := parse;
     JSON_stringify := stringify;
     path_join := join;
     path_relative := relative;
     path_basename := basename;
     path_extname := extname;
     dirname := "/srv/app";
     env_ADMIN_PASS := None;
     concurrent_writes := λ _ contents, foldl overlay "" contents |}.

End Ref.

(** ** Vocabulary of the statements *)

(** The value of field [k] of a record. *)
Definition field (k : string) (v : json) : option json :=
  match v with
  | JObj o => obj_get k o
  | _ => None
  end.

Definition is_obj (v : json) : bool :=
  match v with
  | JObj _ => true
  | _ => false
  end.

(** Record [s] carries the identifier [id]. *)
Definition id_is (id : string) (s : json) : bool :=
  match field "id" s with
  | Some a => strict_eq_str a id
  | None => false
  end.

Definition ok_json : Response := res_json 200 (JObj [("ok", JBool true)]).

(** The answer to an accepted submission. *)
Definition accepted (subId : string) : Response :=
  res_json 200
    (JObj [ ("ok", JBool true); ("id", JStr subId);
            ("message", JStr "Submission received. Admin will review.") ]).


(** Track [t] declares the name of upload [f]. *)
Definition named_by (f : File) (t : json) : bool :=
  match field "fileName" t with
  | Some (JStr s) => String.eqb s (originalname f)
  | _ => false
  end.

(** The unmatched-upload list the specification speaks of: the uploads
    that no declared track names, in upload order.  The handler has no
    such list; it is defined here to compare the two. *)
Definition unmatched_uploads (ts : list json) (U : list File) : list File :=
  List.filter (λ f, negb (existsb (named_by f) ts)) U.

(** The two review requests and the status each one writes. *)
Definition review_request (approve : bool) (id : string) (note : option json)
  : AdminRequest :=
  if approve then Approve id note else Reject id note.

Definition outcome_of (approve : bool) : string :=
  if approve then "approved" else "rejected".

(** The properties of a record after a review wrote its two fields. *)
Definition decided (outcome : string) (note : option json)
    (o : list (string * json)) : list (string * json) :=
  obj_set "adminNote" (js_or note JNull) (obj_set "status" (JStr outcome) o).

Section Vocabulary.
Context `{P : Platform}.

(** The platform's printer and parser agree on [v]: what [writeDB] writes
    for [v] is read back as [v]. *)
Definition roundtrips (v : json) : Prop :=
  JSON_parse (JSON_stringify v 2) = Some v.

(** A file object as the disk storage builds it for submission [subId]. *)
Definition placed (subId : string) (f : File) : Prop :=
  originalname f ≠ "" ∧
  path f = path_join (path_join UPLOADS_DIR subId) (originalname f).

(** The record list after a review of [id], as the handler rewrites it. *)
Definition reviewed (outcome id : string) (note : option json)
    (db : list json) : list json :=
  match find_ref_exc (has_id id) 0 db with
  | Ok (Some (i, sub)) =>
      <[i := set_prop "adminNote" (js_or note JNull)
               (set_prop "status" (JStr outcome) sub)]> db
  | _ => db
  end.

(** Where the disk storage puts a part of submission [subId]. *)
Definition target (subId : string) (p : FilePart) : string :=
  path_join (path_join UPLOADS_DIR subId) (part_filename p).

(** The test of [audioFiles.find] for a track that is not [null]. *)
Definition names_track (t : json) (f : File) : bool :=
  strict_eq_str (js_or (field "fileName" t) (JStr "")) (originalname f).

(** What [tracks.map] makes of a track that is not [null]. *)
Definition matched_track (audioFiles : list File) (idx : nat) (t : json)
  : json :=
  match List.find (names_track t) audioFiles with
  | Some f => with_file t (file_ref f) (JStr (originalname f))
  | None =>
      match audioFiles !! idx with
      | Some f => with_file t (file_ref f) (JStr (originalname f))
      | None => with_file t JNull JNull
      end
  end.

(** The record the handler appends for declared tracks [ts], none of
    them [null]. *)
Definition ingested (subId now : string) (body : gmap string string)
    (files : list File) (ts : list json) : json :=
  make_submission subId now body (head (files_of "cover" files))
    (imap (matched_track (files_of "trackFiles" files)) ts).

(** A track whose [file] is a path to something on the disk. *)
Definition track_resolvable (fs : Disk) (t : json) : bool :=
  match field "file" t with
  | Some (JStr p) => nonempty p && existsSync fs (path_join UPLOADS_DIR p)
  | _ => false
  end.

(** The archive entry of a track whose file is [p]. *)
Definition audio_entry (t : json) (i : nat) (p : string) : ArchiveEntry :=
  {| entry_source := FromFile (path_join UPLOADS_DIR p);
     entry_name :=
       js_or (field "originalFileName" t)
         (JStr ("track-" ++ decimal (Z.of_nat i + 1)
                ++ path_extname (path_join UPLOADS_DIR p))) |}.

(** The entry of track [t] at position [i], for a track with a file. *)
Definition audio_entry_of (i : nat) (t : json) : ArchiveEntry :=
  match field "file" t with
  | Some (JStr p) => audio_entry t i p
  | _ => audio_entry t i ""
  end.

End Vocabulary.

(** ** Vocabulary of the upload middleware and of the submit handler *)

(** The parts that carry a file: a part without a file name is no file. *)
Definition named (parts : list FilePart) : list FilePart :=
  filter (λ p, part_filename p ≠ "") parts.

(** The number of files sent for one form field. *)
Definition count_field (field : string) (parts : list FilePart) : nat :=
  length (filter (λ p, part_field p = field) (named parts)).

(** The answer of the submit handler to an exception in its [try]. *)
Definition internal_error : Response :=
  res_json 500 (JObj [("error", JStr "Internal server error")]).

Definition is_arr (v : json) : bool :=
  match v with
  | JArr _ => true
  | _ => false
  end.

Section UploadVocabulary.
Context `{P : Platform}.

(** The file object of a part of submission [subId]. *)
Definition file_of (subId : string) (p : FilePart) : File :=
  {| fieldname := part_field p;
     originalname := part_filename p;
     path := target subId p |}.

(** What the named parts of a request pipe to path [t], in arrival
    order. *)
Definition piped_to (subId t : string) (parts : list FilePart)
  : list string :=
  part_content <$> filter (λ p, target subId p = t) (named parts).

(** The file at path [t] after the upload of [parts] over [files]. *)
Definition written (subId : string) (parts : list FilePart)
    (files : gmap string string) (t : string) : option string :=
  match piped_to subId t parts with
  | [] => files !! t
  | contents => Some (settled t contents)
  end.

End UploadVocabulary.

(** ** Vocabulary of the export *)

(** A property that is absent, [null] or a string: what the submit
    handler writes for [cover] and for the [file] of a track. *)
Definition ref_like (x : option json) : bool :=
  match x with
  | None | Some JNull | Some (JStr _) => true
  | _ => false
  end.

Section ExportVocabulary.
Context `{P : Platform}.

Definition metadata_entry (sub : json) : ArchiveEntry :=
  {| entry_source := FromString (JSON_stringify sub 2);
     entry_name := JStr "metadata.json" |}.

(** The cover is archived when the record names one and it is on the
    disk. *)
Definition cover_part (fs : Disk) (sub : json) : list ArchiveEntry :=
  match field "cover" sub with
  | Some (JStr c) =>
      if nonempty c && existsSync fs (path_join UPLOADS_DIR c) then
        [ {| entry_source := FromFile (path_join UPLOADS_DIR c);
             entry_name := JStr (path_basename (path_join UPLOADS_DIR c)) |} ]
      else []
  | _ => []
  end.

(** A track is archived when it names a file and the file is on the
    disk. *)
Definition track_part (fs : Disk) (i : nat) (t : json) : list ArchiveEntry :=
  if track_resolvable fs t then [audio_entry_of i t] else [].

(** The uploads root and the relative path recorded for [f] lead back
    to the file. *)
Definition relocatable (f : File) : Prop :=
  path_relative UPLOADS_DIR (path f) ≠ "" ∧
  path_join UPLOADS_DIR (path_relative UPLOADS_DIR (path f)) = path f.

(** The archive entry of an upload under the name [name]. *)
Definition upload_entry (f : File) (name : string) : ArchiveEntry :=
  {| entry_source := FromFile (path f); entry_name := JStr name |}.

End ExportVocabulary.

(** * The rest of the server and the client scripts *)

(** ** Session end and start-up (server) *)

(** [GET /admin/logout]: the session is destroyed, and the next request
    of the client starts a session that has no [isAdmin]. *)
Definition get_logout (sess : Session) : Response * Session :=
  (res_redirect "/admin/login", {| isAdmin := false |}).

(** The requests that touch the session or pass the admin gate. *)
Inductive AdminAction :=
| Login (password : option string)
| Logout
| Route (r : AdminRequest).

Section ServerRest.
Context `{P : Platform}.

Definition admin_step (a : AdminAction) (st : Session * Disk)
  : Response * (Session * Disk) :=
  match a with
  | Login p => let '(r, sess) := post_login p st.1 in (r, (sess, st.2))
  | Logout => let '(r, sess) := get_logout st.1 in (r, (sess, st.2))
  | Route q => let '(r, fs) := admin_route q st.1 st.2 in (r, (st.1, fs))
  end.

(** The state after a sequence of requests of one client. *)
Definition admin_run (l : list AdminAction) (st : Session * Disk)
  : Session * Disk :=
  foldl (λ st a, (admin_step a st).2) st l.

(** The start of the server, as far as the disk of the model goes: the
    uploads root is made when it is missing, and a record file that is
    not there is created holding the empty list.  [db_file = None] is
    read here as: the file is not there. *)
Definition startup (fs : Disk) : Disk :=
  let fs1 := if existsSync fs UPLOADS_DIR then fs else mkdirSync UPLOADS_DIR fs in
  match db_file fs1 with
  | Some _ => fs1
  | None =>
      {| db_file := Some (JSON_stringify (JArr []) 0);
         upload_files := upload_files fs1;
         upload_dirs := upload_dirs fs1 |}
  end.

End ServerRest.

(** ** The submission form (client) *)

(** A JavaScript number that is an integer or [NaN] ([None]). *)
Definition js_String (n : option Z) : string :=
  match n with
  | Some z => decimal z
  | None => "NaN"
  end.

(** [l.join(',')] *)
Fixpoint join_comma (l : list string) : string :=
  match l with
  | [] => ""
  | [x] => x
  | x :: l' => x ++ "," ++ join_comma l'
  end.

Record ChosenFile := {
  file_name : string;
  file_content : string
}.

(** One [.field] element of the track container: its inputs. *)
Record TrackRow := {
  row_title : string;
  row_featured : string;
  row_explicit : bool;
  row_file : option ChosenFile
}.

(** The state of the form: the inputs, the counter [trackCount] of the
    script, and the natural size of the chosen cover image ([None] when it
    does not load). *)
Record AlbumForm := {
  albumName_value : string;
  releaseDate_value : string;
  platforms_checked : list string;
  numSongs_value : string;
  trackCount : option Z;
  trackEls : list TrackRow;
  coverInput : option ChosenFile;
  cover_natural : option (Z * Z)
}.









Section Client.
Context `{P : Platform}.

(** The callback of [trackEls.map]. *)
Definition track_json (idx : nat) (f : TrackRow) : json :=
  JObj [ ("index", JNum (Z.of_nat idx + 1));
         ("title", JStr (trim (row_title f)));
         ("featured", JStr (trim (row_featured f)));
         ("explicit", JBool (row_explicit f));
         ("fileName", match row_file f with
                      | Some file => JStr (file_name file)
                      | None => JNull
                      end) ].

Definition form_tracks (st : AlbumForm) : list json :=
  imap track_json (trackEls st).

Definition cover_ok (st : AlbumForm) : bool :=
  match cover_natural st with
  | Some (w, h) => (3000 <=? w) && (3000 <=? h)
  | None => false
  end.

Definition titled (f : TrackRow) : bool := nonempty (trim (row_title f)).

(** [fd.append(field, file, file.name)] *)
Definition file_part (field : string) (file : ChosenFile) : FilePart :=
  {| part_field := field;
     part_filename := file_name file;
     part_content := file_content file |}.

Definition form_data (st : AlbumForm) (coverFile : ChosenFile)
  : SubmitRequest :=
  {| req_body :=
       {[ "albumName" := trim (albumName_value st);
          "releaseDate" := releaseDate_value st;
          "platforms" := join_comma (trim <$> platforms_checked st);
          "numSongs" := js_String (trackCount st);
          "tracks" := JSON_stringify (JArr (form_tracks st)) 0 ]};
     req_parts :=
       file_part "cover" coverFile
       :: omap (λ f, file_part "trackFiles" <$> row_file f) (trackEls st) |}.

(** The submit listener up to [fetch]: [None] when it returns before
    sending (no cover, cover too small or not an image, a track without a
    title). *)
Definition form_submit (st : AlbumForm) : option SubmitRequest :=
  match coverInput st with
  | None => None
  | Some coverFile =>
      if cover_ok st then
        if forallb titled (trackEls st) then Some (form_data st coverFile)
        else None
      else None
  end.

(** The audio files chosen in the rows, in row order. *)
Definition chosen_files (st : AlbumForm) : list ChosenFile :=
  omap row_file (trackEls st).

(** The reference the server records for an upload named [name] of
    submission [subId]. *)
Definition stored_ref (subId name : string) : json :=
  JStr (path_relative UPLOADS_DIR
          (path_join (path_join UPLOADS_DIR subId) name)).

(** ** The login form (client) *)

(** The submit listener of the login form: [None] when it prevents the
    submission (empty or blank password), else the password the browser
    posts to [/admin/login]. *)
Definition login_form_submit (password_value : string) : option string :=
  if negb (nonempty password_value)
     || (String.length (trim password_value) =? 0)%nat
  then None
  else Some password_value.

(** A login attempt through the form: the page stays when the listener
    prevents the submission. *)
Definition login_through_form (password_value : string) (sess : Session)
  : option Response * Session :=
  match login_form_submit password_value with
  | Some p => let '(r, sess') := post_login (Some p) sess in (Some r, sess')
  | None => (None, sess)
  end.

(** ** The review buttons of the dashboard (client) *)

(** The body the dashboard sends with an approval or a rejection:
    [{ note: adminNote.value || null }]. *)
Definition review_body (adminNote_value : string) : json :=
  JObj [ ("note", js_or (Some (JStr adminNote_value)) JNull) ].

(** The request as the server sees it once the body is parsed:
    [req.body.note] is read from the parsed object. *)
Definition dashboard_review (approve : bool) (id adminNote_value : string)
  : option AdminRequest :=
  body ← JSON_parse (JSON_stringify (review_body adminNote_value) 0);
  Some (review_request approve id (field "note" body)).

End Client.

(** ** The password hash of the sign-in page (client) *)

(** Numbers of the script are integers far below 2^53, so the arithmetic
    on them is exact; the bit operators work on their 32-bit values. *)
Definition ToInt32 (x : Z) : Z := (x + 2 ^ 31) mod 2 ^ 32 - 2 ^ 31.
Definition ToUint32 (x : Z) : Z := x mod 2 ^ 32.

(** [x << k] and [x ^ y] *)
Definition js_shl (x k : Z) : Z := ToInt32 (Z.shiftl (ToInt32 x) k).
Definition js_xor (x y : Z) : Z := Z.lxor (ToInt32 x) (ToInt32 y).

(** One turn of the loop, on the code unit [c]. *)
Definition hash_round (h c : Z) : Z :=
  let h := js_xor h c in
  h + (js_shl h 1 + js_shl h 4 + js_shl h 7 + js_shl h 8 + js_shl h 24).

Definition hex_char (d : Z) : ascii :=
  if d <? 10 then ascii_of_nat (48 + Z.to_nat d)
  else ascii_of_nat (87 + Z.to_nat d).

Fixpoint hex_digits (fuel : nat) (n : Z) (acc : string) : string :=
  match fuel with
  | O => acc
  | S fuel' =>
      let acc' := String (hex_char (n mod 16)) acc in
      if n / 16 =? 0 then acc' else hex_digits fuel' (n / 16) acc'
  end.

(** [n.toString(16)] for a 32-bit unsigned [n]: at most eight digits. *)
Definition toString16 (n : Z) : string := hex_digits 8 n "".

Definition charCodes (s : string) : list Z :=
  (λ c, Z.of_nat (nat_of_ascii c)) <$> list_ascii_of_string s.

(** The hash over the code units of the string. *)
Definition simpleHash_units (units : list Z) : Z :=
  ToUint32 (foldl hash_round (ToUint32 2166136261) units).

Definition _simpleHash (s : string) : string :=
  toString16 (simpleHash_units (charCodes s)).

(** The 32-bit FNV-1a hash, to compare with: offset basis 2166136261 and
    prime 16777619. *)
Definition fnv1a32 (units : list Z) : Z :=
  foldl (λ h c, (Z.lxor h c * 16777619) mod 2 ^ 32) 2166136261 units.

(** ** Sample data on the reference platform *)

Module Demo.

Definition empty_disk : Disk :=
  {| db_file := None; upload_files := ∅; upload_dirs := ∅ |}.

Definition admin : Session := {| isAdmin := true |}.
Definition guest : Session := {| isAdmin := false |}.

Definition with_db (text : string) : Disk :=
  {| db_file := Some text; upload_files := ∅; upload_dirs := ∅ |}.

Definition record (id status : string) : json :=
  JObj [ ("id", JStr id); ("albumName", JStr "Test"); ("numSongs", JNum 7);
         ("tracks", JArr []); ("status", JStr status); ("adminNote", JNull) ].

Definition two_records : list json :=
  [ record "s1" "pending"; record "s2" "rejected" ].

Definition two_records_disk : Disk :=
  with_db (Ref.stringify (JArr two_records) 2).

Definition part (field name : string) : FilePart :=
  {| part_field := field; part_filename := name; part_content := name |}.

(** A request whose [tracks] field is the text [tracks]. *)
Definition request (tracks numSongs : string) (parts : list FilePart)
  : SubmitRequest :=
  {| req_body := {[ "albumName" := "Test"; "numSongs" := numSongs;
                    "tracks" := tracks ]};
     req_parts := parts |}.

Definition tracks_ba : list json :=
  [ JObj [("title", JStr "A"); ("fileName", JStr "b.mp3")];
    JObj [("title", JStr "B")] ].

Definition parts_ab : list FilePart :=
  [ part "cover" "c.png"; part "trackFiles" "a.mp3";
    part "trackFiles" "b.mp3" ].

Definition request_ba : SubmitRequest :=
  request (Ref.stringify (JArr tracks_ba) 0) "2" parts_ab.

Definition request_object : SubmitRequest := request "{}" "2" parts_ab.
Definition request_odd_count : SubmitRequest :=
  request (Ref.stringify (JArr tracks_ba) 0) "12abc" parts_ab.

Definition file_b : File :=
  {| fieldname := "trackFiles"; originalname := "b.mp3";
     path := "/srv/app/uploads/id1/b.mp3" |}.

(** What the upload middleware makes of [parts] for submission [id1]. *)
Definition stored (parts : list FilePart) : list File * Disk :=
  default ([], empty_disk)
    (upload_fields (P := Ref.platform) "id1" parts empty_disk).

Definition audio_ab : list File :=
  files_of "trackFiles" (stored parts_ab).1.

(** A stored submission with its assets: the first track kept its
    original file name, the second has none recorded. *)
Definition export_tracks : list json :=
  [ JObj [ ("title", JStr "A"); ("file", JStr "id9/x.mp3");
           ("originalFileName", JStr "x.mp3") ];
    JObj [ ("title", JStr "B"); ("file", JStr "id9/y.flac");
           ("originalFileName", JNull) ] ].

Definition export_record : list (string * json) :=
  [ ("id", JStr "id9"); ("albumName", JStr "My Album!");
    ("numSongs", JNum 2); ("cover", JStr "id9/c.png");
    ("tracks", JArr export_tracks); ("status", JStr "approved");
    ("adminNote", JNull) ].

Definition export_disk : Disk :=
  {| db_file := Some (Ref.stringify (JArr [JObj export_record]) 2);
     upload_files :=
       {[ "/srv/app/uploads/id9/c.png" := "png";
          "/srv/app/uploads/id9/x.mp3" := "mp3";
          "/srv/app/uploads/id9/y.flac" := "flac" ]};
     upload_dirs := {[ "/srv/app/uploads/id9" ]} |}.

(** The disk after two approvals of record [s2] in a row. *)
Definition after_two_approvals (n1 n2 : option json) : Disk :=
  (admin_route (P := Ref.platform) (Approve "s2" n2) admin
     (admin_route (P := Ref.platform) (Approve "s2" n1) admin
        two_records_disk).2).2.

(** Two files sent under one name, the second shorter than the first. *)
Definition parts_racing : list FilePart :=
  [ {| part_field := "trackFiles"; part_filename := "a.mp3";
       part_content := "0123456789" |};
    {| part_field := "trackFiles"; part_filename := "a.mp3";
       part_content := "abc" |} ].

(** A part without a file name, as a browser sends for an empty file
    input. *)
Definition parts_nameless : list FilePart := [ part "cover" "" ].

(** Requests with a [null] among the tracks, with and without audio, and
    a request without a [tracks] field. *)
Definition request_null_track : SubmitRequest := request "[null]" "1" parts_ab.
Definition request_null_track_no_audio : SubmitRequest :=
  request "[null]" "1" [ part "cover" "c.png" ].
Definition request_no_tracks : SubmitRequest :=
  {| req_body := {[ "albumName" := "Test" ]}; req_parts := parts_ab |}.

(** The request of [request_ba] without any file part. *)
Definition request_fileless : SubmitRequest :=
  request (Ref.stringify (JArr tracks_ba) 0) "2" [].

(** A stored submission with gaps: no cover, a track without a file, a
    track whose file is gone from the disk, and one track that is
    there. *)
Definition export_gaps_tracks : list json :=
  [ JObj [ ("title", JStr "A"); ("file", JNull);
           ("originalFileName", JNull) ];
    JObj [ ("title", JStr "B"); ("file", JStr "id8/gone.mp3");
           ("originalFileName", JStr "gone.mp3") ];
    JObj [ ("title", JStr "C"); ("file", JStr "id8/z.wav");
           ("originalFileName", JStr "z.wav") ] ].

Definition export_gaps_record : list (string * json) :=
  [ ("id", JStr "id8"); ("albumName", JStr "Gaps"); ("cover", JNull);
    ("tracks", JArr export_gaps_tracks); ("status", JStr "pending");
    ("adminNote", JNull) ].

Definition export_gaps_disk : Disk :=
  {| db_file := Some (Ref.stringify (JArr [JObj export_gaps_record]) 2);
     upload_files := {[ "/srv/app/uploads/id8/z.wav" := "wav" ]};
     upload_dirs := {[ "/srv/app/uploads/id8" ]} |}.

(** The no-break space. *)
Definition nbsp : string := String "160"%char "".

(** A request whose platforms come with blanks, no-break spaces and
    empty segments. *)
Definition request_platforms : SubmitRequest :=
  {| req_body :=
       {[ "albumName" := "Test";
          "platforms" := (nbsp ++ "Spotify " ++ nbsp ++ ",,Apple Music, "
                          ++ nbsp)%string ]};
     req_parts := parts_ab |}.

(** A form with two rows, the second without a file. *)
Definition row_a : TrackRow :=
  {| row_title := " Intro "; row_featured := ""; row_explicit := false;
     row_file := Some {| file_name := "a.mp3"; file_content := "aaa" |} |}.
Definition row_b : TrackRow :=
  {| row_title := "Outro"; row_featured := "Guest"; row_explicit := true;
     row_file := None |}.

Definition form : AlbumForm :=
  {| albumName_value := " My Album ";
     releaseDate_value := "2024-05-01";
     platforms_checked := ["Spotify"; "Apple Music"];
     numSongs_value := "2";
     trackCount := Some 2;
     trackEls := [row_b; row_a];
     coverInput := Some {| file_name := "c.png"; file_content := "png" |};
     cover_natural := Some (3000, 3000) |}.

Definition form_request : SubmitRequest :=
  default (request "" "" []) (form_submit (P := Ref.platform) form).

(** An identifier as [uuidv4] draws them, and the disk after one and
    after two requests for which it drew that identifier. *)
Definition an_id : string := "1b9d6bcd-bbfd-4b2d-9b5d-ab8dfbbd4bed".

Definition request_second : SubmitRequest :=
  request "[]" "0" [ part "cover" "d.png" ].

Definition after_first : Disk :=
  default empty_disk
    (snd <$> post_submit (P := Ref.platform) request_ba an_id "t0" empty_disk).

Definition after_second : Disk :=
  default empty_disk
    (snd <$> post_submit (P := Ref.platform) request_second an_id "t1"
               after_first).

(** The request of [request_ba] with another text in [numSongs]. *)
Definition request_count (numSongs : string) : SubmitRequest :=
  request (Ref.stringify (JArr tracks_ba) 0) numSongs parts_ab.

(** The numeral of 10^309, which lies beyond the doubles. *)
Definition beyond_doubles : string :=
  String "1" (string_of_list_ascii (replicate 309 "0"%char)).

End Demo.

(** * Theorems *)

(** ** Record store *)

(** C8. When the record file is missing, or its content is not parseable,
    [readDB] yields the empty list (it cannot raise: its result is a
    value); when the content parses, it yields the parsed value, hence a
    stored list with its elements in order. *)
Theorem readDB_degrades_to_empty `{P : Platform} (fs : Disk) :
  (db_file fs = None → readDB fs = JArr []) ∧
  (∀ text, db_file fs = Some text → JSON_parse text = None →
           readDB fs = JArr []) ∧
  (∀ text v, db_file fs = Some text → JSON_parse text = Some v →
             readDB fs = v).
Proof.
  unfold readDB. repeat split.
  - intros ->. reflexivity.
  - intros text -> ->. reflexivity.
  - intros text v -> ->. reflexivity.
Qed.

Lemma readDB_degrades_to_empty_witness :
  readDB (P := Ref.platform) Demo.empty_disk = JArr [] ∧
  readDB (P := Ref.platform) (Demo.with_db "[1, 2") = JArr [] ∧
  readDB (P := Ref.platform) (Demo.with_db "[3, 1, 2]")
  = JArr [JNum 3; JNum 1; JNum 2].
Proof.
  split; [|split].
  - apply (readDB_degrades_to_empty (P := Ref.platform) Demo.empty_disk).
    reflexivity.
  - apply (proj1 (proj2 (readDB_degrades_to_empty (P := Ref.platform)
                           (Demo.with_db "[1, 2"))) "[1, 2");
      reflexivity.
  - apply (proj2 (proj2 (readDB_degrades_to_empty (P := Ref.platform)
                           (Demo.with_db "[3, 1, 2]"))) "[3, 1, 2]");
      reflexivity.
Defined.

(** ** Review workflow: the session gate *)

Lemma str_or_empty (x : option string) : str_or x "" = default "" x.
Proof.
  destruct x as [s|]; [|reflexivity]. simpl.
  destruct (String.eqb_spec s ""); congruence.
Qed.

Lemma ADMIN_PASS_nonempty `{P : Platform} : ADMIN_PASS ≠ "".
Proof.
  unfold ADMIN_PASS, str_or. destruct env_ADMIN_PASS as [s|]; [|discriminate].
  destruct (String.eqb_spec s ""); [discriminate|assumption].
Qed.

Lemma requireAdmin_guest (sess : Session) (fs : Disk) next :
  isAdmin sess = false → requireAdmin sess fs next = (res_redirect "/admin/login", fs).
Proof. unfold requireAdmin. intros ->. reflexivity. Qed.

(** C9. A login succeeds (the session is marked admin and the caller is
    sent to the dashboard) exactly when the submitted password is the
    configured one; any other password, or none, is answered with a
    redirect to [/admin/login?err=1] and an unchanged session; every admin
    route asked without an admin session answers with a redirect to the
    login page and leaves the disk alone. *)
Theorem login_iff_password `{P : Platform} (p : option string) (sess : Session) :
  (post_login p sess = (res_redirect "/admin/dashboard", {| isAdmin := true |})
   ↔ p = Some ADMIN_PASS) ∧
  (p ≠ Some ADMIN_PASS →
   post_login p sess = (res_redirect "/admin/login?err=1", sess)) ∧
  (∀ r fs, isAdmin sess = false →
           admin_route r sess fs = (res_redirect "/admin/login", fs)).
Proof.
  assert (Hcase : String.eqb (str_or p "") ADMIN_PASS = true ↔ p = Some ADMIN_PASS).
  { rewrite str_or_empty, String.eqb_eq. destruct p as [s|]; simpl.
    - split; congruence.
    - split; [|discriminate]. intros H. exfalso. apply ADMIN_PASS_nonempty. symmetry. exact H. }
  unfold post_login. cbn zeta.
  destruct (String.eqb (str_or p "") ADMIN_PASS) eqn:E.
  - split; [|split].
    + split; [intros _; apply Hcase; reflexivity | reflexivity].
    + intros Hne. exfalso. apply Hne, Hcase. reflexivity.
    + intros r fs. apply requireAdmin_guest.
  - split; [|split].
    + split; [intros H; discriminate H|].
      intros H. apply Hcase in H. discriminate H.
    + reflexivity.
    + intros r fs. apply requireAdmin_guest.
Qed.

Lemma login_iff_password_witness :
  post_login (P := Ref.platform) (Some "letmein") Demo.guest
  = (res_redirect "/admin/login?err=1", Demo.guest) ∧
  admin_route (P := Ref.platform) ListSubmissions Demo.guest Demo.two_records_disk
  = (res_redirect "/admin/login", Demo.two_records_disk).
Proof.
  destruct (login_iff_password (P := Ref.platform) (Some "letmein") Demo.guest)
    as (_ & Hbad & Hgate).
  split.
  - apply Hbad. vm_compute. discriminate.
  - apply Hgate. reflexivity.
Defined.

(** ** Objects as association lists *)

Lemma obj_get_set_eq k v o : obj_get k (obj_set k v o) = Some v.
Proof.
  induction o as [|[k' v'] o IH]; simpl.
  - rewrite String.eqb_refl. reflexivity.
  - destruct (String.eqb k k') eqn:E; simpl; rewrite E; auto.
Qed.

Lemma obj_get_set_ne k k' v o :
  k ≠ k' → obj_get k' (obj_set k v o) = obj_get k' o.
Proof.
  intros Hne. induction o as [|[k0 v0] o IH]; simpl.
  - destruct (String.eqb_spec k' k); congruence.
  - destruct (String.eqb_spec k k0) as [->|]; simpl.
    + destruct (String.eqb_spec k' k0); congruence.
    + rewrite IH. reflexivity.
Qed.

Lemma obj_set_keys k v o :
  is_Some (obj_get k o) → (obj_set k v o).*1 = o.*1.
Proof.
  induction o as [|[k0 v0] o IH]; cbn [obj_set obj_get].
  - intros [? ?]. discriminate.
  - destruct (String.eqb k k0); [reflexivity|].
    intros H. rewrite !fmap_cons. f_equal. apply IH, H.
Qed.

Lemma obj_set_is_Some k k' v o :
  is_Some (obj_get k' o) → is_Some (obj_get k' (obj_set k v o)).
Proof.
  intros H. destruct (decide (k = k')) as [->|Hne].
  - rewrite obj_get_set_eq. eauto.
  - rewrite obj_get_set_ne; auto.
Qed.

Lemma strict_eq_str_true a s : strict_eq_str a s = true → a = JStr s.
Proof.
  destruct a; simpl; try discriminate.
  intros H. apply String.eqb_eq in H. congruence.
Qed.

Lemma id_is_true id s :
  id_is id s = true → ∃ o, s = JObj o ∧ obj_get "id" o = Some (JStr id).
Proof.
  unfold id_is, field. destruct s; try discriminate.
  destruct (obj_get "id" props) as [a|] eqn:E; [|discriminate].
  intros H. apply strict_eq_str_true in H. subst. eauto.
Qed.

(** ** Looking a record up by identifier *)

Lemma has_id_obj id s : is_obj s = true → has_id id s = Ok (id_is id s).
Proof. destruct s; try discriminate. reflexivity. Qed.

Lemma find_ref_exc_found id db n :
  Forall (λ s, is_obj s = true) db →
  (∃ s, s ∈ db ∧ id_is id s = true) →
  ∃ i o, find_ref_exc (has_id id) n db = Ok (Some ((n + i)%nat, JObj o)) ∧
         db !! i = Some (JObj o) ∧
         obj_get "id" o = Some (JStr id) ∧
         (∀ j s, (j < i)%nat → db !! j = Some s → id_is id s = false).
Proof.
  intros Hobj. revert n. induction Hobj as [|s db Hs Hobj IH]; intros n [x [Hin Hx]].
  - inversion Hin.
  - simpl. rewrite (has_id_obj id s Hs). simpl.
    destruct (id_is id s) eqn:E.
    + destruct (id_is_true id s E) as [o [-> Ho]].
      exists 0%nat, o. rewrite Nat.add_0_r. repeat split; auto.
      intros j s' Hj. lia.
    + destruct (IH (S n)) as (i & o & Hf & Hl & Ho & Hfirst).
      { apply elem_of_cons in Hin as [->|Hin]; [congruence|eauto]. }
      exists (S i), o. rewrite Nat.add_succ_r. repeat split; auto.
      intros [|j] s' Hj Hs'; simpl in Hs'.
      * congruence.
      * apply (Hfirst j); auto. lia.
Qed.

Lemma find_ref_exc_absent id db n :
  Forall (λ s, is_obj s = true) db →
  (∀ s, s ∈ db → id_is id s = false) →
  find_ref_exc (has_id id) n db = Ok None.
Proof.
  intros Hobj. revert n. induction Hobj as [|s db Hs Hobj IH]; intros n Habs.
  - reflexivity.
  - simpl. rewrite (has_id_obj id s Hs). simpl.
    rewrite (Habs s) by (apply elem_of_cons; auto).
    apply IH. intros s' Hin. apply Habs. apply elem_of_cons. auto.
Qed.

Lemma find_ref_exc_elem {A} (p : A → exc bool) n (l : list A) i x :
  find_ref_exc p n l = Ok (Some (i, x)) → x ∈ l.
Proof.
  revert n. induction l as [|y l IH]; intros n; simpl.
  - discriminate.
  - destruct (p y) as [[|]|e]; simpl; try discriminate.
    + intros [= _ ->]. apply elem_of_cons. auto.
    + intros H. apply elem_of_cons. right. eapply IH, H.
Qed.

Lemma find_exc_ref {A} (p : A → exc bool) n (l : list A) :
  find_exc p l = fmap (M := exc) (fmap (M := option) snd) (find_ref_exc p n l).
Proof.
  revert n. induction l as [|x l IH]; intros n; simpl.
  - reflexivity.
  - destruct (p x) as [[|]|e]; simpl; auto.
Qed.

(** ** Review workflow: transitions *)

Lemma id_is_intro id o : obj_get "id" o = Some (JStr id) → id_is id (JObj o) = true.
Proof.
  unfold id_is, field. intros ->. simpl. apply String.eqb_refl.
Qed.

Lemma decided_other outcome note o k :
  k ≠ "status" → k ≠ "adminNote" → obj_get k (decided outcome note o) = obj_get k o.
Proof.
  intros H1 H2. unfold decided. rewrite !obj_get_set_ne; auto.
Qed.

(** Where the handler writes: the first record carrying [id]. *)
Lemma reviewed_spec `{P : Platform} outcome id note db :
  Forall (λ s, is_obj s = true) db →
  (∃ s, s ∈ db ∧ id_is id s = true) →
  ∃ i o, db !! i = Some (JObj o) ∧
         obj_get "id" o = Some (JStr id) ∧
         (∀ j s, (j < i)%nat → db !! j = Some s → id_is id s = false) ∧
         find_ref_exc (has_id id) 0 db = Ok (Some (i, JObj o)) ∧
         reviewed outcome id note db = <[i := JObj (decided outcome note o)]> db.
Proof.
  intros Hobj Hex.
  destruct (find_ref_exc_found id db 0 Hobj Hex) as (i & o & Hf & Hl & Ho & Hfirst).
  exists i, o. simpl in Hf. unfold reviewed. rewrite Hf. auto.
Qed.

Lemma reviewed_objects `{P : Platform} outcome id note db :
  Forall (λ s, is_obj s = true) db →
  Forall (λ s, is_obj s = true) (reviewed outcome id note db).
Proof.
  intros Hobj. unfold reviewed.
  destruct (find_ref_exc (has_id id) 0 db) as [[[i sub]|]|] eqn:E; auto.
  apply Forall_insert; auto.
  apply find_ref_exc_elem in E.
  rewrite Forall_forall in Hobj. specialize (Hobj sub E).
  destruct sub; try discriminate. reflexivity.
Qed.

Lemma review_handler_found `{P : Platform} outcome id note fs db :
  readDB fs = JArr db →
  Forall (λ s, is_obj s = true) db →
  (∃ s, s ∈ db ∧ id_is id s = true) →
  review_handler outcome id note fs
  = Ok (ok_json, writeDB (JArr (reviewed outcome id note db)) fs).
Proof.
  intros Hdb Hobj Hex.
  destruct (reviewed_spec outcome id note db Hobj Hex) as (i & o & _ & _ & _ & Hf & Hr).
  unfold review_handler. rewrite Hdb. simpl. rewrite Hf. simpl.
  rewrite Hr. reflexivity.
Qed.

Lemma review_handler_absent `{P : Platform} outcome id note fs db :
  readDB fs = JArr db →
  Forall (λ s, is_obj s = true) db →
  (∀ s, s ∈ db → id_is id s = false) →
  review_handler outcome id note fs = Ok (not_found_json, fs).
Proof.
  intros Hdb Hobj Habs. unfold review_handler. rewrite Hdb. simpl.
  rewrite (find_ref_exc_absent id db 0 Hobj Habs). reflexivity.
Qed.

(** A second review of the same identifier lands on the same record. *)
Lemma reviewed_twice `{P : Platform} out1 out2 id n1 n2 db :
  Forall (λ s, is_obj s = true) db →
  (∃ s, s ∈ db ∧ id_is id s = true) →
  ∃ i o, db !! i = Some (JObj o) ∧
         obj_get "id" o = Some (JStr id) ∧
         (∀ j s, (j < i)%nat → db !! j = Some s → id_is id s = false) ∧
         reviewed out2 id n2 (reviewed out1 id n1 db)
         = <[i := JObj (decided out2 n2 (decided out1 n1 o))]> db.
Proof.
  intros Hobj Hex.
  destruct (reviewed_spec out1 id n1 db Hobj Hex) as (i & o & Hl & Ho & Hfirst & _ & Hr).
  exists i, o. repeat split; auto.
  assert (Hi : (i < length db)%nat) by (eapply lookup_lt_Some; eauto).
  assert (Hid1 : id_is id (JObj (decided out1 n1 o)) = true).
  { apply id_is_intro. rewrite decided_other; auto; discriminate. }
  destruct (reviewed_spec out2 id n2 (reviewed out1 id n1 db))
    as (i' & o' & Hl' & Ho' & Hfirst' & _ & Hr').
  { apply reviewed_objects, Hobj. }
  { exists (JObj (decided out1 n1 o)). split; [|exact Hid1].
    rewrite Hr. apply list_elem_of_lookup. exists i.
    apply list_lookup_insert_eq, Hi. }
  rewrite Hr', Hr. rewrite Hr in Hl', Hfirst'.
  destruct (Nat.lt_trichotomy i' i) as [Hlt|[->|Hgt]].
  - rewrite list_lookup_insert_ne in Hl' by lia.
    pose proof (id_is_intro id o' Ho') as Hc.
    rewrite (Hfirst i' (JObj o') Hlt Hl') in Hc. discriminate.
  - rewrite list_lookup_insert_eq in Hl' by exact Hi.
    injection Hl' as <-. apply list_insert_insert_eq.
  - pose proof (Hfirst' i (JObj (decided out1 n1 o)) Hgt
                  (list_lookup_insert_eq _ _ _ Hi)) as Hc.
    rewrite Hid1 in Hc. discriminate.
Qed.

Lemma admin_route_review `{P : Platform} approve id note sess fs :
  isAdmin sess = true →
  admin_route (review_request approve id note) sess fs
  = run_handler fs (review_handler (outcome_of approve) id note fs).
Proof.
  intros Hadm. unfold admin_route, requireAdmin. rewrite Hadm.
  destruct approve; reflexivity.
Qed.

(** C10. A review (approve or reject) of an identifier present in the
    record list succeeds and rewrites the store with a list of the same
    length in which every position but that of the first record carrying
    the identifier is unchanged; in that record [status] and [adminNote]
    are written and every other field ([id], [albumName], [releaseDate],
    [platforms], [numSongs], [cover], [tracks], [createdAt], ...) keeps
    its value; the fields keep their order, and the uploaded assets are
    not touched. *)
Theorem review_changes_only_status_and_note `{P : Platform}
    (approve : bool) (id : string) (note : option json)
    (sess : Session) (fs : Disk) (db : list json) :
  isAdmin sess = true →
  readDB fs = JArr db →
  Forall (λ s, is_obj s = true) db →
  (∃ s, s ∈ db ∧ id_is id s = true) →
  ∃ i o,
    db !! i = Some (JObj o) ∧
    obj_get "id" o = Some (JStr id) ∧
    (∀ j s, (j < i)%nat → db !! j = Some s → id_is id s = false) ∧
    let o' := decided (outcome_of approve) note o in
    let db' := <[i := JObj o']> db in
    admin_route (review_request approve id note) sess fs
    = (ok_json, writeDB (JArr db') fs) ∧
    length db' = length db ∧
    db' !! i = Some (JObj o') ∧
    (∀ j, j ≠ i → db' !! j = db !! j) ∧
    obj_get "status" o' = Some (JStr (outcome_of approve)) ∧
    obj_get "adminNote" o' = Some (js_or note JNull) ∧
    (∀ k, k ≠ "status" → k ≠ "adminNote" → obj_get k o' = obj_get k o) ∧
    (is_Some (obj_get "status" o) → is_Some (obj_get "adminNote" o) →
     o'.*1 = o.*1) ∧
    upload_files (writeDB (JArr db') fs) = upload_files fs ∧
    upload_dirs (writeDB (JArr db') fs) = upload_dirs fs.
Proof.
  intros Hadm Hdb Hobj Hex.
  destruct (reviewed_spec (outcome_of approve) id note db Hobj Hex)
    as (i & o & Hl & Ho & Hfirst & _ & Hr).
  exists i, o. split; [exact Hl|]. split; [exact Ho|]. split; [exact Hfirst|].
  cbn zeta.
  assert (Hi : (i < length db)%nat) by (eapply lookup_lt_Some; eauto).
  split.
  { rewrite admin_route_review by exact Hadm.
    rewrite (review_handler_found _ _ _ _ db Hdb Hobj Hex), Hr. reflexivity. }
  split; [apply length_insert|].
  split; [apply list_lookup_insert_eq, Hi|].
  split; [intros j Hj; apply list_lookup_insert_ne; auto|].
  split.
  { unfold decided. rewrite obj_get_set_ne by discriminate.
    apply obj_get_set_eq. }
  split; [apply obj_get_set_eq|].
  split; [intros k; apply decided_other|].
  split; [|split; reflexivity].
  intros Hs Hn. unfold decided.
  rewrite obj_set_keys by (apply obj_set_is_Some, Hn).
  apply obj_set_keys, Hs.
Qed.

Lemma review_changes_only_status_and_note_witness :
  ∃ i o,
    Demo.two_records !! i = Some (JObj o) ∧
    admin_route (P := Ref.platform)
      (Reject "s1" (Some (JStr "cover too small"))) Demo.admin
      Demo.two_records_disk
    = (ok_json,
       writeDB (P := Ref.platform)
         (JArr (<[i := JObj (decided "rejected" (Some (JStr "cover too small")) o)]>
                  Demo.two_records))
         Demo.two_records_disk) ∧
    obj_get "numSongs" (decided "rejected" (Some (JStr "cover too small")) o)
    = obj_get "numSongs" o.
Proof.
  destruct (review_changes_only_status_and_note (P := Ref.platform)
              false "s1" (Some (JStr "cover too small"))
              Demo.admin Demo.two_records_disk Demo.two_records)
    as (i & o & Hl & _ & _ & Hrun & _ & _ & _ & _ & _ & Hother & _).
  - reflexivity.
  - vm_compute. reflexivity.
  - repeat constructor.
  - exists (Demo.record "s1" "pending"). split; [|reflexivity].
    apply elem_of_cons. left. reflexivity.
  - exists i, o. split; [exact Hl|]. split; [exact Hrun|].
    apply Hother; discriminate.
Defined.

Lemma writeDB_writeDB `{P : Platform} v w fs : writeDB v (writeDB w fs) = writeDB v fs.
Proof. reflexivity. Qed.

Lemma readDB_writeDB `{P : Platform} v fs : roundtrips v → readDB (writeDB v fs) = v.
Proof. unfold roundtrips, readDB. simpl. intros ->. reflexivity. Qed.

(** C6, as the handlers have it.  For an identifier present in the record
    list, two approvals in a row both succeed whatever the prior status
    of the record, and leave it with [status] ["approved"] and with
    [adminNote] the second note when that note is truthy (a non-empty
    string), [null] when the second note is missing or empty; a review of
    an identifier that no record carries answers 404 and leaves the disk
    as it was. *)
Theorem approve_twice_overwrites_note `{P : Platform}
    (id : string) (n1 n2 : option json)
    (sess : Session) (fs : Disk) (db : list json) :
  isAdmin sess = true →
  readDB fs = JArr db →
  Forall (λ s, is_obj s = true) db →
  ((∃ s, s ∈ db ∧ id_is id s = true) →
   roundtrips (JArr (reviewed "approved" id n1 db)) →
   ∃ i o,
     db !! i = Some (JObj o) ∧
     obj_get "id" o = Some (JStr id) ∧
     (∀ j s, (j < i)%nat → db !! j = Some s → id_is id s = false) ∧
     let fs1 := (admin_route (Approve id n1) sess fs).2 in
     let o2 := decided "approved" n2 (decided "approved" n1 o) in
     let db2 := <[i := JObj o2]> db in
     admin_route (Approve id n1) sess fs = (ok_json, fs1) ∧
     admin_route (Approve id n2) sess fs1 = (ok_json, writeDB (JArr db2) fs) ∧
     db2 !! i = Some (JObj o2) ∧
     obj_get "status" o2 = Some (JStr "approved") ∧
     obj_get "adminNote" o2 = Some (js_or n2 JNull)) ∧
  ((∀ s, s ∈ db → id_is id s = false) →
   ∀ approve note,
     admin_route (review_request approve id note) sess fs = (not_found_json, fs) ∧
     status not_found_json = 404%nat).
Proof.
  intros Hadm Hdb Hobj. split.
  - intros Hex Hrt.
    destruct (reviewed_twice "approved" "approved" id n1 n2 db Hobj Hex)
      as (i & o & Hl & Ho & Hfirst & Hr2).
    exists i, o. split; [exact Hl|]. split; [exact Ho|]. split; [exact Hfirst|].
    cbn zeta.
    assert (Hi : (i < length db)%nat) by (eapply lookup_lt_Some; eauto).
    assert (H1 : admin_route (Approve id n1) sess fs
                 = (ok_json, writeDB (JArr (reviewed "approved" id n1 db)) fs)).
    { rewrite (admin_route_review true id n1 sess fs Hadm).
      simpl outcome_of.
      rewrite (review_handler_found _ _ _ _ db Hdb Hobj Hex). reflexivity. }
    rewrite H1. cbn [snd].
    split; [reflexivity|]. split.
    { rewrite (admin_route_review true id n2 sess _ Hadm). simpl outcome_of.
      rewrite (review_handler_found "approved" id n2 _
                 (reviewed "approved" id n1 db)).
      - rewrite Hr2, writeDB_writeDB. reflexivity.
      - apply readDB_writeDB, Hrt.
      - apply reviewed_objects, Hobj.
      - destruct (reviewed_spec "approved" id n1 db Hobj Hex)
          as (i1 & o1 & Hl1 & Ho1 & _ & _ & Hr1).
        exists (JObj (decided "approved" n1 o1)). split.
        + rewrite Hr1. apply list_elem_of_lookup. exists i1.
          apply list_lookup_insert_eq. eapply lookup_lt_Some; eauto.
        + apply id_is_intro. rewrite decided_other; auto; discriminate. }
    split; [apply list_lookup_insert_eq, Hi|].
    split.
    + unfold decided at 1. rewrite obj_get_set_ne by discriminate.
      apply obj_get_set_eq.
    + apply obj_get_set_eq.
  - intros Habs approve note. split; [|reflexivity].
    rewrite (admin_route_review approve id note sess fs Hadm).
    rewrite (review_handler_absent _ _ _ _ db Hdb Hobj Habs). reflexivity.
Qed.

Lemma approve_twice_overwrites_note_witness :
  ∃ i o,
    Demo.two_records !! i = Some (JObj o) ∧
    obj_get "status" o = Some (JStr "rejected") ∧
    admin_route (P := Ref.platform) (Approve "s2" (Some (JStr "second")))
      Demo.admin
      (admin_route (P := Ref.platform) (Approve "s2" (Some (JStr "first")))
         Demo.admin Demo.two_records_disk).2
    = (ok_json,
       writeDB (P := Ref.platform)
         (JArr (<[i := JObj (decided "approved" (Some (JStr "second"))
                               (decided "approved" (Some (JStr "first")) o))]>
                  Demo.two_records))
         Demo.two_records_disk) ∧
    obj_get "adminNote"
      (decided "approved" (Some (JStr "second"))
         (decided "approved" (Some (JStr "first")) o))
    = Some (JStr "second").
Proof.
  destruct (approve_twice_overwrites_note (P := Ref.platform)
              "s2" (Some (JStr "first")) (Some (JStr "second"))
              Demo.admin Demo.two_records_disk Demo.two_records) as [Hpresent _].
  - reflexivity.
  - vm_compute. reflexivity.
  - repeat constructor.
  - destruct Hpresent as (i & o & Hl & Ho & Hfirst & _ & H2 & _ & _ & Hnote).
    + exists (Demo.record "s2" "rejected"). split; [|reflexivity].
      apply elem_of_cons. right. apply elem_of_cons. left. reflexivity.
    + vm_compute. reflexivity.
    + exists i, o. split; [exact Hl|]. split.
      * destruct i as [|[|i]]; simpl in Hl.
        -- injection Hl as <-. discriminate Ho.
        -- injection Hl as <-. reflexivity.
        -- discriminate Hl.
      * split; [exact H2|exact Hnote].
Defined.

(** C6 as stated fails when the second note is the empty string: the
    record is left with [adminNote] [null], not with the note. *)
Lemma approve_twice_empty_note_counterexample :
  ∃ db r,
    readDB (P := Ref.platform)
      (Demo.after_two_approvals (Some (JStr "first")) (Some (JStr ""))) = JArr db ∧
    db !! 1%nat = Some r ∧
    field "id" r = Some (JStr "s2") ∧
    field "status" r = Some (JStr "approved") ∧
    field "adminNote" r = Some JNull ∧
    field "adminNote" r ≠ Some (JStr "").
Proof.
  eexists _, _. split; [vm_compute; reflexivity|].
  split; [reflexivity|].
  repeat split; discriminate.
Qed.

(** ** Asset placement *)

Lemma storage_handle_spec `{P : Platform} subId earlier p fs :
  storage_handle subId earlier p fs
  = ({| fieldname := part_field p;
        originalname := part_filename p;
        path := target subId p |},
     write_file (target subId p)
       (settled (target subId p)
          (part_content
             <$> (filter (λ q, target subId q = target subId p) earlier
                    ++ [p])%list))
       (storage_destination subId fs).2).
Proof. reflexivity. Qed.

Lemma storage_destination_files `{P : Platform} subId fs :
  db_file (storage_destination subId fs).2 = db_file fs ∧
  upload_files (storage_destination subId fs).2 = upload_files fs.
Proof.
  unfold storage_destination. simpl.
  destruct (existsSync fs (path_join UPLOADS_DIR subId)); auto.
Qed.

(** What the middleware loop leaves behind: the record file is not
    touched, nothing is removed, every named part is on the disk, and the
    file objects are the ones the disk storage builds. *)
Lemma store_parts_spec `{P : Platform} subId parts :
  ∀ filesLeft stored earlier fs files fs',
    store_parts subId filesLeft parts stored earlier fs = Some (files, fs') →
    db_file fs' = db_file fs ∧
    (∀ q, is_Some (upload_files fs !! q) → is_Some (upload_files fs' !! q)) ∧
    (∀ p, p ∈ parts → part_filename p ≠ "" →
          is_Some (upload_files fs' !! target subId p)) ∧
    ∃ new, files = (stored ++ new)%list ∧ Forall (placed subId) new.
Proof.
  induction parts as [|p ps IH]; intros filesLeft stored earlier fs files fs' H.
  - simpl in H. injection H as <- <-.
    repeat split; auto.
    + intros p Hp. inversion Hp.
    + exists []. rewrite app_nil_r. auto.
  - cbn [store_parts] in H.
    destruct (String.eqb_spec (part_filename p) "") as [Hempty|Hname].
    + destruct (IH _ _ _ _ _ _ H) as (Hdb & Hkeep & Hparts & Hnew).
      repeat split; auto.
      intros p' Hin Hp'. apply elem_of_cons in Hin as [->|Hin]; [congruence|].
      apply Hparts; auto.
    + destruct (filesLeft !! part_field p) as [[|n]|]; try discriminate.
      rewrite storage_handle_spec in H.
      destruct (storage_destination_files subId fs) as [Hd Hf].
      destruct (IH _ _ _ _ _ _ H) as (Hdb & Hkeep & Hparts & new & -> & Hnew).
      split; [rewrite Hdb; exact Hd|].
      remember (settled (target subId p) _) as content eqn:Econtent.
      clear Econtent.
      assert (Hstep : ∀ q, is_Some (<[target subId p := content]>
                                      (upload_files fs) !! q) →
                           is_Some (upload_files fs' !! q)).
      { intros q Hq. apply Hkeep. cbn [write_file upload_files].
        rewrite Hf. exact Hq. }
      split.
      { intros q Hq. apply Hstep. rewrite lookup_insert_is_Some'. right. exact Hq. }
      split.
      { intros p' Hin Hp'. apply elem_of_cons in Hin as [->|Hin].
        - apply Hstep. rewrite lookup_insert_eq. eauto.
        - apply Hparts; auto. }
      eexists (_ :: new). rewrite <- app_assoc. split; [reflexivity|].
      constructor; [|exact Hnew]. split; [exact Hname|reflexivity].
Qed.

Lemma upload_fields_spec `{P : Platform} subId parts fs files fs' :
  upload_fields subId parts fs = Some (files, fs') →
  db_file fs' = db_file fs ∧
  (∀ p, p ∈ parts → part_filename p ≠ "" →
        is_Some (upload_files fs' !! target subId p)) ∧
  Forall (placed subId) files.
Proof.
  intros H. destruct (store_parts_spec _ _ _ _ _ _ _ _ H)
    as (Hdb & _ & Hparts & new & -> & Hnew).
  auto.
Qed.

Lemma upload_fields_readDB `{P : Platform} subId parts fs files fs' :
  upload_fields subId parts fs = Some (files, fs') → readDB fs' = readDB fs.
Proof.
  intros H. apply upload_fields_spec in H as [Hdb _].
  unfold readDB. rewrite Hdb. reflexivity.
Qed.

Lemma files_of_placed `{P : Platform} subId field files :
  Forall (placed subId) files → Forall (placed subId) (files_of field files).
Proof.
  rewrite !Forall_forall. intros H f Hf. apply H.
  unfold files_of in Hf. apply list_elem_of_filter in Hf. tauto.
Qed.

(** ** Matching tracks to uploads *)

Lemma js_get_obj t k : is_obj t = true → js_get t k = Ok (field k t).
Proof. destruct t; try discriminate. reflexivity. Qed.

Lemma find_exc_pure {A} (p : A → exc bool) (q : A → bool) (l : list A) :
  (∀ x, p x = Ok (q x)) → find_exc p l = Ok (List.find q l).
Proof.
  intros Hp. induction l as [|x l IH]; simpl; [reflexivity|].
  rewrite Hp. simpl. destruct (q x); auto.
Qed.

Lemma mapi_exc_pure {A B} (f : A → nat → exc B) (g : nat → A → B) (l : list A) :
  ∀ n, (∀ x i, x ∈ l → f x i = Ok (g i x)) →
       mapi_exc f n l = Ok (imap (λ i, g (n + i)%nat) l).
Proof.
  induction l as [|x l IH]; intros n Hf; simpl; [reflexivity|].
  rewrite Hf by (apply elem_of_cons; auto). simpl.
  rewrite IH by (intros y i Hy; apply Hf, elem_of_cons; auto). simpl.
  rewrite Nat.add_0_r. do 2 f_equal.
  apply imap_ext. intros i y _. simpl. f_equal. lia.
Qed.

Lemma track_with_file_pure `{P : Platform} U t idx :
  is_obj t = true → track_with_file U t idx = Ok (matched_track U idx t).
Proof.
  intros Ht. unfold track_with_file, matched_track.
  rewrite (find_exc_pure _ (names_track t)).
  - simpl. destruct (List.find (names_track t) U); [reflexivity|].
    destruct (U !! idx); reflexivity.
  - intros f. rewrite (js_get_obj t "fileName" Ht). reflexivity.
Qed.

Lemma tracksWithFiles_pure `{P : Platform} ts U :
  Forall (λ t, is_obj t = true) ts →
  tracksWithFiles (JArr ts) U = Ok (imap (matched_track U) ts).
Proof.
  intros Hobj. unfold tracksWithFiles. simpl.
  rewrite (mapi_exc_pure _ (matched_track U)).
  - reflexivity.
  - intros t i Ht. apply track_with_file_pure.
    rewrite Forall_forall in Hobj. auto.
Qed.

Lemma with_file_file t x y : field "file" (with_file t x y) = Some x.
Proof.
  unfold with_file, field. rewrite obj_get_set_ne by discriminate.
  apply obj_get_set_eq.
Qed.

Lemma with_file_originalFileName t x y :
  field "originalFileName" (with_file t x y) = Some y.
Proof. unfold with_file, field. apply obj_get_set_eq. Qed.

Lemma with_file_other t x y k :
  is_obj t = true → k ≠ "file" → k ≠ "originalFileName" →
  field k (with_file t x y) = field k t.
Proof.
  intros Ht H1 H2. destruct t; try discriminate.
  unfold with_file, field. rewrite !obj_get_set_ne; auto.
Qed.

Lemma names_track_declared t f :
  field "fileName" t = Some (JStr (originalname f)) → names_track t f = true.
Proof.
  unfold names_track. intros ->. simpl.
  destruct (String.eqb_spec (originalname f) "") as [->|]; simpl.
  - reflexivity.
  - apply String.eqb_refl.
Qed.

Lemma names_track_true t f :
  names_track t f = true → originalname f ≠ "" →
  field "fileName" t = Some (JStr (originalname f)).
Proof.
  unfold names_track, js_or. intros H Hne.
  destruct (field "fileName" t) as [v|].
  - destruct (truthy v); apply strict_eq_str_true in H.
    + congruence.
    + congruence.
  - apply strict_eq_str_true in H. congruence.
Qed.

(** A track that names an upload gets that upload, wherever it stands in
    the upload list. *)
Lemma matched_track_by_name `{P : Platform} subId U i t f :
  Forall (placed subId) U → f ∈ U →
  field "fileName" t = Some (JStr (originalname f)) →
  matched_track U i t = with_file t (file_ref f) (JStr (originalname f)).
Proof.
  intros Hpl Hin Hname. unfold matched_track.
  rewrite Forall_forall in Hpl.
  destruct (List.find (names_track t) U) as [f'|] eqn:E.
  - apply find_some in E as [Hin' Hn'].
    apply list_elem_of_In in Hin'.
    destruct (Hpl f' Hin') as [Hne' Hpath'].
    destruct (Hpl f Hin) as [_ Hpath].
    apply names_track_true in Hn'; [|exact Hne'].
    assert (Heq : originalname f' = originalname f) by congruence.
    unfold file_ref. rewrite Hpath', Hpath, Heq. reflexivity.
  - exfalso. pose proof (find_none _ _ E f) as Hnone.
    rewrite names_track_declared in Hnone by exact Hname.
    apply list_elem_of_In in Hin. specialize (Hnone Hin). discriminate.
Qed.

(** A track that names no upload gets the upload at its own position in
    the full upload list, if there is one. *)
Lemma matched_track_by_position `{P : Platform} subId U i t :
  Forall (placed subId) U →
  (∀ f, f ∈ U → field "fileName" t ≠ Some (JStr (originalname f))) →
  matched_track U i t
  = match U !! i with
    | Some f => with_file t (file_ref f) (JStr (originalname f))
    | None => with_file t JNull JNull
    end.
Proof.
  intros Hpl Hno. unfold matched_track.
  rewrite Forall_forall in Hpl.
  destruct (List.find (names_track t) U) as [f'|] eqn:E; [|reflexivity].
  exfalso. apply find_some in E as [Hin' Hn'].
  apply list_elem_of_In in Hin'.
  apply (Hno f' Hin'). apply names_track_true; [exact Hn'|].
  apply (Hpl f' Hin').
Qed.

(** ** The submit handler on well-formed metadata *)

Lemma submit_handler_ok `{P : Platform} subId now body files fs ts db :
  JSON_parse (str_or (body !! "tracks") "[]") = Some (JArr ts) →
  Forall (λ t, is_obj t = true) ts →
  readDB fs = JArr db →
  submit_handler subId now body files fs
  = (accepted subId,
     writeDB (JArr (db ++ [ingested subId now body files ts])) fs).
Proof.
  intros Hparse Hobj Hdb. unfold submit_handler, assemble_and_save.
  rewrite Hparse. cbn zeta.
  rewrite (tracksWithFiles_pure ts _ Hobj). simpl.
  rewrite Hdb. reflexivity.
Qed.

Lemma post_submit_ok `{P : Platform} req subId now fs files fs1 ts db :
  upload_fields subId (req_parts req) fs = Some (files, fs1) →
  JSON_parse (str_or (req_body req !! "tracks") "[]") = Some (JArr ts) →
  Forall (λ t, is_obj t = true) ts →
  readDB fs = JArr db →
  post_submit req subId now fs
  = Some (accepted subId,
          writeDB (JArr (db ++ [ingested subId now (req_body req) files ts]))
            fs1).
Proof.
  intros Hup Hparse Hobj Hdb. unfold post_submit. rewrite Hup. simpl.
  rewrite (submit_handler_ok subId now _ files fs1 ts db); auto.
  rewrite (upload_fields_readDB _ _ _ _ _ Hup). exact Hdb.
Qed.

Lemma ingested_tracks `{P : Platform} subId now body files ts :
  field "tracks" (ingested subId now body files ts)
  = Some (JArr (imap (matched_track (files_of "trackFiles" files)) ts)).
Proof. reflexivity. Qed.

(** C1, as the handler has it.  An ingestion whose declared tracks are
    objects succeeds (status 200) whatever the uploads are, and the stored
    record has one track per declared track, in order, with the declared
    fields kept.  A track whose [fileName] is the original name of an
    upload refers to that upload, wherever the upload stands in the list.
    A track at position [i] that names no upload refers to the [i]-th
    upload of the full upload list (not of a list of unmatched uploads),
    and has [file] and [originalFileName] [null] when the list has no
    [i]-th element. *)
Theorem tracks_matched_by_name_then_position `{P : Platform}
    (req : SubmitRequest) (subId now : string) (fs fs1 : Disk)
    (files : list File) (ts db : list json) :
  upload_fields subId (req_parts req) fs = Some (files, fs1) →
  JSON_parse (str_or (req_body req !! "tracks") "[]") = Some (JArr ts) →
  Forall (λ t, is_obj t = true) ts →
  readDB fs = JArr db →
  let U := files_of "trackFiles" files in
  ∃ sub out,
    post_submit req subId now fs
    = Some (accepted subId, writeDB (JArr (db ++ [sub])) fs1) ∧
    status (accepted subId) = 200%nat ∧
    field "tracks" sub = Some (JArr out) ∧
    length out = length ts ∧
    ∀ i t, ts !! i = Some t →
      ∃ r, out !! i = Some r ∧
        (∀ k, k ≠ "file" → k ≠ "originalFileName" → field k r = field k t) ∧
        (∀ f, f ∈ U → field "fileName" t = Some (JStr (originalname f)) →
              field "file" r = Some (file_ref f) ∧
              field "originalFileName" r = Some (JStr (originalname f))) ∧
        ((∀ f, f ∈ U → field "fileName" t ≠ Some (JStr (originalname f))) →
         match U !! i with
         | Some f => field "file" r = Some (file_ref f) ∧
                     field "originalFileName" r = Some (JStr (originalname f))
         | None => field "file" r = Some JNull ∧
                   field "originalFileName" r = Some JNull
         end).
Proof.
  intros Hup Hparse Hobj Hdb U.
  exists (ingested subId now (req_body req) files ts), (imap (matched_track U) ts).
  split; [apply post_submit_ok; auto|].
  split; [reflexivity|]. split; [apply ingested_tracks|].
  split; [apply length_imap|].
  intros i t Ht. exists (matched_track U i t).
  split; [rewrite list_lookup_imap, Ht; reflexivity|].
  assert (Hpl : Forall (placed subId) U).
  { apply files_of_placed. apply (upload_fields_spec _ _ _ _ _ Hup). }
  assert (Hto : is_obj t = true).
  { rewrite Forall_lookup in Hobj. apply (Hobj i t Ht). }
  split; [|split].
  - intros k H1 H2. unfold matched_track.
    destruct (List.find (names_track t) U); [apply with_file_other; auto|].
    destruct (U !! i); apply with_file_other; auto.
  - intros f Hin Hname.
    rewrite (matched_track_by_name subId U i t f Hpl Hin Hname).
    split; [apply with_file_file|apply with_file_originalFileName].
  - intros Hno. rewrite (matched_track_by_position subId U i t Hpl Hno).
    destruct (U !! i);
      (split; [apply with_file_file|apply with_file_originalFileName]).
Qed.

(** ** Decimal numerals *)

Lemma digits_prefix_acc (d : Decimal.uint) (acc : positive) :
  digits_prefix (NilEmpty.string_of_uint d) (Some (Z.pos acc))
  = Some (Z.pos (Pos.of_uint_acc d acc)).
Proof.
  revert acc. induction d; intros acc; cbn [NilEmpty.string_of_uint digits_prefix Pos.of_uint_acc];
    [reflexivity|..];
    (change (digit_val _) with (Some 0) || change (digit_val _) with (Some 1)
     || change (digit_val _) with (Some 2) || change (digit_val _) with (Some 3)
     || change (digit_val _) with (Some 4) || change (digit_val _) with (Some 5)
     || change (digit_val _) with (Some 6) || change (digit_val _) with (Some 7)
     || change (digit_val _) with (Some 8) || change (digit_val _) with (Some 9));
    cbn [default from_option]; rewrite <- IHd; apply (f_equal (digits_prefix _)); apply (f_equal Some); unfold id; lia.
Qed.

Lemma digits_prefix_zero (d : Decimal.uint) :
  digits_prefix (NilEmpty.string_of_uint d) (Some 0)
  = Some (Z.of_N (Pos.of_uint d)).
Proof.
  induction d; cbn [NilEmpty.string_of_uint digits_prefix Pos.of_uint];
    [reflexivity|exact IHd|..]; apply (digits_prefix_acc d).
Qed.

Lemma mathInt10_digit c r :
  is_digit c = true → mathInt10 (String c r) = digits_prefix (String c r) None.
Proof.
  destruct c as [[] [] [] [] [] [] [] []]; try discriminate; reflexivity.
Qed.

Lemma string_of_uint_head d :
  d ≠ Decimal.Nil →
  ∃ c r, NilEmpty.string_of_uint d = String c r ∧ is_digit c = true.
Proof. destruct d; [congruence|..]; intros _; eexists _, _; split; reflexivity. Qed.

Lemma digits_prefix_start c r :
  is_digit c = true →
  digits_prefix (String c r) None = digits_prefix (String c r) (Some 0).
Proof.
  intros H. cbn [digits_prefix]. unfold digit_val.
  unfold is_digit in H. cbn zeta in *. rewrite H. reflexivity.
Qed.

Lemma mathInt10_decimal n : mathInt10 (decimal n) = Some n.
Proof.
  assert (Hpos : ∀ p, digits_prefix (NilZero.string_of_uint (Pos.to_uint p)) None
                      = Some (Z.pos p)
                      ∧ ∃ c r, NilZero.string_of_uint (Pos.to_uint p) = String c r
                               ∧ is_digit c = true).
  { intros p. pose proof (Unsigned.to_uint_nonnil p) as Hnn.
    assert (Hs : NilZero.string_of_uint (Pos.to_uint p)
                 = NilEmpty.string_of_uint (Pos.to_uint p)).
    { unfold NilZero.string_of_uint. destruct (Pos.to_uint p); congruence. }
    destruct (string_of_uint_head _ Hnn) as (c & r & Hcr & Hc).
    rewrite Hs. split; [|eauto].
    rewrite Hcr, (digits_prefix_start c r Hc), <- Hcr.
    rewrite digits_prefix_zero, Unsigned.of_to. reflexivity. }
  destruct n as [|p|p]; unfold decimal; simpl Z.to_int.
  - reflexivity.
  - destruct (Hpos p) as [Hv (c & r & Hcr & Hc)].
    cbn [NilZero.string_of_int]. rewrite Hcr in *.
    rewrite mathInt10_digit by exact Hc. exact Hv.
  - destruct (Hpos p) as [Hv _].
    cbn [NilZero.string_of_int]. unfold mathInt10. cbn [skip_ws is_ws].
    simpl. rewrite Hv. reflexivity.
Qed.

(** Integers up to [2^53] in magnitude are doubles. *)
Lemma to_Number_safe n : Z.abs n ≤ 2 ^ 53 → to_Number n = n.
Proof.
  intros H. unfold to_Number, round_double.
  destruct (Z.ltb_spec (Z.abs n) (2 ^ 53)) as [_|Hge]; [destruct n; simpl; lia|].
  assert (E : Z.abs n = 2 ^ 53) by lia. rewrite E.
  change (Z.min _ infinity) with (2 ^ 53). destruct n; simpl in *; lia.
Qed.

Lemma js_number_safe n : Z.abs n ≤ 2 ^ 53 → js_number n = JNum n.
Proof.
  intros H. unfold js_number.
  destruct (Z.ltb_spec (Z.abs n) infinity) as [_|Hge]; [reflexivity|].
  exfalso. assert (2 ^ 53 < infinity) by (vm_compute; reflexivity). lia.
Qed.

Lemma parseInt10_decimal n : Z.abs n ≤ 2 ^ 53 → parseInt10 (decimal n) = Some n.
Proof.
  intros H. unfold parseInt10. rewrite mathInt10_decimal. cbn.
  rewrite (to_Number_safe n H). reflexivity.
Qed.

Lemma parse_numSongs_decimal n :
  Z.abs n ≤ 2 ^ 53 → parse_numSongs (Some (decimal n)) = n.
Proof.
  intros Hn. unfold parse_numSongs, str_or.
  destruct (String.eqb_spec (decimal n) "") as [He|_].
  - pose proof (mathInt10_decimal n) as H. rewrite He in H. discriminate H.
  - rewrite (parseInt10_decimal n Hn). reflexivity.
Qed.

(** ** Ingestion *)

Lemma tracks_matched_by_name_then_position_witness :
  ∃ sub out r0,
    post_submit (P := Ref.platform) Demo.request_ba "id1" "t0" Demo.empty_disk
    = Some (accepted "id1",
            writeDB (P := Ref.platform) (JArr ([] ++ [sub])%list)
              (Demo.stored Demo.parts_ab).2) ∧
    field "tracks" sub = Some (JArr out) ∧
    length out = 2%nat ∧
    out !! 0%nat = Some r0 ∧
    field "file" r0 = Some (JStr "id1/b.mp3").
Proof.
  destruct (tracks_matched_by_name_then_position (P := Ref.platform)
              Demo.request_ba "id1" "t0" Demo.empty_disk
              (Demo.stored Demo.parts_ab).2 (Demo.stored Demo.parts_ab).1
              Demo.tracks_ba [])
    as (sub & out & Hpost & _ & Htr & Hlen & Hall).
  - vm_compute. reflexivity.
  - vm_compute. reflexivity.
  - repeat constructor.
  - reflexivity.
  - destruct (Hall 0%nat _ eq_refl) as (r0 & Hr0 & _ & Hname & _).
    exists sub, out, r0.
    split; [exact Hpost|]. split; [exact Htr|]. split; [exact Hlen|].
    split; [exact Hr0|].
    apply (Hname Demo.file_b); [|reflexivity].
    apply list_elem_of_lookup. exists 1%nat. vm_compute. reflexivity.
Defined.

(** C1 as stated fails on the positional fallback.  Track 0 names
    [b.mp3]; track 1 names nothing.  The uploads no track names are
    [a.mp3] alone, so that list has no element 1 and the claim leaves
    track 1 without a file; the handler gives it element 1 of the full
    upload list, [b.mp3], which track 0 already has. *)
Lemma positional_fallback_counterexample :
  ∃ out t r f,
    tracksWithFiles (P := Ref.platform) (JArr Demo.tracks_ba) Demo.audio_ab
    = Ok out ∧
    Demo.tracks_ba !! 1%nat = Some t ∧
    existsb (λ u, named_by u t) Demo.audio_ab = false ∧
    unmatched_uploads Demo.tracks_ba Demo.audio_ab !! 1%nat = None ∧
    out !! 1%nat = Some r ∧
    Demo.audio_ab !! 1%nat = Some f ∧
    originalname f = "b.mp3" ∧
    field "file" r = Some (file_ref (P := Ref.platform) f) ∧
    field "file" r ≠ Some JNull.
Proof.
  eexists _, _, _, _.
  split; [vm_compute; reflexivity|].
  split; [reflexivity|].
  split; [vm_compute; reflexivity|].
  split; [vm_compute; reflexivity|].
  split; [reflexivity|].
  split; [vm_compute; reflexivity|].
  split; [reflexivity|].
  split; [vm_compute; reflexivity|].
  vm_compute. discriminate.
Qed.

(** C2, as the handler has it.  A request whose upload is admitted and
    whose [tracks] field parses to a list of objects, on a store that loads
    as a list, is answered with status 200 and the identifier that
    [uuidv4] drew for it.  The record file is rewritten with the loaded list
    followed by one new record, and nothing else on the disk changes: the
    new record's [id] is that identifier, its [status] is ["pending"], its
    [adminNote] is [null], and its [tracks] list is as long as the declared
    list, whatever [numSongs] says.  The identifier is not compared with the
    store: the new record is the only one that carries it exactly when no
    loaded record carries it already. *)
Theorem ingestion_appends_one_pending_record `{P : Platform}
    (req : SubmitRequest) (subId now : string) (fs fs1 : Disk)
    (files : list File) (ts db : list json) :
  upload_fields subId (req_parts req) fs = Some (files, fs1) →
  JSON_parse (str_or (req_body req !! "tracks") "[]") = Some (JArr ts) →
  Forall (λ t, is_obj t = true) ts →
  readDB fs = JArr db →
  ∃ sub out fs2,
    post_submit req subId now fs = Some (accepted subId, fs2) ∧
    status (accepted subId) = 200%nat ∧
    (∃ v, body (accepted subId) = BJson v ∧ field "id" v = Some (JStr subId)) ∧
    db_file fs2 = Some (JSON_stringify (JArr (db ++ [sub])%list) 2) ∧
    upload_files fs2 = upload_files fs1 ∧
    upload_dirs fs2 = upload_dirs fs1 ∧
    length (db ++ [sub])%list = S (length db) ∧
    (∀ j, (j < length db)%nat → (db ++ [sub])%list !! j = db !! j) ∧
    (db ++ [sub])%list !! length db = Some sub ∧
    field "id" sub = Some (JStr subId) ∧
    field "status" sub = Some (JStr "pending") ∧
    field "adminNote" sub = Some JNull ∧
    field "tracks" sub = Some (JArr out) ∧
    length out = length ts ∧
    ((∀ j s, (db ++ [sub])%list !! j = Some s → id_is subId s = true →
             j = length db)
     ↔ (∀ s, s ∈ db → id_is subId s = false)).
Proof.
  intros Hup Hparse Hobj Hdb.
  exists (ingested subId now (req_body req) files ts),
         (imap (matched_track (files_of "trackFiles" files)) ts),
         (writeDB (JArr (db ++ [ingested subId now (req_body req) files ts]))
            fs1).
  split; [apply post_submit_ok; auto|].
  split; [reflexivity|].
  split; [eexists; split; reflexivity|].
  do 3 (split; [reflexivity|]).
  split; [rewrite length_app; simpl; lia|].
  split; [intros j Hj; apply lookup_app_l, Hj|].
  split; [apply list_lookup_middle; reflexivity|].
  do 4 (split; [reflexivity|]).
  split; [apply length_imap|].
  split.
  - intros Hone s Hs. apply list_elem_of_lookup in Hs as [j Hj].
    destruct (id_is subId s) eqn:E; [|reflexivity].
    pose proof (lookup_lt_Some _ _ _ Hj) as Hlt.
    assert (Hat : (db ++ [ingested subId now (req_body req) files ts])%list !! j
                  = Some s) by (rewrite lookup_app_l; auto).
    specialize (Hone j s Hat E). lia.
  - intros Hfresh j s Hj Hs.
    destruct (Nat.lt_trichotomy j (length db)) as [Hlt|[->|Hgt]].
    + rewrite lookup_app_l in Hj by exact Hlt.
      rewrite (Hfresh s) in Hs; [discriminate|].
      apply list_elem_of_lookup. eauto.
    + reflexivity.
    + apply lookup_lt_Some in Hj. rewrite length_app in Hj. simpl in Hj. lia.
Qed.

Lemma ingestion_appends_one_pending_record_witness :
  ∃ sub out fs2,
    post_submit (P := Ref.platform) Demo.request_ba Demo.an_id "t0"
      Demo.empty_disk
    = Some (accepted Demo.an_id, fs2) ∧
    db_file fs2
    = Some (JSON_stringify (Platform := Ref.platform) (JArr [sub]) 2) ∧
    field "id" sub = Some (JStr Demo.an_id) ∧
    field "status" sub = Some (JStr "pending") ∧
    field "adminNote" sub = Some JNull ∧
    field "tracks" sub = Some (JArr out) ∧
    length out = 2%nat.
Proof.
  destruct (ingestion_appends_one_pending_record (P := Ref.platform)
              Demo.request_ba Demo.an_id "t0" Demo.empty_disk
              (default Demo.empty_disk
                 (snd <$> upload_fields (P := Ref.platform) Demo.an_id
                            Demo.parts_ab Demo.empty_disk))
              (default []
                 (fst <$> upload_fields (P := Ref.platform) Demo.an_id
                            Demo.parts_ab Demo.empty_disk))
              Demo.tracks_ba [])
    as (sub & out & fs2 & Hpost & _ & _ & Hfile & _ & _ & _ & _ & _
        & Hid & Hst & Hnote & Htr & Hlen & _).
  - vm_compute. reflexivity.
  - vm_compute. reflexivity.
  - repeat constructor.
  - reflexivity.
  - exists sub, out, fs2.
    split; [exact Hpost|]. split; [exact Hfile|]. auto.
Defined.

(** C2 as stated fails on the freshness of the identifier and on what
    makes a request valid.  When [uuidv4] draws the same identifier for two
    requests, both are answered with it and the store then holds two
    records that carry it, of which a lookup by that identifier serves the
    first.  Metadata that is parseable but no list of objects ([{}], or
    [[null]] sent with audio) is answered with status 500 and no record,
    and so is any request on a store that does not load as a list.  And a
    request with two covers is refused by the upload middleware before the
    handler runs. *)
Lemma ingestion_fresh_identifier_counterexample :
  (∃ r1 r2,
     post_submit (P := Ref.platform) Demo.request_ba Demo.an_id "t0"
       Demo.empty_disk
     = Some (accepted Demo.an_id, Demo.after_first) ∧
     post_submit (P := Ref.platform) Demo.request_second Demo.an_id "t1"
       Demo.after_first
     = Some (accepted Demo.an_id, Demo.after_second) ∧
     readDB (P := Ref.platform) Demo.after_second = JArr [r1; r2] ∧
     field "id" r1 = Some (JStr Demo.an_id) ∧
     field "id" r2 = Some (JStr Demo.an_id) ∧
     field "createdAt" r1 = Some (JStr "t0") ∧
     field "createdAt" r2 = Some (JStr "t1") ∧
     r1 ≠ r2 ∧
     admin_route (P := Ref.platform) (GetSubmission Demo.an_id) Demo.admin
       Demo.after_second
     = (res_json 200 r1, Demo.after_second)) ∧
  (∃ resp fs',
     JSON_parse (Platform := Ref.platform) "{}" = Some (JObj []) ∧
     post_submit (P := Ref.platform) Demo.request_object "id1" "t0"
       Demo.empty_disk = Some (resp, fs') ∧
     status resp = 500%nat ∧
     db_file fs' = None) ∧
  (∃ resp fs',
     JSON_parse (Platform := Ref.platform) "[null]" = Some (JArr [JNull]) ∧
     post_submit (P := Ref.platform) Demo.request_null_track "id1" "t0"
       Demo.empty_disk = Some (resp, fs') ∧
     status resp = 500%nat ∧
     db_file fs' = None) ∧
  (∃ resp fs',
     readDB (P := Ref.platform) (Demo.with_db "{}") = JObj [] ∧
     post_submit (P := Ref.platform) Demo.request_ba "id1" "t0"
       (Demo.with_db "{}") = Some (resp, fs') ∧
     status resp = 500%nat ∧
     db_file fs' = Some "{}") ∧
  post_submit (P := Ref.platform)
    (Demo.request "[]" "0" [Demo.part "cover" "c.png"; Demo.part "cover" "d.png"])
    "id1" "t0" Demo.empty_disk = None.
Proof.
  split; [|split; [|split; [|split]]].
  - eexists _, _.
    split; [vm_compute; reflexivity|].
    split; [vm_compute; reflexivity|].
    split; [vm_compute; reflexivity|].
    do 4 (split; [reflexivity|]).
    split; [discriminate|].
    vm_compute. reflexivity.
  - eexists _, _. split; [vm_compute; reflexivity|].
    split; [vm_compute; reflexivity|].
    split; reflexivity.
  - eexists _, _. split; [vm_compute; reflexivity|].
    split; [vm_compute; reflexivity|].
    split; reflexivity.
  - eexists _, _. split; [vm_compute; reflexivity|].
    split; [vm_compute; reflexivity|].
    split; reflexivity.
  - vm_compute. reflexivity.
Qed.




(** C5, as the handler has it.  The stored [numSongs] is
    [parseInt(field || '0', 10) || 0] as [JSON.stringify] writes it: the
    integer that the field spells after leading white space (an optional
    sign and the longest digit prefix), rounded to the nearest double,
    [null] when that is an infinity, and 0 when the field is missing,
    empty or spells no integer.  A decimal numeral of an integer of
    magnitude at most 2^53 is stored as that integer.  The value does not
    depend on the declared tracks, and a review leaves it as it is. *)
Theorem numSongs_stored_as_parsed `{P : Platform}
    (req : SubmitRequest) (subId now : string) (fs fs1 : Disk)
    (files : list File) (ts db : list json) :
  upload_fields subId (req_parts req) fs = Some (files, fs1) →
  JSON_parse (str_or (req_body req !! "tracks") "[]") = Some (JArr ts) →
  Forall (λ t, is_obj t = true) ts →
  readDB fs = JArr db →
  ∃ o,
    post_submit req subId now fs
    = Some (accepted subId, writeDB (JArr (db ++ [JObj o])%list) fs1) ∧
    obj_get "numSongs" o
    = Some (js_number (parse_numSongs (req_body req !! "numSongs"))) ∧
    (∀ text n, req_body req !! "numSongs" = Some text → text ≠ "" →
               mathInt10 text = Some n →
               obj_get "numSongs" o = Some (js_number (to_Number n))) ∧
    (∀ n, Z.abs n ≤ 2 ^ 53 → req_body req !! "numSongs" = Some (decimal n) →
          obj_get "numSongs" o = Some (JNum n)) ∧
    (req_body req !! "numSongs" = None ∨ req_body req !! "numSongs" = Some "" ∨
     (∃ text, req_body req !! "numSongs" = Some text ∧ mathInt10 text = None) →
     obj_get "numSongs" o = Some (JNum 0)) ∧
    (∀ outcome note,
        obj_get "numSongs" (decided outcome note o) = obj_get "numSongs" o).
Proof.
  intros Hup Hparse Hobj Hdb.
  eexists. split; [apply post_submit_ok; eauto|].
  cbn [obj_get String.eqb Ascii.eqb Bool.eqb].
  split; [reflexivity|].
  split; [|split; [|split]].
  - intros text n Hn Hne Hint. rewrite Hn. unfold parse_numSongs, str_or.
    destruct (String.eqb_spec text ""); [contradiction|].
    unfold parseInt10. rewrite Hint. reflexivity.
  - intros n Hsafe Hn.
    rewrite Hn, (parse_numSongs_decimal n Hsafe), (js_number_safe n Hsafe).
    reflexivity.
  - intros [Hn|[Hn|(text & Hn & Hint)]]; rewrite Hn; [reflexivity..|].
    unfold parse_numSongs, str_or.
    destruct (String.eqb_spec text ""); [reflexivity|].
    unfold parseInt10. rewrite Hint. reflexivity.
  - intros outcome note. apply decided_other; discriminate.
Qed.

Lemma numSongs_stored_as_parsed_witness :
  (∃ o,
     post_submit (P := Ref.platform) Demo.request_ba "id1" "t0" Demo.empty_disk
     = Some (accepted "id1",
             writeDB (P := Ref.platform) (JArr ([] ++ [JObj o])%list)
               (Demo.stored Demo.parts_ab).2) ∧
     obj_get "numSongs" o = Some (JNum 2)) ∧
  (∃ o,
     post_submit (P := Ref.platform) (Demo.request_count "9007199254740993")
       "id1" "t0" Demo.empty_disk
     = Some (accepted "id1",
             writeDB (P := Ref.platform) (JArr ([] ++ [JObj o])%list)
               (Demo.stored Demo.parts_ab).2) ∧
     obj_get "numSongs" o = Some (JNum 9007199254740992)) ∧
  (∃ o,
     post_submit (P := Ref.platform) (Demo.request_count Demo.beyond_doubles)
       "id1" "t0" Demo.empty_disk
     = Some (accepted "id1",
             writeDB (P := Ref.platform) (JArr ([] ++ [JObj o])%list)
               (Demo.stored Demo.parts_ab).2) ∧
     mathInt10 Demo.beyond_doubles = Some (10 ^ 309) ∧
     obj_get "numSongs" o = Some JNull) ∧
  (∃ o,
     post_submit (P := Ref.platform)
       (Demo.request_count (String "160"%char "5")) "id1" "t0" Demo.empty_disk
     = Some (accepted "id1",
             writeDB (P := Ref.platform) (JArr ([] ++ [JObj o])%list)
               (Demo.stored Demo.parts_ab).2) ∧
     obj_get "numSongs" o = Some (JNum 5)).
Proof.
  assert (Hrun : ∀ count,
            ∃ o,
              post_submit (P := Ref.platform) (Demo.request_count count)
                "id1" "t0" Demo.empty_disk
              = Some (accepted "id1",
                      writeDB (P := Ref.platform) (JArr ([] ++ [JObj o])%list)
                        (Demo.stored Demo.parts_ab).2) ∧
              obj_get "numSongs" o
              = Some (js_number (parse_numSongs (Some count))) ∧
              ∀ n, count ≠ "" → mathInt10 count = Some n →
                   obj_get "numSongs" o = Some (js_number (to_Number n))).
  { intros count.
    destruct (numSongs_stored_as_parsed (P := Ref.platform)
                (Demo.request_count count) "id1" "t0" Demo.empty_disk
                (Demo.stored Demo.parts_ab).2 (Demo.stored Demo.parts_ab).1
                Demo.tracks_ba [])
      as (o & Hpost & Hnum & Hint & _).
    - vm_compute. reflexivity.
    - vm_compute. reflexivity.
    - repeat constructor.
    - reflexivity.
    - exists o. split; [exact Hpost|]. split; [exact Hnum|].
      intros n Hne Hn. apply (Hint count n); [reflexivity|exact Hne|exact Hn]. }
  split; [|split; [|split]].
  - destruct (Hrun "2") as (o & Hpost & Hnum & _).
    exists o. split; [exact Hpost|]. rewrite Hnum. reflexivity.
  - destruct (Hrun "9007199254740993") as (o & Hpost & _ & Hint).
    exists o. split; [exact Hpost|].
    rewrite (Hint 9007199254740993); [|discriminate|reflexivity].
    vm_compute. reflexivity.
  - destruct (Hrun Demo.beyond_doubles) as (o & Hpost & _ & Hint).
    exists o. split; [exact Hpost|].
    assert (Hm : mathInt10 Demo.beyond_doubles = Some (10 ^ 309))
      by (vm_compute; reflexivity).
    split; [exact Hm|].
    rewrite (Hint (10 ^ 309)); [|discriminate|exact Hm].
    vm_compute. reflexivity.
  - destruct (Hrun (String "160"%char "5")) as (o & Hpost & _ & Hint).
    exists o. split; [exact Hpost|].
    rewrite (Hint 5); [|discriminate|reflexivity].
    reflexivity.
Defined.

(** C5 as stated fails when the field is not a numeral: the text
    [12abc] is stored as the number 12. *)
Lemma numSongs_verbatim_counterexample :
  ∃ fs' sub,
    post_submit (P := Ref.platform) Demo.request_odd_count "id1" "t0"
      Demo.empty_disk = Some (accepted "id1", fs') ∧
    readDB (P := Ref.platform) fs' = JArr [sub] ∧
    req_body Demo.request_odd_count !! "numSongs" = Some "12abc" ∧
    field "numSongs" sub = Some (JNum 12) ∧
    field "numSongs" sub ≠ Some (JStr "12abc") ∧
    decimal 12 ≠ "12abc".
Proof.
  eexists _, _. split; [vm_compute; reflexivity|].
  split; [vm_compute; reflexivity|].
  split; [vm_compute; reflexivity|].
  split; [reflexivity|].
  split; vm_compute; discriminate.
Qed.

(** ** Archive export *)

Lemma find_exc_found id db i o :
  Forall (λ s, is_obj s = true) db →
  db !! i = Some (JObj o) →
  obj_get "id" o = Some (JStr id) →
  (∀ j s, (j < i)%nat → db !! j = Some s → id_is id s = false) →
  find_exc (has_id id) db = Ok (Some (JObj o)).
Proof.
  intros Hobj Hl Ho Hfirst.
  destruct (find_ref_exc_found id db 0 Hobj) as (i' & o' & Hf & Hl' & Ho' & Hfirst').
  { exists (JObj o). split; [apply list_elem_of_lookup; eauto|].
    apply id_is_intro, Ho. }
  rewrite (find_exc_ref _ 0), Hf. simpl.
  destruct (Nat.lt_trichotomy i' i) as [Hlt|[->|Hgt]].
  - pose proof (Hfirst i' _ Hlt Hl') as Hc.
    rewrite (id_is_intro id o' Ho') in Hc. discriminate.
  - congruence.
  - pose proof (Hfirst' i _ Hgt Hl) as Hc.
    rewrite (id_is_intro id o Ho) in Hc. discriminate.
Qed.

Lemma track_entries_resolvable `{P : Platform} fs t idx :
  track_resolvable fs t = true →
  track_entries fs t idx = Ok [audio_entry_of idx t].
Proof.
  unfold track_resolvable, track_entries, audio_entry_of.
  destruct t; try discriminate. cbn [field js_get].
  destruct (obj_get "file" props) as [[| | |p| |]|]; try discriminate.
  intros H. apply andb_prop in H as [Hp Hex].
  simpl. unfold nonempty in Hp. rewrite Hp. simpl. rewrite Hex.
  reflexivity.
Qed.

Lemma concat_imap_singleton {A B} (g : nat → A → B) (l : list A) :
  concat (imap (λ i x, [g i x]) l) = imap g l.
Proof.
  revert g. induction l as [|x l IH]; intros g; simpl; [reflexivity|].
  f_equal. apply (IH (g ∘ S)).
Qed.

Lemma audio_entries_resolvable `{P : Platform} fs ts :
  Forall (λ t, track_resolvable fs t = true) ts →
  mapi_exc (track_entries fs) 0 ts = Ok (imap (λ i t, [audio_entry_of i t]) ts).
Proof.
  intros Hres. rewrite (mapi_exc_pure _ (λ i t, [audio_entry_of i t])).
  - reflexivity.
  - intros t i Ht. apply track_entries_resolvable.
    rewrite Forall_forall in Hres. auto.
Qed.

(** ** The reference printer and parser agree

    On the reference platform the hypothesis [roundtrips] that some
    theorems make holds for every value the parser can return: printing
    such a value, with any indentation, and parsing the text gives the
    value back. *)

Module RefFacts.
Import Ref.

Lemma json_nested_ind (Q : json → Prop) :
  Q JNull → (∀ b, Q (JBool b)) → (∀ n, Q (JNum n)) → (∀ s, Q (JStr s)) →
  (∀ l, Forall Q l → Q (JArr l)) →
  (∀ o, Forall (λ kv, Q kv.2) o → Q (JObj o)) →
  ∀ v, Q v.
Proof.
  intros Hnull Hbool Hnum Hstr Harr Hobj.
  fix IH 1. intros [| b | n | s | l | o].
  - exact Hnull.
  - apply Hbool.
  - apply Hnum.
  - apply Hstr.
  - apply Harr. induction l as [|x l IHl]; constructor; [apply IH|exact IHl].
  - apply Hobj. induction o as [|[k x] o IHo]; constructor; [apply IH|exact IHo].
Qed.

Lemma wf_arr l : wf (JArr l) ↔ Forall wf l.
Proof.
  induction l as [|x l IH]; simpl.
  - split; [constructor|trivial].
  - rewrite Forall_cons. simpl in IH. rewrite IH. reflexivity.
Qed.

Lemma wf_obj o : wf (JObj o) ↔ NoDup (o.*1) ∧ Forall (λ kv, wf kv.2) o.
Proof.
  simpl. apply and_iff_compat_l.
  induction o as [|[k x] o IH]; simpl.
  - split; [constructor|trivial].
  - rewrite Forall_cons. simpl. rewrite IH. reflexivity.
Qed.

Lemma weight_arr l : weight (JArr l) = S (weight_items l).
Proof. reflexivity. Qed.

Lemma weight_obj o : weight (JObj o) = S (weight_items (o.*2)).
Proof.
  cbn [weight]. f_equal. induction o as [|[k x] o IH]; [reflexivity|].
  rewrite fmap_cons. cbn [weight_items foldr snd].
  unfold weight_items in IH. rewrite <- IH. reflexivity.
Qed.

(** *** White space *)
Lemma skip_blank s t : blank s = true → skip_json_ws (s ++ t) = skip_json_ws t.
Proof.
  induction s as [|c s IH]; simpl; [reflexivity|].
  intros H. apply andb_prop in H as [Hc Hs]. rewrite Hc. auto.
Qed.

Lemma blank_app s t : blank s = true → blank t = true → blank (s ++ t) = true.
Proof.
  induction s as [|c s IH]; simpl; [auto|].
  intros H Ht. apply andb_prop in H as [Hc Hs]. rewrite Hc. simpl. auto.
Qed.

Lemma blank_spaces n : blank (spaces n) = true.
Proof. induction n; simpl; auto. Qed.

Lemma blank_brk gap indent : blank indent = true → blank (brk gap indent) = true.
Proof. unfold brk. destruct (nonempty gap); simpl; auto. Qed.

Lemma parse_value_skip fuel ws s :
  blank ws = true → parse_value fuel (ws ++ s) = parse_value fuel s.
Proof. intros H. destruct fuel; simpl; [reflexivity|]. rewrite skip_blank; auto. Qed.

Lemma parse_members_skip fuel ws s acc :
  blank ws = true → parse_members fuel (ws ++ s) acc = parse_members fuel s acc.
Proof. intros H. destruct fuel; simpl; [reflexivity|]. rewrite skip_blank; auto. Qed.

(** *** String literals *)
Lemma parse_chars_quote_char c r :
  parse_chars (quote_char c ++ r)
  = '(str, rest) ← parse_chars r; Some (String c str, rest).
Proof.
  destruct c as [[] [] [] [] [] [] [] []]; reflexivity.
Qed.

Lemma parse_chars_quote_body s k :
  parse_chars (quote_body s (String dq k)) = Some (s, k).
Proof.
  induction s as [|c s IH]; simpl; [reflexivity|].
  rewrite parse_chars_quote_char, IH. reflexivity.
Qed.

Lemma append_nil_l (k : string) : "" ++ k = k.
Proof. reflexivity. Qed.

Lemma append_cons (c : ascii) (r k : string) : String c r ++ k = String c (r ++ k).
Proof. reflexivity. Qed.

(** *** Integer literals *)
Lemma to_uint_head p d' : Pos.to_uint p ≠ Decimal.D0 d'.
Proof.
  intros E.
  pose proof (Unsigned.to_of (Pos.to_uint p)) as H.
  rewrite Unsigned.of_to in H. change (N.to_uint (N.pos p)) with (Pos.to_uint p) in H.
  rewrite E in H. unfold Decimal.unorm in H.
  destruct (Decimal.nzhead (Decimal.D0 d')) eqn:Hn;
    try (symmetry in H; rewrite <- Hn in H; exact (nzhead_nonzero _ _ H)).
  injection H as ->. exact (Unsigned.to_uint_nonzero p E).
Qed.

Lemma span_digits_uint d k :
  stop k = true →
  span_digits (NilEmpty.string_of_uint d ++ k) = (NilEmpty.string_of_uint d, k).
Proof.
  intros Hk. induction d; try (simpl; rewrite IHd; reflexivity).
  destruct k as [|c k]; [reflexivity|]. simpl in Hk.
  apply andb_prop in Hk as [Hd _]. simpl.
  destruct (is_digit c); [discriminate|reflexivity].
Qed.

Lemma stop_frac k : stop k = true → frac_start k = false.
Proof.
  destruct k as [|c k]; [reflexivity|]. unfold stop.
  intros H. apply andb_prop in H as [_ H]. apply negb_true_iff in H. exact H.
Qed.

Lemma parse_number_digits (sign : string) d k :
  stop k = true →
  d ≠ Decimal.Nil →
  leading_zero (NilEmpty.string_of_uint d) = false →
  (sign = "" ∨ sign = "-") →
  parse_number (sign ++ NilEmpty.string_of_uint d ++ k)
  = d' ← NilZero.int_of_string (sign ++ NilEmpty.string_of_uint d);
    Some (JNum (Z.of_int d'), k).
Proof.
  intros Hk Hd Hlz Hsign. unfold parse_number.
  assert (Hhead : ∃ c r, NilEmpty.string_of_uint d = String c r ∧ is_digit c = true).
  { destruct d; [congruence|..]; eexists _, _; split; reflexivity. }
  destruct Hhead as (c & r & Hcr & Hc).
  assert (Hminus : Ascii.eqb c "-" = false).
  { destruct (Ascii.eqb_spec c "-") as [->|]; [discriminate|reflexivity]. }
  assert (Hne : String.eqb (NilEmpty.string_of_uint d) "" = false).
  { rewrite Hcr. reflexivity. }
  assert (Hs : NilEmpty.string_of_uint d ++ k = String c (r ++ k)).
  { rewrite Hcr. reflexivity. }
  destruct Hsign as [-> | ->].
  - rewrite !append_nil_l, Hs, Hminus, <- Hs.
    rewrite (span_digits_uint d k Hk), Hne, Hlz, (stop_frac k Hk). reflexivity.
  - rewrite !append_cons, !append_nil_l.
    change (Ascii.eqb "-" "-") with true. cbn iota.
    rewrite (span_digits_uint d k Hk), Hne, Hlz, (stop_frac k Hk). reflexivity.
Qed.

Lemma leading_zero_to_uint p :
  leading_zero (NilEmpty.string_of_uint (Pos.to_uint p)) = false.
Proof.
  pose proof (to_uint_head p) as H.
  destruct (Pos.to_uint p) as [|d|d|d|d|d|d|d|d|d|d]; try reflexivity;
    try (destruct d; reflexivity).
  destruct (H d eq_refl).
Qed.

Lemma parse_number_decimal n k :
  stop k = true → parse_number (decimal n ++ k) = Some (JNum n, k).
Proof.
  intros Hk. unfold decimal.
  assert (Hint : NilZero.int_of_string (NilZero.string_of_int (Z.to_int n))
                 = Some (Z.to_int n)).
  { apply NilZero.isi; destruct n; simpl; try discriminate;
      intros [= E]; exact (Unsigned.to_uint_nonnil _ E). }
  assert (Hz : Z.of_int (Z.to_int n) = n) by apply DecimalZ.of_to.
  destruct n as [|p|p].
  - simpl in Hk |- *. unfold parse_number. simpl.
    destruct k as [|c k]; [reflexivity|].
    simpl in Hk. apply andb_prop in Hk as [Hd Hf].
    simpl. destruct (is_digit c); [discriminate|].
    simpl. apply negb_true_iff in Hf. simpl in Hf. rewrite Hf. reflexivity.
  - pose proof (Unsigned.to_uint_nonnil p) as Hnn.
    assert (Hs : NilZero.string_of_int (Z.to_int (Z.pos p))
                 = "" ++ NilEmpty.string_of_uint (Pos.to_uint p)).
    { cbn [Z.to_int NilZero.string_of_int]. unfold NilZero.string_of_uint.
      revert Hnn. destruct (Pos.to_uint p); intros Hnn; [congruence|reflexivity..]. }
    rewrite Hs in *.
    change (("" ++ NilEmpty.string_of_uint (Pos.to_uint p)) ++ k)
      with ("" ++ NilEmpty.string_of_uint (Pos.to_uint p) ++ k).
    rewrite (parse_number_digits "" _ k Hk Hnn (leading_zero_to_uint p)) by auto.
    rewrite Hint. simpl in Hz |- *. rewrite Hz. reflexivity.
  - pose proof (Unsigned.to_uint_nonnil p) as Hnn.
    assert (Hs : NilZero.string_of_int (Z.to_int (Z.neg p))
                 = "-" ++ NilEmpty.string_of_uint (Pos.to_uint p)).
    { cbn [Z.to_int NilZero.string_of_int]. unfold NilZero.string_of_uint.
      revert Hnn. destruct (Pos.to_uint p); intros Hnn; [congruence|reflexivity..]. }
    rewrite Hs in *.
    change (("-" ++ NilEmpty.string_of_uint (Pos.to_uint p)) ++ k)
      with ("-" ++ NilEmpty.string_of_uint (Pos.to_uint p) ++ k).
    rewrite (parse_number_digits "-" _ k Hk Hnn (leading_zero_to_uint p)) by auto.
    rewrite Hint. simpl in Hz |- *. rewrite Hz. reflexivity.
Qed.

Lemma decimal_head n :
  ∃ c r, decimal n = String c r ∧ (is_digit c = true ∨ c = "-"%char).
Proof.
  unfold decimal. destruct n as [|p|p]; simpl.
  - eexists _, _. split; [reflexivity|]. left. reflexivity.
  - pose proof (Unsigned.to_uint_nonnil p) as Hnn.
    unfold NilZero.string_of_uint.
    destruct (Pos.to_uint p); [congruence|..];
      eexists _, _; (split; [reflexivity|left; reflexivity]).
  - eexists _, _. split; [reflexivity|]. right. reflexivity.
Qed.

Lemma parse_value_number fuel c r :
  is_digit c = true ∨ c = "-"%char →
  parse_value (S fuel) (String c r) = parse_number (String c r).
Proof.
  intros [H| ->]; [|reflexivity].
  destruct c as [[] [] [] [] [] [] [] []]; try discriminate H; reflexivity.
Qed.

Lemma parse_value_decimal fuel n k :
  stop k = true → parse_value (S fuel) (decimal n ++ k) = Some (JNum n, k).
Proof.
  intros Hk. destruct (decimal_head n) as (c & r & Hcr & Hc).
  rewrite <- (parse_number_decimal n k Hk). rewrite Hcr, append_cons.
  apply parse_value_number, Hc.
Qed.

Lemma append_assoc (a b c : string) : (a ++ b) ++ c = a ++ b ++ c.
Proof.
  induction a as [|x a IH]; [reflexivity|].
  rewrite !append_cons. f_equal. exact IH.
Qed.

Lemma digit_head c :
  is_digit c = true ∨ c = "-"%char →
  is_json_ws c = false ∧ Ascii.eqb c "]" = false.
Proof.
  intros [H| ->]; [|split; reflexivity].
  destruct c as [[] [] [] [] [] [] [] []]; try discriminate H; split; reflexivity.
Qed.

Lemma print_head gap indent v k :
  ∃ c r, print_to gap indent v k = String c r ∧
         is_json_ws c = false ∧ Ascii.eqb c "]" = false.
Proof.
  destruct v as [|[]|n|s|[|x l]|[|kv o]];
    try (eexists _, _; split; [reflexivity|split; reflexivity]).
  destruct (decimal_head n) as (c & r & Hcr & Hc).
  exists c, (r ++ k). split; [simpl; rewrite Hcr; reflexivity|].
  apply digit_head, Hc.
Qed.

Lemma skip_head c r : is_json_ws c = false → skip_json_ws (String c r) = String c r.
Proof. intros H. simpl. rewrite H. reflexivity. Qed.

Lemma stop_close gap indent (b : ascii) k :
  is_digit b = false → frac_start (String b k) = false →
  stop ((brk gap indent ++ String b "") ++ k) = true.
Proof.
  intros Hb Hf. unfold brk. destruct (nonempty gap); simpl.
  - reflexivity.
  - rewrite Hb. simpl in Hf. rewrite Hf. reflexivity.
Qed.

Lemma parse_value_arr f r :
  parse_value (S f) (String "[" r)
  = match skip_json_ws r with
    | String c' rest =>
        if Ascii.eqb c' "]" then Some (JArr [], rest) else parse_elems f r []
    | EmptyString => None
    end.
Proof. reflexivity. Qed.

Lemma parse_value_obj f r :
  parse_value (S f) (String "{" r)
  = match skip_json_ws r with
    | String c' rest =>
        if Ascii.eqb c' "}" then Some (JObj [], rest) else parse_members f r []
    | EmptyString => None
    end.
Proof. reflexivity. Qed.

Lemma parse_value_str f r :
  parse_value (S f) (String dq r)
  = '(str, rest) ← parse_chars r; Some (JStr str, rest).
Proof. reflexivity. Qed.

Lemma parse_elems_unfold f s acc :
  parse_elems (S f) s acc
  = '(v, rest) ← parse_value f s;
    match skip_json_ws rest with
    | String c rest' =>
        if Ascii.eqb c "," then parse_elems f rest' (acc ++ [v])
        else if Ascii.eqb c "]" then Some (JArr (acc ++ [v]), rest')
        else None
    | EmptyString => None
    end.
Proof. reflexivity. Qed.

Lemma parse_members_unfold f c r acc :
  is_json_ws c = false →
  parse_members (S f) (String c r) acc
  = if Ascii.eqb c dq then
      '(key, rest) ← parse_chars r;
      match skip_json_ws rest with
      | String c1 rest1 =>
          if Ascii.eqb c1 ":" then
            '(v, rest2) ← parse_value f rest1;
            match skip_json_ws rest2 with
            | String c2 rest' =>
                if Ascii.eqb c2 "," then
                  parse_members f rest' (obj_set key v acc)
                else if Ascii.eqb c2 "}" then
                  Some (JObj (obj_set key v acc), rest')
                else None
            | EmptyString => None
            end
          else None
      | EmptyString => None
      end
    else None.
Proof. intros H. cbn [parse_members]. rewrite (skip_head c r H). reflexivity. Qed.

Lemma obj_set_fresh key x acc :
  key ∉ acc.*1 → obj_set key x acc = (acc ++ [(key, x)])%list.
Proof.
  induction acc as [|[k' v'] acc IH]; simpl; [reflexivity|].
  intros Hni. rewrite not_elem_of_cons in Hni. destruct Hni as [Hne Hni].
  destruct (String.eqb_spec key k'); [contradiction|].
  rewrite IH; auto.
Qed.

Lemma print_items_one {A} (pr : A → string → string) sep close x k :
  print_items pr sep close [x] k = pr x (close ++ k).
Proof. reflexivity. Qed.

Lemma print_items_more {A} (pr : A → string → string) sep close x y l k :
  print_items pr sep close (x :: y :: l) k
  = pr x (sep ++ print_items pr sep close (y :: l) k).
Proof. reflexivity. Qed.

Lemma sep_cons (c : ascii) (b r : string) :
  (String c "" ++ b) ++ r = String c (b ++ r).
Proof. reflexivity. Qed.

Lemma parse_elems_comma f s acc v r :
  parse_value f s = Some (v, String "," r) →
  parse_elems (S f) s acc = parse_elems f r (acc ++ [v]).
Proof. intros H. rewrite parse_elems_unfold, H. reflexivity. Qed.

Lemma parse_elems_close f s acc v ws k :
  blank ws = true →
  parse_value f s = Some (v, (ws ++ "]") ++ k) →
  parse_elems (S f) s acc = Some (JArr (acc ++ [v]), k).
Proof.
  intros Hws H. rewrite parse_elems_unfold, H. cbn [mbind option_bind].
  rewrite append_assoc, (skip_blank _ _ Hws). reflexivity.
Qed.

Lemma parse_elems_items gap inner indent l :
  Forall reads_back l →
  blank gap = true → blank inner = true → blank indent = true →
  ∀ ws acc fuel k,
    l ≠ [] → blank ws = true → (weight_items l ≤ fuel)%nat →
    parse_elems fuel
      (ws ++ print_items (print_to gap inner) ("," ++ brk gap inner)
               (brk gap indent ++ "]") l k) acc
    = Some (JArr (acc ++ l), k).
Proof.
  intros Hall Hgap Hinner Hindent.
  induction Hall as [|x l Hx Hall IH]; intros ws acc fuel k Hne Hws Hfuel;
    [congruence|].
  cbn [weight_items foldr] in Hfuel.
  destruct fuel as [|f]; [lia|].
  destruct l as [|y l'].
  - rewrite print_items_one.
    apply (parse_elems_close f _ acc x (brk gap indent) k (blank_brk _ _ Hindent)).
    rewrite (parse_value_skip f ws _ Hws).
    apply Hx; auto; try (apply stop_close; reflexivity); lia.
  - rewrite print_items_more, sep_cons.
    rewrite (parse_elems_comma f _ acc x
               (brk gap inner ++ print_items (print_to gap inner)
                  ("," ++ brk gap inner) (brk gap indent ++ "]") (y :: l') k)).
    + rewrite (IH (brk gap inner) (acc ++ [x])%list f k); auto.
      * rewrite <- app_assoc. reflexivity.
      * apply blank_brk, Hinner.
      * fold (weight_items (y :: l')) in Hfuel. lia.
    + rewrite (parse_value_skip f ws _ Hws).
      apply Hx; auto; try reflexivity; lia.
Qed.

Lemma blank_colon_gap gap : blank (colon_gap gap) = true.
Proof. unfold colon_gap. destruct (nonempty gap); reflexivity. Qed.

Lemma parse_members_key f ws key s acc :
  blank ws = true →
  parse_members (S f) (ws ++ quote_to key (":" ++ s)) acc
  = '(v, rest2) ← parse_value f s;
    match skip_json_ws rest2 with
    | String c2 rest' =>
        if Ascii.eqb c2 "," then parse_members f rest' (obj_set key v acc)
        else if Ascii.eqb c2 "}" then Some (JObj (obj_set key v acc), rest')
        else None
    | EmptyString => None
    end.
Proof.
  intros Hws. change (":" ++ s) with (String ":" s).
  rewrite (parse_members_skip (S f) ws _ acc Hws).
  unfold quote_to. rewrite parse_members_unfold by reflexivity.
  change (Ascii.eqb dq dq) with true. cbn iota.
  rewrite parse_chars_quote_body. reflexivity.
Qed.

Lemma parse_members_comma f ws key s acc v r :
  blank ws = true →
  parse_value f s = Some (v, String "," r) →
  parse_members (S f) (ws ++ quote_to key (":" ++ s)) acc
  = parse_members f r (obj_set key v acc).
Proof. intros Hws H. rewrite (parse_members_key f ws key s acc Hws), H. reflexivity. Qed.

Lemma parse_members_close f ws key s acc v ws' k :
  blank ws = true → blank ws' = true →
  parse_value f s = Some (v, (ws' ++ "}") ++ k) →
  parse_members (S f) (ws ++ quote_to key (":" ++ s)) acc
  = Some (JObj (obj_set key v acc), k).
Proof.
  intros Hws Hws' H. rewrite (parse_members_key f ws key s acc Hws), H.
  cbn [mbind option_bind].
  rewrite append_assoc, (skip_blank _ _ Hws'). reflexivity.
Qed.

Lemma parse_members_items gap inner indent o :
  Forall (λ kv, reads_back kv.2) o →
  blank gap = true → blank inner = true → blank indent = true →
  ∀ ws acc fuel k,
    o ≠ [] → blank ws = true → (weight_items (o.*2) ≤ fuel)%nat →
    NoDup (acc.*1 ++ o.*1) →
    parse_members fuel
      (ws ++ print_items (print_member gap inner) ("," ++ brk gap inner)
               (brk gap indent ++ "}") o k) acc
    = Some (JObj (acc ++ o), k).
Proof.
  intros Hall Hgap Hinner Hindent.
  induction Hall as [|[key x] o Hx Hall IH];
    intros ws acc fuel k Hne Hws Hfuel Hnd; [congruence|].
  rewrite fmap_cons in Hfuel. cbn [weight_items foldr snd] in Hfuel.
  destruct fuel as [|f]; [lia|].
  assert (Hfresh : obj_set key x acc = (acc ++ [(key, x)])%list).
  { apply obj_set_fresh. rewrite fmap_cons in Hnd.
    apply NoDup_app in Hnd as (_ & Hdisj & _).
    intros Hin. apply (Hdisj key Hin). apply elem_of_cons. auto. }
  assert (Hnd' : NoDup (((acc ++ [(key, x)])%list).*1 ++ o.*1)).
  { rewrite fmap_app, <- app_assoc. exact Hnd. }
  simpl in Hx.
  destruct o as [|kv' o'].
  - rewrite print_items_one. unfold print_member at 1.
    rewrite (parse_members_close f ws key _ acc x (brk gap indent) k Hws
               (blank_brk _ _ Hindent)).
    + rewrite Hfresh. reflexivity.
    + rewrite (parse_value_skip f _ _ (blank_colon_gap gap)).
      apply Hx; auto; try (apply stop_close; reflexivity); lia.
  - rewrite print_items_more, sep_cons. unfold print_member at 1.
    rewrite (parse_members_comma f ws key _ acc x
               (brk gap inner ++ print_items (print_member gap inner)
                  ("," ++ brk gap inner) (brk gap indent ++ "}") (kv' :: o') k)
               Hws).
    + rewrite Hfresh.
      rewrite (IH (brk gap inner) (acc ++ [(key, x)])%list f k); auto.
      * rewrite <- app_assoc. reflexivity.
      * apply blank_brk, Hinner.
      * fold (weight_items ((kv' :: o').*2)) in Hfuel. lia.
    + rewrite (parse_value_skip f _ _ (blank_colon_gap gap)).
      apply Hx; auto; try reflexivity; lia.
Qed.

Lemma print_to_obj gap indent kv o k :
  print_to gap indent (JObj (kv :: o)) k
  = String "{" (brk gap (indent ++ gap)
                ++ print_items (print_member gap (indent ++ gap))
                     ("," ++ brk gap (indent ++ gap))
                     (brk gap indent ++ "}") (kv :: o) k).
Proof. reflexivity. Qed.

Lemma print_to_arr gap indent x l k :
  print_to gap indent (JArr (x :: l)) k
  = String "[" (brk gap (indent ++ gap)
                ++ print_items (print_to gap (indent ++ gap))
                     ("," ++ brk gap (indent ++ gap))
                     (brk gap indent ++ "]") (x :: l) k).
Proof. reflexivity. Qed.

Lemma parse_value_arr_items f ws s c r :
  blank ws = true → s = String c r →
  is_json_ws c = false → Ascii.eqb c "]" = false →
  parse_value (S f) (String "[" (ws ++ s)) = parse_elems f (ws ++ s) [].
Proof.
  intros Hws -> Hc Hclose.
  rewrite parse_value_arr, (skip_blank _ _ Hws), (skip_head c r Hc), Hclose.
  reflexivity.
Qed.

Lemma parse_value_obj_items f ws r :
  blank ws = true →
  parse_value (S f) (String "{" (ws ++ String dq r))
  = parse_members f (ws ++ String dq r) [].
Proof.
  intros Hws. rewrite parse_value_obj, (skip_blank _ _ Hws). reflexivity.
Qed.

Lemma print_items_head gap inner sep close x l k :
  ∃ c r, print_items (print_to gap inner) sep close (x :: l) k = String c r ∧
         is_json_ws c = false ∧ Ascii.eqb c "]" = false.
Proof.
  destruct l; [rewrite print_items_one|rewrite print_items_more];
    apply print_head.
Qed.

Lemma print_members_head gap inner sep close kv o k :
  ∃ r, print_items (print_member gap inner) sep close (kv :: o) k = String dq r.
Proof.
  destruct kv as [key x].
  destruct o; [rewrite print_items_one|rewrite print_items_more];
    eexists; reflexivity.
Qed.

Theorem parse_print v : wf v → reads_back v.
Proof.
  induction v as [|b|n|s|l IH|o IH] using json_nested_ind; intros Hwf;
    intros gap indent k fuel Hgap Hindent Hk Hfuel.
  - destruct fuel; [simpl in Hfuel; lia|]. reflexivity.
  - destruct fuel; [simpl in Hfuel; lia|]. destruct b; reflexivity.
  - destruct fuel; [simpl in Hfuel; lia|]. apply parse_value_decimal, Hk.
  - destruct fuel; [simpl in Hfuel; lia|]. cbn [print_to]. unfold quote_to.
    rewrite parse_value_str, parse_chars_quote_body. reflexivity.
  - rewrite weight_arr in Hfuel. destruct fuel as [|f]; [lia|].
    destruct l as [|x l]; [reflexivity|].
    assert (Hinner : blank (indent ++ gap) = true) by (apply blank_app; auto).
    assert (Hall : Forall reads_back (x :: l)).
    { apply wf_arr in Hwf. rewrite Forall_forall in *. auto. }
    rewrite print_to_arr.
    destruct (print_items_head gap (indent ++ gap) ("," ++ brk gap (indent ++ gap))
                (brk gap indent ++ "]") x l k) as (c & r & Hcr & Hc & Hclose).
    rewrite (parse_value_arr_items f _ _ c r (blank_brk gap _ Hinner) Hcr Hc Hclose).
    apply (parse_elems_items gap (indent ++ gap) indent (x :: l) Hall
             Hgap Hinner Hindent (brk gap (indent ++ gap)) [] f k);
      [discriminate|apply blank_brk, Hinner|lia].
  - rewrite weight_obj in Hfuel. destruct fuel as [|f]; [lia|].
    destruct o as [|kv o]; [reflexivity|].
    assert (Hinner : blank (indent ++ gap) = true) by (apply blank_app; auto).
    apply wf_obj in Hwf as [Hnd Hwf].
    assert (Hall : Forall (λ kv, reads_back kv.2) (kv :: o)).
    { rewrite Forall_forall in *. auto. }
    rewrite print_to_obj.
    destruct (print_members_head gap (indent ++ gap) ("," ++ brk gap (indent ++ gap))
                (brk gap indent ++ "}") kv o k) as (r & Hr).
    rewrite Hr, (parse_value_obj_items f _ r (blank_brk gap _ Hinner)), <- Hr.
    apply (parse_members_items gap (indent ++ gap) indent (kv :: o) Hall
             Hgap Hinner Hindent (brk gap (indent ++ gap)) [] f k);
      [discriminate|apply blank_brk, Hinner|lia|exact Hnd].
Qed.

(** *** Fuel *)
Lemma length_append (a b : string) :
  String.length (a ++ b) = (String.length a + String.length b)%nat.
Proof. induction a as [|c a IH]; [reflexivity|]. rewrite append_cons. simpl. lia. Qed.

Lemma length_quote_body s k :
  (String.length k ≤ String.length (quote_body s k))%nat.
Proof.
  induction s as [|c s IH]; simpl; [lia|].
  rewrite length_append. lia.
Qed.

Lemma length_quote_to s k :
  (S (String.length k) ≤ String.length (quote_to s k))%nat.
Proof.
  unfold quote_to. simpl.
  pose proof (length_quote_body s (String dq k)) as H. simpl in H. lia.
Qed.

Lemma length_items_arr gap inner sep close l k :
  Forall long_enough l → l ≠ [] →
  (1 ≤ String.length sep)%nat → (1 ≤ String.length close)%nat →
  (weight_items l + String.length k
   ≤ String.length (print_items (print_to gap inner) sep close l k))%nat.
Proof.
  intros Hall Hne Hsep Hclose.
  induction Hall as [|x l Hx Hall IH]; [congruence|].
  cbn [weight_items foldr]. destruct l as [|y l'].
  - rewrite print_items_one. pose proof (Hx gap inner (close ++ k)) as H.
    rewrite length_append in H. simpl. lia.
  - rewrite print_items_more.
    pose proof (Hx gap inner
                  (sep ++ print_items (print_to gap inner) sep close (y :: l') k))
      as H.
    rewrite length_append in H.
    assert (IH' := IH ltac:(discriminate)).
    fold (weight_items (y :: l')). lia.
Qed.

Lemma length_items_obj gap inner sep close o k :
  Forall (λ kv, long_enough kv.2) o → o ≠ [] →
  (1 ≤ String.length sep)%nat → (1 ≤ String.length close)%nat →
  (weight_items (o.*2) + String.length k
   ≤ String.length (print_items (print_member gap inner) sep close o k))%nat.
Proof.
  intros Hall Hne Hsep Hclose.
  induction Hall as [|[key x] o Hx Hall IH]; [congruence|].
  rewrite fmap_cons. cbn [weight_items foldr snd]. simpl in Hx.
  destruct o as [|kv' o'].
  - rewrite print_items_one. unfold print_member.
    pose proof (length_quote_to key
                  (":" ++ colon_gap gap ++ print_to gap inner x (close ++ k))) as Hq.
    pose proof (Hx gap inner (close ++ k)) as H.
    rewrite !length_append in *. simpl in *. lia.
  - rewrite print_items_more. unfold print_member at 1.
    pose proof (length_quote_to key
                  (":" ++ colon_gap gap
                   ++ print_to gap inner x
                        (sep ++ print_items (print_member gap inner) sep close
                                  (kv' :: o') k))) as Hq.
    pose proof (Hx gap inner
                  (sep ++ print_items (print_member gap inner) sep close
                            (kv' :: o') k)) as H.
    rewrite !length_append in *.
    assert (IH' := IH ltac:(discriminate)).
    fold (weight_items ((kv' :: o').*2)). simpl in *. lia.
Qed.

Lemma length_brk_close gap indent (c : string) :
  (1 ≤ String.length c)%nat → (1 ≤ String.length (brk gap indent ++ c))%nat.
Proof. intros H. rewrite length_append. lia. Qed.

Lemma print_long_enough v : long_enough v.
Proof.
  induction v as [|b|n|s|l IH|o IH] using json_nested_ind; intros gap indent k.
  - cbn [print_to weight]. rewrite length_append. simpl. lia.
  - destruct b; cbn [print_to weight]; rewrite length_append; simpl; lia.
  - cbn [print_to weight]. rewrite length_append.
    destruct (decimal_head n) as (c & r & -> & _). simpl. lia.
  - cbn [print_to weight]. pose proof (length_quote_to s k). lia.
  - destruct l as [|x l];
      [cbn [print_to weight]; rewrite length_append; simpl; lia|].
    rewrite weight_arr, print_to_arr.
    pose proof (length_items_arr gap (indent ++ gap) ("," ++ brk gap (indent ++ gap))
                  (brk gap indent ++ "]") (x :: l) k IH ltac:(discriminate)
                  ltac:(simpl; lia) ltac:(apply length_brk_close; simpl; lia)) as H.
    cbn [String.length]. rewrite length_append. lia.
  - destruct o as [|kv o];
      [cbn [print_to weight]; rewrite length_append; simpl; lia|].
    rewrite weight_obj, print_to_obj.
    pose proof (length_items_obj gap (indent ++ gap) ("," ++ brk gap (indent ++ gap))
                  (brk gap indent ++ "}") (kv :: o) k IH ltac:(discriminate)
                  ltac:(simpl; lia) ltac:(apply length_brk_close; simpl; lia)) as H.
    cbn [String.length]. rewrite length_append. lia.
Qed.

Theorem parse_stringify v space : wf v → parse (stringify v space) = Some v.
Proof.
  intros Hwf. unfold parse, stringify.
  rewrite (parse_print v Hwf); [reflexivity|apply blank_spaces|reflexivity..|].
  pose proof (print_long_enough v (spaces (Nat.min space 10)) "" "") as H.
  simpl in H. lia.
Qed.

(** *** Parsed values are well formed *)
Lemma obj_set_keys_elem k v o x :
  x ∈ (obj_set k v o).*1 → x = k ∨ x ∈ o.*1.
Proof.
  induction o as [|[k' v'] o IH]; cbn [obj_set].
  - rewrite fmap_cons. intros H. apply elem_of_cons in H as [->|H]; [auto|].
    inversion H.
  - destruct (String.eqb k k').
    + rewrite !fmap_cons. auto.
    + rewrite !fmap_cons. intros H. apply elem_of_cons in H as [->|H].
      * right. apply elem_of_cons. auto.
      * destruct (IH H) as [->|Hin]; [auto|]. right. apply elem_of_cons. auto.
Qed.

Lemma obj_set_NoDup k v o : NoDup (o.*1) → NoDup ((obj_set k v o).*1).
Proof.
  induction o as [|[k' v'] o IH]; cbn [obj_set].
  - intros _. repeat constructor. inversion 1.
  - rewrite fmap_cons. intros Hnd. apply NoDup_cons in Hnd as [Hni Hnd].
    destruct (String.eqb_spec k k') as [->|Hne]; rewrite fmap_cons.
    + apply NoDup_cons. auto.
    + apply NoDup_cons. split; [|auto].
      intros Hin. apply obj_set_keys_elem in Hin as [Heq|Hin]; [|auto].
      simpl in Heq. congruence.
Qed.

Lemma obj_set_Forall (Q : json → Prop) k v o :
  Q v → Forall (λ kv, Q kv.2) o → Forall (λ kv, Q kv.2) (obj_set k v o).
Proof.
  intros Hv. induction 1 as [|[k' v'] o Hx Ho IH]; cbn [obj_set].
  - repeat constructor. exact Hv.
  - destruct (String.eqb k k'); constructor; auto.
Qed.

Lemma wf_obj_set k v o : wf (JObj o) → wf v → wf (JObj (obj_set k v o)).
Proof.
  rewrite !wf_obj. intros [Hnd Hall] Hv. split.
  - apply obj_set_NoDup, Hnd.
  - apply obj_set_Forall; auto.
Qed.

Lemma parse_number_wf s v r : parse_number s = Some (v, r) → wf v.
Proof.
  unfold parse_number.
  destruct (match s with
            | EmptyString => _
            | String c r0 => _
            end) as [sign s'].
  destruct (span_digits s') as [ds rest].
  destruct (_ || _); [discriminate|].
  destruct (NilZero.int_of_string _); [|discriminate].
  intros [= <- _]. exact I.
Qed.

Lemma parse_wf fuel :
  (∀ s v r, parse_value fuel s = Some (v, r) → wf v) ∧
  (∀ s acc v r, parse_elems fuel s acc = Some (v, r) → Forall wf acc → wf v) ∧
  (∀ s acc v r, parse_members fuel s acc = Some (v, r) → wf (JObj acc) → wf v).
Proof.
  induction fuel as [|f (IHv & IHe & IHm)]; [repeat split; discriminate|].
  split; [|split].
  - intros s v r. cbn [parse_value].
    destruct (skip_json_ws s) as [|c s']; [discriminate|].
    repeat match goal with
           | |- context [if ?b then _ else _] => destruct b
           | |- context [expect ?w ?x] => destruct (expect w x)
           | |- context [parse_chars ?x] => destruct (parse_chars x) as [[? ?]|]
           | |- context [match skip_json_ws ?x with _ => _ end] =>
               destruct (skip_json_ws x)
           end;
      try discriminate; try (intros [= <- _]; exact I);
      try (intros [= <- _]; apply wf_obj; split; constructor);
      try (intros H; apply (IHe _ _ _ _ H); constructor);
      try (intros H; apply (IHm _ _ _ _ H); apply wf_obj; split; constructor);
      try apply parse_number_wf.
  - intros s acc v r. rewrite parse_elems_unfold.
    destruct (parse_value f s) as [[v0 rest]|] eqn:Hv; [|discriminate].
    cbn [mbind option_bind]. apply IHv in Hv.
    destruct (skip_json_ws rest) as [|c rest']; [discriminate|].
    destruct (Ascii.eqb c ","); [|destruct (Ascii.eqb c "]"); [|discriminate]].
    + intros H Hacc. apply (IHe _ _ _ _ H). apply Forall_app. auto.
    + intros [= <- _] Hacc. apply wf_arr, Forall_app. auto.
  - intros s acc v r. cbn [parse_members].
    destruct (skip_json_ws s) as [|c s']; [discriminate|].
    destruct (Ascii.eqb c dq); [|discriminate].
    destruct (parse_chars s') as [[key rest]|]; [|discriminate].
    cbn [mbind option_bind].
    destruct (skip_json_ws rest) as [|c1 rest1]; [discriminate|].
    destruct (Ascii.eqb c1 ":"); [|discriminate].
    destruct (parse_value f rest1) as [[v0 rest2]|] eqn:Hv; [|discriminate].
    cbn [mbind option_bind]. apply IHv in Hv.
    destruct (skip_json_ws rest2) as [|c2 rest']; [discriminate|].
    destruct (Ascii.eqb c2 ","); [|destruct (Ascii.eqb c2 "}"); [|discriminate]].
    + intros H Hacc. apply (IHm _ _ _ _ H). apply wf_obj_set; auto.
    + intros [= <- _] Hacc. apply wf_obj_set; auto.
Qed.

Theorem parse_wf_value text v : parse text = Some v → wf v.
Proof.
  unfold parse.
  destruct (parse_value (S (String.length text)) text) as [[v0 rest]|] eqn:Hv;
    [|discriminate].
  cbn [mbind option_bind]. destruct (skip_json_ws rest); [|discriminate].
  intros [= <-]. apply (proj1 (parse_wf _) _ _ _ Hv).
Qed.

(** On the reference platform every value that the parser returns, and
    the empty list, is carried through unchanged. *)
Lemma parsed_roundtrips text v :
  parse text = Some v → roundtrips (P := platform) v.
Proof. intros H. apply parse_stringify, (parse_wf_value text v H). Qed.

End RefFacts.

(** * Further properties of the code *)

(** ** The upload middleware: admission, file objects, writes *)

Lemma named_cons_named p ps :
  part_filename p ≠ "" → named (p :: ps) = p :: named ps.
Proof. intros H. unfold named. rewrite filter_cons_True; auto. Qed.

Lemma named_cons_nameless p ps :
  part_filename p = "" → named (p :: ps) = named ps.
Proof. intros H. unfold named. rewrite filter_cons_False; auto. Qed.

Lemma count_field_cons_named g p ps :
  part_filename p ≠ "" →
  count_field g (p :: ps)
  = ((if decide (part_field p = g) then 1 else 0) + count_field g ps)%nat.
Proof.
  intros H. unfold count_field. rewrite (named_cons_named p ps H), filter_cons.
  destruct (decide (part_field p = g)); reflexivity.
Qed.

Lemma store_parts_admits `{P : Platform} subId parts :
  ∀ filesLeft stored earlier fs,
    is_Some (store_parts subId filesLeft parts stored earlier fs) ↔
    ∀ g, (count_field g parts ≤ default 0 (filesLeft !! g))%nat.
Proof.
  induction parts as [|p ps IH]; intros filesLeft stored earlier fs.
  - simpl. split; [intros _ g; unfold count_field; simpl; lia|eauto].
  - cbn [store_parts].
    destruct (String.eqb_spec (part_filename p) "") as [Hempty|Hname].
    + rewrite IH. unfold count_field. rewrite (named_cons_nameless p ps Hempty).
      reflexivity.
    + destruct (filesLeft !! part_field p) as [[|n]|] eqn:E.
      * split; [intros [? ?]; discriminate|].
        intros H. specialize (H (part_field p)).
        rewrite (count_field_cons_named _ p ps Hname), E in H.
        rewrite decide_True in H by reflexivity. simpl in H. lia.
      * rewrite storage_handle_spec, IH. split; intros H g; specialize (H g);
          rewrite (count_field_cons_named _ p ps Hname) in *;
          destruct (decide (part_field p = g)) as [<-|Hne].
        -- rewrite lookup_insert_eq in H. rewrite E. simpl in *. lia.
        -- rewrite lookup_insert_ne in H by exact Hne. exact H.
        -- rewrite lookup_insert_eq. rewrite E in H. simpl in *. lia.
        -- rewrite lookup_insert_ne by exact Hne. exact H.
      * split; [intros [? ?]; discriminate|].
        intros H. specialize (H (part_field p)).
        rewrite (count_field_cons_named _ p ps Hname), E in H.
        rewrite decide_True in H by reflexivity. simpl in H. lia.
Qed.

(** X1. The upload is admitted exactly when the named parts keep to the
    declared fields: at most one [cover], at most 200 [trackFiles], and no
    named part for any other field.  Parts without a file name do not
    count. *)
Theorem upload_fields_admits `{P : Platform}
    (subId : string) (parts : list FilePart) (fs : Disk) :
  is_Some (upload_fields subId parts fs) ↔
  (count_field "cover" parts ≤ 1)%nat ∧
  (count_field "trackFiles" parts ≤ 200)%nat ∧
  ∀ p, p ∈ named parts →
       part_field p = "cover" ∨ part_field p = "trackFiles".
Proof.
  unfold upload_fields. rewrite store_parts_admits. split.
  - intros H. split; [apply (H "cover")|]. split; [apply (H "trackFiles")|].
    intros p Hp.
    destruct (decide (part_field p = "cover")) as [|Hc]; [auto|].
    destruct (decide (part_field p = "trackFiles")) as [|Ht]; [auto|].
    exfalso. specialize (H (part_field p)).
    unfold field_limits in H.
    rewrite lookup_insert_ne, lookup_singleton_ne in H by congruence.
    simpl in H.
    assert (Hin : p ∈ filter (λ q, part_field q = part_field p) (named parts)).
    { apply list_elem_of_filter. auto. }
    unfold count_field in H.
    destruct (filter _ (named parts)); [inversion Hin|simpl in H; lia].
  - intros (Hc & Ht & Hother) g.
    destruct (decide (g = "cover")) as [->|Hgc]; [exact Hc|].
    destruct (decide (g = "trackFiles")) as [->|Hgt]; [exact Ht|].
    unfold count_field.
    destruct (filter (λ p, part_field p = g) (named parts)) as [|p l] eqn:E;
      [simpl; lia|].
    assert (Hin : p ∈ filter (λ p, part_field p = g) (named parts)).
    { rewrite E. apply elem_of_cons. auto. }
    apply list_elem_of_filter in Hin as [Hg Hin].
    destruct (Hother p Hin); congruence.
Qed.

Lemma existsSync_true `{P : Platform} fs p :
  existsSync fs p = true ↔ is_Some (upload_files fs !! p) ∨ p ∈ upload_dirs fs.
Proof. unfold existsSync. apply bool_decide_eq_true. Qed.

Lemma storage_destination_exists `{P : Platform} subId fs :
  existsSync (storage_destination subId fs).2 (path_join UPLOADS_DIR subId) = true.
Proof.
  unfold storage_destination. cbn [snd].
  destruct (existsSync fs (path_join UPLOADS_DIR subId)) eqn:E; [exact E|].
  apply existsSync_true. right. cbn.
  apply elem_of_union_l, elem_of_singleton. reflexivity.
Qed.

Lemma storage_destination_dirs `{P : Platform} subId fs :
  upload_dirs (storage_destination subId fs).2
  = if existsSync fs (path_join UPLOADS_DIR subId) then upload_dirs fs
    else {[path_join UPLOADS_DIR subId]} ∪ upload_dirs fs.
Proof.
  unfold storage_destination. cbn [snd].
  destruct (existsSync fs (path_join UPLOADS_DIR subId)); reflexivity.
Qed.

Lemma write_file_exists `{P : Platform} q content fs p :
  existsSync fs p = true → existsSync (write_file q content fs) p = true.
Proof.
  rewrite !existsSync_true. cbn. intros [H|H]; [left|right; exact H].
  apply lookup_insert_is_Some'. auto.
Qed.

(** The loop of the middleware in closed form. *)
Lemma piped_to_cons_nameless `{P : Platform} subId t p ps :
  part_filename p = "" → piped_to subId t (p :: ps) = piped_to subId t ps.
Proof. intros H. unfold piped_to. rewrite (named_cons_nameless p ps H). reflexivity. Qed.

Lemma piped_to_cons_named `{P : Platform} subId t p ps :
  part_filename p ≠ "" →
  piped_to subId t (p :: ps)
  = if decide (target subId p = t)
    then part_content p :: piped_to subId t ps
    else piped_to subId t ps.
Proof.
  intros H. unfold piped_to. rewrite (named_cons_named p ps H), filter_cons.
  destruct (decide (target subId p = t)); reflexivity.
Qed.

Lemma piped_to_absent `{P : Platform} subId t parts :
  (∀ p, p ∈ named parts → target subId p ≠ t) → piped_to subId t parts = [].
Proof.
  intros H. unfold piped_to.
  destruct (filter _ (named parts)) as [|p l] eqn:E; [reflexivity|].
  assert (Hin : p ∈ filter (λ p, target subId p = t) (named parts))
    by (rewrite E; apply elem_of_cons; auto).
  apply list_elem_of_filter in Hin as [Ht Hin]. destruct (H p Hin Ht).
Qed.

Lemma written_keeps `{P : Platform} subId parts files t :
  is_Some (files !! t) → is_Some (written subId parts files t).
Proof. unfold written. destruct (piped_to subId t parts); eauto. Qed.

Lemma written_other `{P : Platform} subId parts files t :
  (∀ p, p ∈ named parts → target subId p ≠ t) →
  written subId parts files t = files !! t.
Proof. intros H. unfold written. rewrite (piped_to_absent _ _ _ H). reflexivity. Qed.

(** The disk after the middleware loop: at every path the streams opened
    on it, those of [earlier] included, have settled. *)
Lemma store_parts_result `{P : Platform} subId parts :
  ∀ filesLeft stored earlier fs files fs',
    store_parts subId filesLeft parts stored earlier fs = Some (files, fs') →
    files = (stored ++ (file_of subId <$> named parts))%list ∧
    db_file fs' = db_file fs ∧
    (∀ t, upload_files fs' !! t
          = match piped_to subId t parts with
            | [] => upload_files fs !! t
            | contents =>
                Some (settled t
                        ((part_content
                            <$> filter (λ q, target subId q = t) earlier)
                           ++ contents))
            end) ∧
    upload_dirs fs'
    = if bool_decide (named parts = [])
         || existsSync fs (path_join UPLOADS_DIR subId)
      then upload_dirs fs
      else {[path_join UPLOADS_DIR subId]} ∪ upload_dirs fs.
Proof.
  induction parts as [|p ps IH]; intros filesLeft stored earlier fs files fs' H.
  - simpl in H. injection H as <- <-. rewrite app_nil_r. auto.
  - cbn [store_parts] in H.
    destruct (String.eqb_spec (part_filename p) "") as [Hempty|Hname].
    + rewrite (named_cons_nameless p ps Hempty).
      destruct (IH _ _ _ _ _ _ H) as (Hfiles & Hdb & Hat & Hdirs).
      split; [exact Hfiles|]. split; [exact Hdb|]. split; [|exact Hdirs].
      intros t. rewrite (piped_to_cons_nameless _ _ _ _ Hempty). apply Hat.
    + destruct (filesLeft !! part_field p) as [[|n]|]; try discriminate.
      rewrite storage_handle_spec in H.
      destruct (IH _ _ _ _ _ _ H) as (-> & Hdb & Hat & Hdirs).
      destruct (storage_destination_files subId fs) as [Hd Hf].
      rewrite (named_cons_named p ps Hname).
      split; [rewrite fmap_cons, <- app_assoc; reflexivity|].
      split; [rewrite Hdb; exact Hd|].
      split.
      { intros t. rewrite (Hat t), (piped_to_cons_named _ _ _ _ Hname).
        cbn [write_file upload_files]. rewrite Hf, filter_app.
        destruct (decide (target subId p = t)) as [<-|Hne].
        - rewrite filter_cons_True, filter_nil by reflexivity.
          rewrite lookup_insert_eq, !fmap_app.
          destruct (piped_to subId (target subId p) ps) as [|c l];
            [reflexivity|].
          rewrite <- app_assoc. reflexivity.
        - rewrite filter_cons_False, filter_nil by exact Hne.
          rewrite lookup_insert_ne by exact Hne.
          rewrite app_nil_r. reflexivity. }
      rewrite Hdirs.
      rewrite (write_file_exists _ _ _ _ (storage_destination_exists subId fs)).
      rewrite orb_true_r. rewrite bool_decide_eq_false_2 by discriminate.
      cbn [orb]. cbn [write_file upload_dirs].
      apply storage_destination_dirs.
Qed.

(** The disk after an admitted upload. *)
Lemma upload_fields_result `{P : Platform} subId parts fs files fs' :
  upload_fields subId parts fs = Some (files, fs') →
  files = file_of subId <$> named parts ∧
  db_file fs' = db_file fs ∧
  (∀ t, upload_files fs' !! t = written subId parts (upload_files fs) t) ∧
  upload_dirs fs'
  = if bool_decide (named parts = [])
       || existsSync fs (path_join UPLOADS_DIR subId)
    then upload_dirs fs
    else {[path_join UPLOADS_DIR subId]} ∪ upload_dirs fs.
Proof.
  intros H.
  destruct (store_parts_result _ _ _ _ _ _ _ _ H) as (-> & Hdb & Hat & Hdirs).
  split; [reflexivity|]. split; [exact Hdb|]. split; [|exact Hdirs].
  intros t. rewrite (Hat t). unfold written.
  destruct (piped_to subId t parts); reflexivity.
Qed.

Lemma upload_fields_named `{P : Platform} subId parts fs files fs' :
  upload_fields subId parts fs = Some (files, fs') →
  files = file_of subId <$> named parts.
Proof.
  intros H. destruct (upload_fields_result _ _ _ _ _ H) as (-> & _).
  reflexivity.
Qed.

Lemma files_of_file_of `{P : Platform} subId g (l : list FilePart) :
  files_of g (file_of subId <$> l)
  = file_of subId <$> filter (λ p, part_field p = g) l.
Proof.
  unfold files_of. induction l as [|p l IHl]; [reflexivity|].
  rewrite fmap_cons, !filter_cons. cbn [file_of fieldname].
  destruct (decide (part_field p = g)); rewrite IHl; reflexivity.
Qed.

(** X2. When the upload is admitted, the handler receives one file object
    per named part, in arrival order, each carrying the part's field, its
    original name, and the path [UPLOADS_DIR/<subId>/<name>]; so
    [req.files.trackFiles] lists the named [trackFiles] parts in the order
    they were sent. *)
Theorem upload_fields_files `{P : Platform}
    (subId : string) (parts : list FilePart) (fs fs' : Disk)
    (files : list File) :
  upload_fields subId parts fs = Some (files, fs') →
  files = file_of subId <$> named parts ∧
  files_of "trackFiles" files
  = file_of subId <$> filter (λ p, part_field p = "trackFiles") (named parts) ∧
  head (files_of "cover" files)
  = file_of subId <$> head (filter (λ p, part_field p = "cover") (named parts)).
Proof.
  intros H. rewrite (upload_fields_named _ _ _ _ _ H).
  split; [reflexivity|]. rewrite !files_of_file_of. split; [reflexivity|].
  destruct (filter _ (named parts)); reflexivity.
Qed.

Lemma upload_fields_files_witness :
  (Demo.stored Demo.parts_ab).1
  = file_of (P := Ref.platform) "id1" <$> named Demo.parts_ab ∧
  originalname <$> files_of "trackFiles" (Demo.stored Demo.parts_ab).1
  = ["a.mp3"; "b.mp3"].
Proof.
  destruct (upload_fields_files (P := Ref.platform) "id1" Demo.parts_ab
              Demo.empty_disk (Demo.stored Demo.parts_ab).2
              (Demo.stored Demo.parts_ab).1) as (H1 & H2 & _).
  - vm_compute. reflexivity.
  - split; [exact H1|]. rewrite H2. vm_compute. reflexivity.
Defined.

Lemma piped_to_alone `{P : Platform} subId (l1 l2 : list FilePart) p :
  part_filename p ≠ "" →
  (∀ q, q ∈ (l1 ++ l2)%list → part_filename q ≠ "" →
        target subId q ≠ target subId p) →
  piped_to subId (target subId p) (l1 ++ p :: l2) = [part_content p].
Proof.
  intros Hname Halone.
  assert (Hnone : ∀ l, (∀ q, q ∈ l → q ∈ (l1 ++ l2)%list) →
            filter (λ q, target subId q = target subId p) (named l) = []).
  { intros l Hl.
    destruct (filter _ (named l)) as [|q r] eqn:E; [reflexivity|].
    assert (Hin : q ∈ filter (λ q, target subId q = target subId p) (named l))
      by (rewrite E; apply elem_of_cons; auto).
    apply list_elem_of_filter in Hin as [Ht Hin].
    apply list_elem_of_filter in Hin as [Hq Hin].
    destruct (Halone q (Hl q Hin) Hq Ht). }
  unfold piped_to, named.
  rewrite filter_app, filter_cons_True by exact Hname.
  rewrite filter_app, filter_cons_True by reflexivity.
  fold (named l1). fold (named l2).
  rewrite (Hnone l1), (Hnone l2); [reflexivity|..];
    intros q Hq; apply elem_of_app; auto.
Qed.

(** X3. The file of an upload.  After an admitted upload the file at
    the destination of a named part holds exactly that part's content when
    no other named part of the request has the same destination.  Named
    parts that share a destination have their write streams open on one
    file at the same time: a file is there, and what it holds is the
    outcome of those concurrent writes, which the code does not determine
    (it need not be the content of the part that came last). *)
Theorem upload_holds_its_part `{P : Platform}
    (subId : string) (parts : list FilePart) (fs fs' : Disk)
    (files : list File) :
  upload_fields subId parts fs = Some (files, fs') →
  (∀ l1 p l2, parts = (l1 ++ p :: l2)%list → part_filename p ≠ "" →
     (∀ q, q ∈ (l1 ++ l2)%list → part_filename q ≠ "" →
           target subId q ≠ target subId p) →
     upload_files fs' !! target subId p = Some (part_content p)) ∧
  (∀ p, p ∈ named parts → is_Some (upload_files fs' !! target subId p)) ∧
  (∀ t c1 c2 l, piped_to subId t parts = c1 :: c2 :: l →
     upload_files fs' !! t = Some (concurrent_writes t (c1 :: c2 :: l))).
Proof.
  intros H.
  destruct (upload_fields_result _ _ _ _ _ H) as (_ & _ & Hat & _).
  split; [|split].
  - intros l1 p l2 -> Hname Halone.
    rewrite Hat. unfold written.
    rewrite (piped_to_alone _ _ _ _ Hname Halone). reflexivity.
  - intros p Hp. rewrite Hat. unfold written.
    destruct (piped_to subId (target subId p) parts) eqn:E; [|eauto].
    exfalso. unfold piped_to in E. apply fmap_nil_inv in E.
    assert (Hin : p ∈ filter (λ q, target subId q = target subId p)
                        (named parts))
      by (apply list_elem_of_filter; auto).
    rewrite E in Hin. inversion Hin.
  - intros t c1 c2 l Hpiped. rewrite Hat. unfold written.
    rewrite Hpiped. reflexivity.
Qed.

Lemma upload_holds_its_part_witness :
  upload_files (Demo.stored Demo.parts_ab).2
    !! "/srv/app/uploads/id1/a.mp3" = Some "a.mp3" ∧
  upload_files (Demo.stored Demo.parts_racing).2
    !! "/srv/app/uploads/id1/a.mp3"
  = Some (concurrent_writes (Platform := Ref.platform)
            "/srv/app/uploads/id1/a.mp3" ["0123456789"; "abc"]) ∧
  concurrent_writes (Platform := Ref.platform)
    "/srv/app/uploads/id1/a.mp3" ["0123456789"; "abc"] = "abc3456789".
Proof.
  split; [|split; [|reflexivity]].
  - destruct (upload_holds_its_part (P := Ref.platform) "id1" Demo.parts_ab
                Demo.empty_disk (Demo.stored Demo.parts_ab).2
                (Demo.stored Demo.parts_ab).1) as (Halone & _).
    + vm_compute. reflexivity.
    + apply (Halone [Demo.part "cover" "c.png"] (Demo.part "trackFiles" "a.mp3")
               [Demo.part "trackFiles" "b.mp3"]).
      * reflexivity.
      * discriminate.
      * intros q Hq _. cbn in Hq. rewrite !elem_of_cons in Hq.
        destruct Hq as [->|[->|Hq]]; [discriminate..|inversion Hq].
  - destruct (upload_holds_its_part (P := Ref.platform) "id1"
                Demo.parts_racing Demo.empty_disk
                (Demo.stored Demo.parts_racing).2
                (Demo.stored Demo.parts_racing).1) as (_ & _ & Hrace).
    + vm_compute. reflexivity.
    + apply (Hrace "/srv/app/uploads/id1/a.mp3" "0123456789" "abc" []).
      reflexivity.
Defined.

(** X4. The upload leaves the record file alone, removes nothing, and
    changes no path other than the destinations of its own named parts;
    the only directory it can add is the one of the submission. *)
Theorem upload_fields_frame `{P : Platform}
    (subId : string) (parts : list FilePart) (fs fs' : Disk)
    (files : list File) :
  upload_fields subId parts fs = Some (files, fs') →
  db_file fs' = db_file fs ∧
  (∀ t, (∀ p, p ∈ named parts → target subId p ≠ t) →
        upload_files fs' !! t = upload_files fs !! t) ∧
  (∀ t, is_Some (upload_files fs !! t) → is_Some (upload_files fs' !! t)) ∧
  upload_dirs fs ⊆ upload_dirs fs' ∧
  (∀ d, d ∈ upload_dirs fs' →
        d ∈ upload_dirs fs ∨ d = path_join UPLOADS_DIR subId).
Proof.
  intros H.
  destruct (upload_fields_result _ _ _ _ _ H) as (_ & Hdb & Hat & ->).
  split; [exact Hdb|]. split; [|split; [|split]].
  - intros t Ht. rewrite Hat. apply written_other, Ht.
  - intros t Ht. rewrite Hat. apply written_keeps, Ht.
  - destruct (_ || _); [reflexivity|apply union_subseteq_r].
  - intros d. destruct (_ || _); [auto|].
    rewrite elem_of_union, elem_of_singleton. tauto.
Qed.

Lemma upload_fields_frame_witness :
  db_file (Demo.stored Demo.parts_ab).2 = None ∧
  upload_files (Demo.stored Demo.parts_ab).2 !! "/srv/app/uploads/id2/a.mp3"
  = None.
Proof.
  destruct (upload_fields_frame (P := Ref.platform) "id1" Demo.parts_ab
              Demo.empty_disk (Demo.stored Demo.parts_ab).2
              (Demo.stored Demo.parts_ab).1) as (H1 & H2 & _).
  - vm_compute. reflexivity.
  - split; [exact H1|]. rewrite H2; [reflexivity|].
    intros p Hp. apply list_elem_of_filter in Hp as [_ Hp].
    unfold Demo.parts_ab in Hp. rewrite !elem_of_cons in Hp.
    destruct Hp as [->|[->|[->|Hp]]]; [discriminate..|inversion Hp].
Defined.

Lemma upload_dir_exists `{P : Platform} subId parts fs files fs' :
  upload_fields subId parts fs = Some (files, fs') →
  named parts ≠ [] →
  existsSync fs' (path_join UPLOADS_DIR subId) = true.
Proof.
  intros H Hsome.
  destruct (upload_fields_result _ _ _ _ _ H) as (_ & _ & Hf & Hd).
  rewrite bool_decide_eq_false_2 in Hd by exact Hsome.
  cbn [orb] in Hd. apply existsSync_true.
  destruct (existsSync fs (path_join UPLOADS_DIR subId)) eqn:E.
  - apply existsSync_true in E as [E|E].
    + left. rewrite Hf. apply written_keeps, E.
    + right. rewrite Hd. exact E.
  - right. rewrite Hd. apply elem_of_union_l, elem_of_singleton. reflexivity.
Qed.

Lemma upload_nothing `{P : Platform} subId parts fs files fs' :
  upload_fields subId parts fs = Some (files, fs') →
  named parts = [] → files = [] ∧ fs' = fs.
Proof.
  intros H Hnone.
  destruct (upload_fields_result _ _ _ _ _ H) as (Hfiles & Hdb & Hf & Hd).
  rewrite Hnone in Hfiles.
  rewrite bool_decide_eq_true_2 in Hd by exact Hnone.
  split; [exact Hfiles|].
  assert (Hmap : upload_files fs' = upload_files fs).
  { apply map_eq. intros t. rewrite Hf. apply written_other.
    intros p Hp. rewrite Hnone in Hp. inversion Hp. }
  destruct fs', fs. cbn in Hdb, Hmap, Hd. congruence.
Qed.

(** X5. A request without any named file part leaves the disk exactly
    as it was (no directory is made for the submission); with at least one
    named part the directory of the submission exists afterwards. *)
Theorem upload_fields_directory `{P : Platform}
    (subId : string) (parts : list FilePart) (fs fs' : Disk)
    (files : list File) :
  upload_fields subId parts fs = Some (files, fs') →
  (named parts = [] → files = [] ∧ fs' = fs) ∧
  (named parts ≠ [] →
   existsSync fs' (path_join UPLOADS_DIR subId) = true).
Proof.
  intros H. split.
  - apply (upload_nothing _ _ _ _ _ H).
  - apply (upload_dir_exists _ _ _ _ _ H).
Qed.

Lemma upload_fields_directory_witness :
  Demo.stored Demo.parts_nameless = ([], Demo.empty_disk) ∧
  existsSync (Demo.stored Demo.parts_ab).2 "/srv/app/uploads/id1" = true.
Proof.
  split.
  - destruct (upload_fields_directory (P := Ref.platform) "id1"
                Demo.parts_nameless Demo.empty_disk
                (Demo.stored Demo.parts_nameless).2
                (Demo.stored Demo.parts_nameless).1) as [H _].
    + vm_compute. reflexivity.
    + destruct H as [H1 H2]; [reflexivity|].
      rewrite (surjective_pairing (Demo.stored Demo.parts_nameless)).
      rewrite H1, H2. reflexivity.
  - destruct (upload_fields_directory (P := Ref.platform) "id1"
                Demo.parts_ab Demo.empty_disk
                (Demo.stored Demo.parts_ab).2
                (Demo.stored Demo.parts_ab).1) as [_ H].
    + vm_compute. reflexivity.
    + apply H. discriminate.
Defined.

(** ** The submit handler: what it rejects and what it never stores *)

(** X6. Metadata that is JSON but not a list is not reported as invalid
    metadata: the handler fails inside its [try] and answers 500 with a
    generic error body; the record file is left as it was, and the
    uploaded files stay where the middleware put them. *)
Theorem non_list_tracks_internal_error `{P : Platform}
    (req : SubmitRequest) (subId now : string) (fs fs1 : Disk)
    (files : list File) (v : json) :
  upload_fields subId (req_parts req) fs = Some (files, fs1) →
  JSON_parse (str_or (req_body req !! "tracks") "[]") = Some v →
  is_arr v = false →
  post_submit req subId now fs = Some (internal_error, fs1) ∧
  status internal_error = 500%nat ∧
  db_file fs1 = db_file fs.
Proof.
  intros Hup Hparse Hv. split; [|split; [reflexivity|]].
  - unfold post_submit. rewrite Hup. simpl.
    unfold submit_handler, assemble_and_save, tracksWithFiles.
    rewrite Hparse. destruct v; try discriminate; reflexivity.
  - apply (upload_fields_spec _ _ _ _ _ Hup).
Qed.

Lemma non_list_tracks_internal_error_witness :
  post_submit (P := Ref.platform) Demo.request_object "id1" "t0" Demo.empty_disk
  = Some (internal_error, (Demo.stored Demo.parts_ab).2) ∧
  db_file (Demo.stored Demo.parts_ab).2 = None.
Proof.
  destruct (non_list_tracks_internal_error (P := Ref.platform)
              Demo.request_object "id1" "t0" Demo.empty_disk
              (Demo.stored Demo.parts_ab).2 (Demo.stored Demo.parts_ab).1
              (JObj [])) as (H1 & _ & H2).
  - vm_compute. reflexivity.
  - vm_compute. reflexivity.
  - reflexivity.
  - split; [exact H1|exact H2].
Defined.

Lemma mapi_exc_throw {A B} (f : A → nat → exc B) (l1 l2 : list A) x e :
  ∀ n, (∀ y i, y ∈ l1 → ∃ z, f y i = Ok z) →
       f x (n + length l1)%nat = Throw e →
       mapi_exc f n (l1 ++ x :: l2) = Throw e.
Proof.
  induction l1 as [|y l1 IH]; intros n Hok Hx; simpl.
  - rewrite Nat.add_0_r in Hx. rewrite Hx. reflexivity.
  - destruct (Hok y n) as [z Hz]; [apply elem_of_cons; auto|].
    rewrite Hz. simpl.
    rewrite IH; [reflexivity| |].
    + intros y' i Hy'. apply Hok, elem_of_cons. auto.
    + simpl in Hx. rewrite <- Hx. f_equal. lia.
Qed.

(** X7. A [null] among the declared tracks is fatal only when audio was
    uploaded: the handler reads [fileName] of the track while it searches
    the uploads, so with at least one audio upload the request ends in 500
    with the store untouched, and with none the track is stored with
    [file] and [originalFileName] [null] and nothing else. *)
Theorem null_track `{P : Platform}
    (req : SubmitRequest) (subId now : string) (fs fs1 : Disk)
    (files : list File) (l1 l2 : list json) (db : list json) :
  upload_fields subId (req_parts req) fs = Some (files, fs1) →
  JSON_parse (str_or (req_body req !! "tracks") "[]")
  = Some (JArr (l1 ++ JNull :: l2)) →
  Forall (λ t, is_obj t = true) l1 →
  readDB fs = JArr db →
  (files_of "trackFiles" files ≠ [] →
   post_submit req subId now fs = Some (internal_error, fs1) ∧
   db_file fs1 = db_file fs) ∧
  (files_of "trackFiles" files = [] →
   ∃ sub out,
     post_submit req subId now fs
     = Some (accepted subId, writeDB (JArr (db ++ [sub])) fs1) ∧
     field "tracks" sub = Some (JArr out) ∧
     out !! length l1
     = Some (JObj [("file", JNull); ("originalFileName", JNull)])).
Proof.
  intros Hup Hparse H1 Hdb.
  assert (Hdb1 : readDB fs1 = JArr db).
  { rewrite (upload_fields_readDB _ _ _ _ _ Hup). exact Hdb. }
  split.
  - intros Hne. split; [|apply (upload_fields_spec _ _ _ _ _ Hup)].
    unfold post_submit. rewrite Hup. simpl.
    unfold submit_handler, assemble_and_save, tracksWithFiles.
    rewrite Hparse. simpl.
    rewrite (mapi_exc_throw _ l1 l2 JNull TypeError); [reflexivity| |].
    + intros t i Ht. eexists. apply track_with_file_pure.
      rewrite Forall_forall in H1. auto.
    + unfold track_with_file.
      destruct (files_of "trackFiles" files); [congruence|reflexivity].
  - intros Hnone.
    assert (Hmap : ∀ l n,
               mapi_exc (track_with_file []) n l
               = Ok (imap (λ i t, with_file t JNull JNull) l)).
    { induction l as [|t l IH]; intros n; simpl; [reflexivity|].
      rewrite IH. reflexivity. }
    eexists _, _. split; [|split].
    + unfold post_submit. rewrite Hup. simpl.
      unfold submit_handler, assemble_and_save, tracksWithFiles.
      rewrite Hparse, Hnone. simpl. rewrite Hmap. simpl.
      rewrite Hdb1. reflexivity.
    + reflexivity.
    + rewrite list_lookup_imap, list_lookup_middle by reflexivity. reflexivity.
Qed.

Lemma null_track_witness :
  post_submit (P := Ref.platform) Demo.request_null_track "id1" "t0"
    Demo.empty_disk
  = Some (internal_error, (Demo.stored Demo.parts_ab).2) ∧
  ∃ sub out,
    post_submit (P := Ref.platform) Demo.request_null_track_no_audio "id1" "t0"
      Demo.empty_disk
    = Some (accepted "id1",
            writeDB (P := Ref.platform) (JArr ([] ++ [sub])%list)
              (Demo.stored [Demo.part "cover" "c.png"]).2) ∧
    field "tracks" sub = Some (JArr out) ∧
    out !! 0%nat = Some (JObj [("file", JNull); ("originalFileName", JNull)]).
Proof.
  split.
  - destruct (null_track (P := Ref.platform) Demo.request_null_track
                "id1" "t0" Demo.empty_disk (Demo.stored Demo.parts_ab).2
                (Demo.stored Demo.parts_ab).1 [] [] []) as [H _].
    + vm_compute. reflexivity.
    + vm_compute. reflexivity.
    + constructor.
    + vm_compute. reflexivity.
    + apply H. discriminate.
  - destruct (null_track (P := Ref.platform) Demo.request_null_track_no_audio
                "id1" "t0" Demo.empty_disk
                (Demo.stored [Demo.part "cover" "c.png"]).2
                (Demo.stored [Demo.part "cover" "c.png"]).1 [] [] []) as [_ H].
    + vm_compute. reflexivity.
    + vm_compute. reflexivity.
    + constructor.
    + vm_compute. reflexivity.
    + apply H. reflexivity.
Defined.

(** X8. A request without a [tracks] field, or with an empty one, is a
    valid submission with no tracks: the handler parses the text [[]]
    instead. *)
Theorem missing_tracks_field `{P : Platform}
    (req : SubmitRequest) (subId now : string) (fs fs1 : Disk)
    (files : list File) (db : list json) :
  upload_fields subId (req_parts req) fs = Some (files, fs1) →
  JSON_parse "[]" = Some (JArr []) →
  req_body req !! "tracks" = None ∨ req_body req !! "tracks" = Some "" →
  readDB fs = JArr db →
  ∃ sub,
    post_submit req subId now fs
    = Some (accepted subId, writeDB (JArr (db ++ [sub])) fs1) ∧
    field "tracks" sub = Some (JArr []) ∧
    field "status" sub = Some (JStr "pending").
Proof.
  intros Hup Hparse Hfield Hdb.
  exists (ingested subId now (req_body req) files []).
  split; [|split; reflexivity].
  apply post_submit_ok; auto.
  destruct Hfield as [-> | ->]; exact Hparse.
Qed.

Lemma missing_tracks_field_witness :
  ∃ sub,
    post_submit (P := Ref.platform) Demo.request_no_tracks "id1" "t0"
      Demo.empty_disk
    = Some (accepted "id1",
            writeDB (P := Ref.platform) (JArr ([] ++ [sub])%list)
              (Demo.stored Demo.parts_ab).2) ∧
    field "tracks" sub = Some (JArr []).
Proof.
  destruct (missing_tracks_field (P := Ref.platform) Demo.request_no_tracks
              "id1" "t0" Demo.empty_disk (Demo.stored Demo.parts_ab).2
              (Demo.stored Demo.parts_ab).1 []) as (sub & H1 & H2 & _).
  - vm_compute. reflexivity.
  - vm_compute. reflexivity.
  - left. vm_compute. reflexivity.
  - vm_compute. reflexivity.
  - exists sub. split; [exact H1|exact H2].
Defined.

(** X9. The [file] and [originalFileName] of a stored track are chosen
    by the server: whatever properties of those names the client put into
    the metadata, each stored track either has both [null] or refers to
    one of the audio uploads of this very request, by its path relative to
    the uploads root and its original name. *)
Theorem stored_file_is_an_upload `{P : Platform}
    (req : SubmitRequest) (subId now : string) (fs fs1 : Disk)
    (files : list File) (ts db : list json) :
  upload_fields subId (req_parts req) fs = Some (files, fs1) →
  JSON_parse (str_or (req_body req !! "tracks") "[]") = Some (JArr ts) →
  Forall (λ t, is_obj t = true) ts →
  readDB fs = JArr db →
  ∃ sub out,
    post_submit req subId now fs
    = Some (accepted subId, writeDB (JArr (db ++ [sub])) fs1) ∧
    field "tracks" sub = Some (JArr out) ∧
    ∀ r, r ∈ out →
      (field "file" r = Some JNull ∧ field "originalFileName" r = Some JNull) ∨
      ∃ f, f ∈ files_of "trackFiles" files ∧
           field "file" r = Some (file_ref f) ∧
           field "originalFileName" r = Some (JStr (originalname f)).
Proof.
  intros Hup Hparse Hobj Hdb.
  eexists _, _. split; [apply post_submit_ok; eauto|].
  split; [apply ingested_tracks|].
  intros r Hr. apply list_elem_of_lookup in Hr as [i Hr].
  rewrite list_lookup_imap in Hr.
  destruct (ts !! i) as [t|]; [|discriminate]. injection Hr as <-.
  unfold matched_track.
  destruct (List.find _ _) as [f|] eqn:E.
  - right. exists f. apply find_some in E as [Hin _].
    apply list_elem_of_In in Hin.
    split; [exact Hin|]. split; [apply with_file_file|apply with_file_originalFileName].
  - destruct (files_of "trackFiles" files !! i) as [f|] eqn:Ei.
    + right. exists f. split; [apply list_elem_of_lookup; eauto|].
      split; [apply with_file_file|apply with_file_originalFileName].
    + left. split; [apply with_file_file|apply with_file_originalFileName].
Qed.

Lemma stored_file_is_an_upload_witness :
  ∃ sub out,
    post_submit (P := Ref.platform) Demo.request_ba "id1" "t0" Demo.empty_disk
    = Some (accepted "id1",
            writeDB (P := Ref.platform) (JArr ([] ++ [sub])%list)
              (Demo.stored Demo.parts_ab).2) ∧
    field "tracks" sub = Some (JArr out) ∧
    ∀ r, r ∈ out →
      (field "file" r = Some JNull ∧ field "originalFileName" r = Some JNull) ∨
      ∃ f, f ∈ Demo.audio_ab ∧
           field "file" r = Some (file_ref (P := Ref.platform) f) ∧
           field "originalFileName" r = Some (JStr (originalname f)).
Proof.
  apply (stored_file_is_an_upload (P := Ref.platform) Demo.request_ba
           "id1" "t0" Demo.empty_disk (Demo.stored Demo.parts_ab).2
           (Demo.stored Demo.parts_ab).1 Demo.tracks_ba []).
  - vm_compute. reflexivity.
  - vm_compute. reflexivity.
  - repeat constructor.
  - vm_compute. reflexivity.
Defined.

(** ** The admin routes: what they leave alone, and what a review leaves
    behind *)

Lemma obj_set_obj_set_eq k v w o : obj_set k v (obj_set k w o) = obj_set k v o.
Proof.
  induction o as [|[k' x] o IH]; cbn [obj_set].
  - rewrite String.eqb_refl. reflexivity.
  - destruct (String.eqb k k') eqn:E; cbn [obj_set]; rewrite E; [reflexivity|].
    rewrite IH. reflexivity.
Qed.

Lemma obj_set_comm k1 k2 v1 v2 o :
  k1 ≠ k2 → is_Some (obj_get k1 o) →
  obj_set k1 v1 (obj_set k2 v2 o) = obj_set k2 v2 (obj_set k1 v1 o).
Proof.
  intros Hne. induction o as [|[k' x] o IH]; cbn [obj_set obj_get].
  - intros [? ?]; discriminate.
  - destruct (String.eqb_spec k1 k') as [->|H1];
      destruct (String.eqb_spec k2 k') as [->|H2]; try congruence;
      intros Hs; cbn [obj_set].
    + rewrite String.eqb_refl.
      destruct (String.eqb_spec k2 k'); [congruence|reflexivity].
    + rewrite String.eqb_refl.
      destruct (String.eqb_spec k1 k'); [congruence|reflexivity].
    + destruct (String.eqb_spec k1 k'); [congruence|].
      destruct (String.eqb_spec k2 k'); [congruence|].
      rewrite IH by exact Hs. reflexivity.
Qed.

Lemma decided_decided out1 out2 n1 n2 o :
  decided out2 n2 (decided out1 n1 o) = decided out2 n2 o.
Proof.
  unfold decided.
  rewrite (obj_set_comm "status" "adminNote").
  - rewrite obj_set_obj_set_eq, obj_set_obj_set_eq. reflexivity.
  - discriminate.
  - rewrite obj_get_set_eq. eauto.
Qed.

Lemma reviewed_absent `{P : Platform} outcome id note db :
  Forall (λ s, is_obj s = true) db →
  (∀ s, s ∈ db → id_is id s = false) →
  reviewed outcome id note db = db.
Proof.
  intros Hobj Habs. unfold reviewed.
  rewrite (find_ref_exc_absent id db 0 Hobj Habs). reflexivity.
Qed.

Lemma id_present_dec id (db : list json) :
  (∃ s, s ∈ db ∧ id_is id s = true) ∨ (∀ s, s ∈ db → id_is id s = false).
Proof.
  induction db as [|s db [IH|IH]].
  - right. intros s Hs. inversion Hs.
  - left. destruct IH as (x & Hx & Hid). exists x. split; [|exact Hid].
    apply elem_of_cons. auto.
  - destruct (id_is id s) eqn:E.
    + left. exists s. split; [apply elem_of_cons; auto|exact E].
    + right. intros x Hx. apply elem_of_cons in Hx as [->|Hx]; auto.
Qed.

Lemma reviewed_reviewed `{P : Platform} out1 out2 id n1 n2 db :
  Forall (λ s, is_obj s = true) db →
  reviewed out2 id n2 (reviewed out1 id n1 db) = reviewed out2 id n2 db.
Proof.
  intros Hobj. destruct (id_present_dec id db) as [Hex|Habs].
  - destruct (reviewed_twice out1 out2 id n1 n2 db Hobj Hex)
      as (i & o & Hl & Ho & Hfirst & ->).
    destruct (reviewed_spec out2 id n2 db Hobj Hex)
      as (i' & o' & Hl' & Ho' & Hfirst' & _ & ->).
    rewrite decided_decided.
    destruct (Nat.lt_trichotomy i' i) as [Hlt|[->|Hgt]].
    + pose proof (id_is_intro id o' Ho') as Hc.
      rewrite (Hfirst i' (JObj o') Hlt Hl') in Hc. discriminate.
    + congruence.
    + pose proof (id_is_intro id o Ho) as Hc.
      rewrite (Hfirst' i (JObj o) Hgt Hl) in Hc. discriminate.
  - rewrite !(reviewed_absent _ id _ db Hobj Habs). reflexivity.
Qed.

(** X10. The last review wins, whole store: two reviews of one
    identifier in a row, approvals or rejections in any mix, leave exactly
    the record file that the second review alone would have left.  In
    particular a repeated review changes nothing further. *)
Theorem last_review_wins `{P : Platform}
    (a1 a2 : bool) (id : string) (n1 n2 : option json)
    (sess : Session) (fs : Disk) (db : list json) :
  isAdmin sess = true →
  readDB fs = JArr db →
  Forall (λ s, is_obj s = true) db →
  roundtrips (JArr (reviewed (outcome_of a1) id n1 db)) →
  admin_route (review_request a2 id n2) sess
    (admin_route (review_request a1 id n1) sess fs).2
  = admin_route (review_request a2 id n2) sess fs.
Proof.
  intros Hadm Hdb Hobj Hrt.
  rewrite !admin_route_review by exact Hadm.
  destruct (id_present_dec id db) as [Hex|Habs].
  - rewrite (review_handler_found _ id n1 fs db Hdb Hobj Hex).
    rewrite (review_handler_found _ id n2 fs db Hdb Hobj Hex).
    cbn [run_handler snd].
    erewrite review_handler_found.
    + cbn [run_handler]. rewrite writeDB_writeDB, reviewed_reviewed by exact Hobj.
      reflexivity.
    + apply readDB_writeDB, Hrt.
    + apply reviewed_objects, Hobj.
    + destruct (reviewed_spec (outcome_of a1) id n1 db Hobj Hex)
        as (i & o & Hl & Ho & _ & _ & ->).
      exists (JObj (decided (outcome_of a1) n1 o)). split.
      * apply list_elem_of_lookup. exists i. apply list_lookup_insert_eq.
        eapply lookup_lt_Some; eauto.
      * apply id_is_intro. rewrite decided_other; auto; discriminate.
  - rewrite (review_handler_absent _ id n1 fs db Hdb Hobj Habs).
    reflexivity.
Qed.

Lemma last_review_wins_witness :
  admin_route (P := Ref.platform) (Approve "s2" (Some (JStr "fine")))
    Demo.admin
    (admin_route (P := Ref.platform) (Reject "s2" (Some (JStr "too quiet")))
       Demo.admin Demo.two_records_disk).2
  = admin_route (P := Ref.platform) (Approve "s2" (Some (JStr "fine")))
      Demo.admin Demo.two_records_disk.
Proof.
  apply (last_review_wins (P := Ref.platform) false true "s2"
           (Some (JStr "too quiet")) (Some (JStr "fine")) Demo.admin
           Demo.two_records_disk Demo.two_records).
  - reflexivity.
  - vm_compute. reflexivity.
  - repeat constructor.
  - vm_compute. reflexivity.
Defined.

Lemma download_handler_disk `{P : Platform} id fs r fs' :
  download_handler id fs = Ok (r, fs') → fs' = fs.
Proof.
  unfold download_handler.
  destruct (js_array (readDB fs)) as [db|]; [|discriminate]. cbn.
  destruct (find_exc (has_id id) db) as [[s|]|]; cbn; try congruence.
  destruct (js_get s "id") as [sid|]; cbn; [|discriminate].
  destruct (js_string sid) as [d|]; cbn; [|discriminate].
  destruct (existsSync fs (path_join UPLOADS_DIR d)); cbn; [|congruence].
  destruct (js_get s "albumName") as [album|]; cbn; [|discriminate].
  destruct (js_string (js_or_opt album sid)); cbn; [|discriminate].
  destruct (cover_entries s fs); cbn; [|discriminate].
  destruct (js_get s "tracks") as [tracks|]; cbn; [|discriminate].
  destruct (from_option js_array (Throw TypeError) tracks) as [ts|]; cbn;
    [|discriminate].
  destruct (mapi_exc (track_entries fs) 0 ts); cbn; congruence.
Qed.

Lemma get_handler_disk `{P : Platform} id fs r fs' :
  get_handler id fs = Ok (r, fs') → fs' = fs.
Proof.
  unfold get_handler.
  destruct (js_array (readDB fs)) as [db|]; [|discriminate]. cbn.
  destruct (find_exc (has_id id) db) as [[s|]|]; cbn; congruence.
Qed.

Lemma review_handler_disk `{P : Platform} outcome id note fs r fs' :
  review_handler outcome id note fs = Ok (r, fs') →
  fs' = fs ∨ (r = ok_json ∧ ∃ v, fs' = writeDB v fs).
Proof.
  unfold review_handler.
  destruct (js_array (readDB fs)) as [db|]; [|discriminate]. cbn.
  destruct (find_ref_exc (has_id id) 0 db) as [[[i s]|]|]; cbn;
    [|left; congruence|discriminate].
  intros [= <- <-]. right. split; [reflexivity|eauto].
Qed.

(** X11. No admin route touches the uploads, and the record file is
    rewritten by nothing but a review: if the disk differs after a request,
    the session was an admin's, the request was an approval or a
    rejection, and it was answered with [{ok: true}].  Listing, reading,
    the dashboard and the export are read-only, also when they fail. *)
Theorem admin_routes_frame `{P : Platform}
    (r : AdminRequest) (sess : Session) (fs : Disk) :
  upload_files (admin_route r sess fs).2 = upload_files fs ∧
  upload_dirs (admin_route r sess fs).2 = upload_dirs fs ∧
  ((admin_route r sess fs).2 ≠ fs →
   isAdmin sess = true ∧
   (admin_route r sess fs).1 = ok_json ∧
   ∃ approve id note, r = review_request approve id note).
Proof.
  unfold admin_route, requireAdmin.
  destruct (isAdmin sess); [|cbn; repeat split; congruence].
  assert (Hread : ∀ h, (∀ x fs', h = Ok (x, fs') → fs' = fs) →
            upload_files (run_handler fs h).2 = upload_files fs ∧
            upload_dirs (run_handler fs h).2 = upload_dirs fs ∧
            ((run_handler fs h).2 ≠ fs →
             true = true ∧ (run_handler fs h).1 = ok_json ∧
             ∃ approve id note, r = review_request approve id note)).
  { intros [[x fs']|e] Hh; cbn; [|repeat split; congruence].
    rewrite (Hh x fs' eq_refl). repeat split; congruence. }
  assert (Hreview : ∀ a id note, r = review_request a id note →
            ∀ h, (∀ x fs', h = Ok (x, fs') →
                    fs' = fs ∨ (x = ok_json ∧ ∃ v, fs' = writeDB v fs)) →
            upload_files (run_handler fs h).2 = upload_files fs ∧
            upload_dirs (run_handler fs h).2 = upload_dirs fs ∧
            ((run_handler fs h).2 ≠ fs →
             true = true ∧ (run_handler fs h).1 = ok_json ∧
             ∃ approve id note, r = review_request approve id note)).
  { intros a id note Hr [[x fs']|e] Hh; cbn; [|repeat split; congruence].
    destruct (Hh x fs' eq_refl) as [->|(-> & v & ->)].
    - repeat split; congruence.
    - repeat split; eauto. }
  destruct r as [| |id|id note|id note|id].
  - apply Hread. congruence.
  - apply Hread. unfold list_handler. congruence.
  - apply Hread. intros x fs'. apply get_handler_disk.
  - apply (Hreview true id note eq_refl). intros x fs'. apply review_handler_disk.
  - apply (Hreview false id note eq_refl). intros x fs'. apply review_handler_disk.
  - apply Hread. intros x fs'. apply download_handler_disk.
Qed.

Lemma find_exc_absent id db :
  Forall (λ s, is_obj s = true) db →
  (∀ s, s ∈ db → id_is id s = false) →
  find_exc (has_id id) db = Ok None.
Proof.
  intros Hobj Habs.
  rewrite (find_exc_ref _ 0), (find_ref_exc_absent id db 0 Hobj Habs).
  reflexivity.
Qed.

Lemma get_route_found `{P : Platform} id sess fs db i o :
  isAdmin sess = true →
  readDB fs = JArr db →
  Forall (λ s, is_obj s = true) db →
  db !! i = Some (JObj o) →
  obj_get "id" o = Some (JStr id) →
  (∀ j s, (j < i)%nat → db !! j = Some s → id_is id s = false) →
  admin_route (GetSubmission id) sess fs = (res_json 200 (JObj o), fs).
Proof.
  intros Hadm Hdb Hobj Hl Ho Hfirst.
  unfold admin_route, requireAdmin. rewrite Hadm.
  unfold get_handler. rewrite Hdb. cbn.
  rewrite (find_exc_found id db i o Hobj Hl Ho Hfirst). reflexivity.
Qed.

Lemma get_route_absent `{P : Platform} id sess fs db :
  isAdmin sess = true →
  readDB fs = JArr db →
  Forall (λ s, is_obj s = true) db →
  (∀ s, s ∈ db → id_is id s = false) →
  admin_route (GetSubmission id) sess fs = (not_found_json, fs).
Proof.
  intros Hadm Hdb Hobj Habs.
  unfold admin_route, requireAdmin. rewrite Hadm.
  unfold get_handler. rewrite Hdb. cbn.
  rewrite (find_exc_absent id db Hobj Habs). reflexivity.
Qed.

(** X12. Reading one submission: among records that are objects the
    answer is the first record carrying the identifier, whole and as
    stored, and 404 with an error body when no record carries it; the
    disk is the same afterwards. *)
Theorem get_submission_first_or_404 `{P : Platform}
    (id : string) (sess : Session) (fs : Disk) (db : list json) :
  isAdmin sess = true →
  readDB fs = JArr db →
  Forall (λ s, is_obj s = true) db →
  (∀ i o, db !! i = Some (JObj o) →
          obj_get "id" o = Some (JStr id) →
          (∀ j s, (j < i)%nat → db !! j = Some s → id_is id s = false) →
          admin_route (GetSubmission id) sess fs = (res_json 200 (JObj o), fs)) ∧
  ((∀ s, s ∈ db → id_is id s = false) →
   admin_route (GetSubmission id) sess fs = (not_found_json, fs) ∧
   status not_found_json = 404%nat).
Proof.
  intros Hadm Hdb Hobj. split.
  - intros i o. apply get_route_found; assumption.
  - intros Habs. split; [|reflexivity]. eapply get_route_absent; eassumption.
Qed.

Lemma get_submission_first_or_404_witness :
  admin_route (P := Ref.platform) (GetSubmission "s2") Demo.admin
    Demo.two_records_disk
  = (res_json 200 (Demo.record "s2" "rejected"), Demo.two_records_disk) ∧
  admin_route (P := Ref.platform) (GetSubmission "s3") Demo.admin
    Demo.two_records_disk
  = (not_found_json, Demo.two_records_disk).
Proof.
  destruct (get_submission_first_or_404 (P := Ref.platform) "s2" Demo.admin
              Demo.two_records_disk Demo.two_records) as [H _].
  - reflexivity.
  - vm_compute. reflexivity.
  - repeat constructor.
  - destruct (get_submission_first_or_404 (P := Ref.platform) "s3" Demo.admin
                Demo.two_records_disk Demo.two_records) as [_ H'].
    + reflexivity.
    + vm_compute. reflexivity.
    + repeat constructor.
    + split.
      * apply (H 1%nat); [reflexivity|reflexivity|].
        intros [|j] s Hj Hs; [|lia]. injection Hs as <-. reflexivity.
      * apply H'. intros s Hs. unfold Demo.two_records in Hs.
        rewrite !elem_of_cons in Hs.
        destruct Hs as [->|[->|Hs]]; [reflexivity..|inversion Hs].
Defined.

(** ** Submission, review and reading composed *)

Lemma ingested_obj `{P : Platform} subId now body files ts :
  ∃ o, ingested subId now body files ts = JObj o ∧
       obj_get "id" o = Some (JStr subId).
Proof. eexists. split; reflexivity. Qed.

(** X13. What was submitted is what the reviewer sees: after an accepted
    submission under a fresh identifier, reading that identifier returns
    the very record the handler assembled, and the listing is the old
    listing with that record at the end. *)
Theorem submitted_record_is_served `{P : Platform}
    (req : SubmitRequest) (subId now : string) (fs fs1 : Disk)
    (files : list File) (ts db : list json) (sess : Session) :
  upload_fields subId (req_parts req) fs = Some (files, fs1) →
  JSON_parse (str_or (req_body req !! "tracks") "[]") = Some (JArr ts) →
  Forall (λ t, is_obj t = true) ts →
  readDB fs = JArr db →
  Forall (λ s, is_obj s = true) db →
  (∀ s, s ∈ db → id_is subId s = false) →
  roundtrips (JArr (db ++ [ingested subId now (req_body req) files ts])) →
  isAdmin sess = true →
  ∃ fs2,
    post_submit req subId now fs = Some (accepted subId, fs2) ∧
    admin_route (GetSubmission subId) sess fs2
    = (res_json 200 (ingested subId now (req_body req) files ts), fs2) ∧
    admin_route ListSubmissions sess fs2
    = (res_json 200
         (JArr (db ++ [ingested subId now (req_body req) files ts])), fs2).
Proof.
  intros Hup Hparse Hts Hdb Hobj Hfresh Hrt Hadm.
  eexists. split; [apply (post_submit_ok _ _ _ _ _ _ _ _ Hup Hparse Hts Hdb)|].
  set (sub := ingested subId now (req_body req) files ts) in *.
  remember (writeDB (JArr (db ++ [sub])) fs1) as fs2 eqn:Efs2.
  assert (Hread : readDB fs2 = JArr (db ++ [sub])).
  { rewrite Efs2. apply readDB_writeDB, Hrt. }
  destruct (ingested_obj subId now (req_body req) files ts) as (o & Ho & Hid).
  fold sub in Ho.
  split.
  - assert (Hobj2 : Forall (λ s, is_obj s = true) (db ++ [sub])).
    { apply Forall_app. split; [exact Hobj|]. rewrite Ho. repeat constructor. }
    rewrite Ho.
    apply (get_route_found subId sess fs2 (db ++ [sub]) (length db) o Hadm
             Hread Hobj2).
    + rewrite <- Ho. apply list_lookup_middle. reflexivity.
    + exact Hid.
    + intros j s Hj Hs. rewrite lookup_app_l in Hs by exact Hj.
      apply Hfresh. apply list_elem_of_lookup. eauto.
  - unfold admin_route, requireAdmin. rewrite Hadm. cbn.
    unfold list_handler. rewrite Hread. reflexivity.
Qed.

Lemma submitted_record_is_served_witness :
  ∃ fs2,
    post_submit (P := Ref.platform) Demo.request_ba "id1" "t0" Demo.empty_disk
    = Some (accepted "id1", fs2) ∧
    admin_route (P := Ref.platform) (GetSubmission "id1") Demo.admin fs2
    = (res_json 200
         (ingested (P := Ref.platform) "id1" "t0" (req_body Demo.request_ba)
            (Demo.stored Demo.parts_ab).1 Demo.tracks_ba), fs2).
Proof.
  destruct (submitted_record_is_served (P := Ref.platform) Demo.request_ba
              "id1" "t0" Demo.empty_disk (Demo.stored Demo.parts_ab).2
              (Demo.stored Demo.parts_ab).1 Demo.tracks_ba [] Demo.admin)
    as (fs2 & H1 & H2 & _).
  - vm_compute. reflexivity.
  - vm_compute. reflexivity.
  - repeat constructor.
  - vm_compute. reflexivity.
  - constructor.
  - intros s Hs. inversion Hs.
  - vm_compute. reflexivity.
  - reflexivity.
  - exists fs2. split; [exact H1|exact H2].
Defined.

(** X14. A review is what the next reader sees: after an approval or a
    rejection of a stored identifier, reading that identifier returns the
    record with the new status and note and every other field as
    before. *)
Theorem reviewed_record_is_served `{P : Platform}
    (approve : bool) (id : string) (note : option json)
    (sess : Session) (fs : Disk) (db : list json) :
  isAdmin sess = true →
  readDB fs = JArr db →
  Forall (λ s, is_obj s = true) db →
  (∃ s, s ∈ db ∧ id_is id s = true) →
  roundtrips (JArr (reviewed (outcome_of approve) id note db)) →
  ∃ o r,
    find_exc (has_id id) db = Ok (Some (JObj o)) ∧
    admin_route (GetSubmission id) sess
      (admin_route (review_request approve id note) sess fs).2
    = (res_json 200 (JObj r),
       (admin_route (review_request approve id note) sess fs).2) ∧
    obj_get "status" r = Some (JStr (outcome_of approve)) ∧
    obj_get "adminNote" r = Some (js_or note JNull) ∧
    ∀ k, k ≠ "status" → k ≠ "adminNote" → obj_get k r = obj_get k o.
Proof.
  intros Hadm Hdb Hobj Hex Hrt.
  destruct (reviewed_spec (outcome_of approve) id note db Hobj Hex)
    as (i & o & Hl & Ho & Hfirst & _ & Hr).
  exists o, (decided (outcome_of approve) note o).
  split; [apply (find_exc_found id db i o Hobj Hl Ho Hfirst)|].
  assert (Hi : (i < length db)%nat) by (eapply lookup_lt_Some; eauto).
  split; [|split; [|split]].
  - rewrite admin_route_review by exact Hadm.
    rewrite (review_handler_found _ id note fs db Hdb Hobj Hex).
    cbn [run_handler snd].
    apply (get_route_found id sess _ (reviewed (outcome_of approve) id note db) i).
    + exact Hadm.
    + apply readDB_writeDB, Hrt.
    + apply reviewed_objects, Hobj.
    + rewrite Hr. apply list_lookup_insert_eq, Hi.
    + rewrite decided_other; auto; discriminate.
    + intros j s Hj Hs. rewrite Hr in Hs.
      rewrite list_lookup_insert_ne in Hs by lia. eauto.
  - unfold decided. rewrite obj_get_set_ne by discriminate.
    apply obj_get_set_eq.
  - apply obj_get_set_eq.
  - intros k. apply decided_other.
Qed.

Lemma reviewed_record_is_served_witness :
  ∃ r,
    admin_route (P := Ref.platform) (GetSubmission "s1") Demo.admin
      (admin_route (P := Ref.platform) (Approve "s1" (Some (JStr "fine")))
         Demo.admin Demo.two_records_disk).2
    = (res_json 200 (JObj r),
       (admin_route (P := Ref.platform) (Approve "s1" (Some (JStr "fine")))
          Demo.admin Demo.two_records_disk).2) ∧
    obj_get "status" r = Some (JStr "approved") ∧
    obj_get "adminNote" r = Some (JStr "fine").
Proof.
  destruct (reviewed_record_is_served (P := Ref.platform) true "s1"
              (Some (JStr "fine")) Demo.admin Demo.two_records_disk
              Demo.two_records) as (o & r & _ & H1 & H2 & H3 & _).
  - reflexivity.
  - vm_compute. reflexivity.
  - repeat constructor.
  - exists (Demo.record "s1" "pending"). split; [|reflexivity].
    apply elem_of_cons. auto.
  - vm_compute. reflexivity.
  - exists r. split; [exact H1|]. split; [exact H2|exact H3].
Defined.

(** ** The export in general *)

Lemma track_entries_part `{P : Platform} fs t idx :
  is_obj t = true → ref_like (field "file" t) = true →
  track_entries fs t idx = Ok (track_part fs idx t).
Proof.
  intros Hobj Href. unfold track_entries, track_part, track_resolvable.
  rewrite (js_get_obj t "file" Hobj). cbn.
  destruct (field "file" t) as [[| | |p| |]|] eqn:E; try discriminate;
    try reflexivity.
  cbn. unfold nonempty.
  destruct (String.eqb p ""); cbn; [reflexivity|].
  destruct (existsSync fs (path_join UPLOADS_DIR p)); [|reflexivity].
  rewrite (js_get_obj t "originalFileName" Hobj). cbn.
  unfold audio_entry_of. rewrite E. reflexivity.
Qed.

Lemma cover_entries_part `{P : Platform} fs o :
  ref_like (obj_get "cover" o) = true →
  cover_entries (JObj o) fs = Ok (cover_part fs (JObj o)).
Proof.
  intros Href. unfold cover_entries, cover_part. cbn.
  destruct (obj_get "cover" o) as [[| | |c| |]|]; try discriminate;
    try reflexivity.
  cbn. unfold nonempty. destruct (String.eqb c ""); cbn; [reflexivity|].
  destruct (existsSync fs (path_join UPLOADS_DIR c)); reflexivity.
Qed.

Lemma track_part_exists `{P : Platform} fs i t e p :
  e ∈ track_part fs i t → entry_source e = FromFile p → existsSync fs p = true.
Proof.
  unfold track_part, track_resolvable, audio_entry_of.
  destruct (field "file" t) as [[| | |q| |]|]; try (intros H; inversion H; fail).
  destruct (nonempty q); cbn; [|intros H; inversion H].
  destruct (existsSync fs (path_join UPLOADS_DIR q)) eqn:E;
    [|intros H; inversion H].
  intros H. apply list_elem_of_singleton in H as ->. cbn. congruence.
Qed.

Lemma cover_part_exists `{P : Platform} fs sub e p :
  e ∈ cover_part fs sub → entry_source e = FromFile p → existsSync fs p = true.
Proof.
  unfold cover_part.
  destruct (field "cover" sub) as [[| | |c| |]|]; try (intros H; inversion H; fail).
  destruct (nonempty c); cbn; [|intros H; inversion H].
  destruct (existsSync fs (path_join UPLOADS_DIR c)) eqn:E;
    [|intros H; inversion H].
  intros H. apply list_elem_of_singleton in H as ->. cbn. congruence.
Qed.

Lemma download_route `{P : Platform} id sess fs db i o album ts :
  isAdmin sess = true →
  readDB fs = JArr db →
  Forall (λ s, is_obj s = true) db →
  db !! i = Some (JObj o) →
  obj_get "id" o = Some (JStr id) →
  (∀ j s, (j < i)%nat → db !! j = Some s → id_is id s = false) →
  existsSync fs (path_join UPLOADS_DIR id) = true →
  obj_get "albumName" o = Some (JStr album) →
  ref_like (obj_get "cover" o) = true →
  obj_get "tracks" o = Some (JArr ts) →
  Forall (λ t, is_obj t = true ∧ ref_like (field "file" t) = true) ts →
  admin_route (Download id) sess fs
  = ({| status := 200;
        body := BArchive ("attachment; filename="
                          ++ sanitize (str_or (Some album) id) ++ ".zip")
                  (metadata_entry (JObj o)
                   :: cover_part fs (JObj o)
                   ++ concat (imap (track_part fs) ts)) |}, fs).
Proof.
  intros Hadm Hdb Hobj Hl Ho Hfirst Hdir Halbum Hcover Htracks Hts.
  unfold admin_route, requireAdmin. rewrite Hadm.
  unfold download_handler. rewrite Hdb.
  cbn [js_array mbind exc_bind].
  rewrite (find_exc_found id db i o Hobj Hl Ho Hfirst).
  cbn [mbind exc_bind js_get]. rewrite Ho.
  cbn [js_string fmap exc_fmap mbind exc_bind].
  rewrite Hdir. cbn [negb]. rewrite Halbum.
  rewrite (cover_entries_part fs o Hcover). rewrite Htracks.
  cbn [from_option js_array mbind exc_bind].
  rewrite (mapi_exc_pure _ (track_part fs) ts 0).
  2:{ intros t k Ht. rewrite Forall_forall in Hts.
      destruct (Hts t Ht). apply track_entries_part; assumption. }
  cbn [js_or_opt truthy]. unfold str_or.
  destruct (String.eqb album ""); reflexivity.
Qed.

Lemma elem_of_concat_imap {A B} (g : nat → A → list B) (l : list A) y :
  y ∈ concat (imap g l) ↔ ∃ i x, l !! i = Some x ∧ y ∈ g i x.
Proof.
  revert g. induction l as [|x l IH]; intros g.
  - cbn. split; [intros H; inversion H|intros (i & z & H & _); discriminate].
  - cbn [imap concat]. rewrite elem_of_app, IH. split.
    + intros [H|(i & z & H1 & H2)]; [exists 0%nat, x|exists (S i), z]; auto.
    + intros ([|i] & z & H1 & H2); [left|right; eauto].
      injection H1 as ->. exact H2.
Qed.

Lemma length_concat_imap_filter {A B} (q : A → bool) (g : nat → A → B)
    (l : list A) :
  length (concat (imap (λ i x, if q x then [g i x] else []) l))
  = length (List.filter q l).
Proof.
  revert g. induction l as [|x l IH]; intros g; [reflexivity|].
  cbn [imap concat List.filter]. rewrite length_app.
  specialize (IH (g ∘ S)). unfold compose in *.
  destruct (q x); cbn [length]; rewrite <- IH; reflexivity.
Qed.

Lemma filter_all {A} (q : A → bool) (l : list A) :
  Forall (λ x, q x = true) l → List.filter q l = l.
Proof.
  induction 1 as [|x l Hx _ IH]; [reflexivity|].
  cbn [List.filter]. rewrite Hx, IH. reflexivity.
Qed.

(** X15. What the export puts into the archive.  For a stored record
    whose directory exists, the archive is made of the metadata document,
    of the cover under its base name if the record names one that is on the
    disk, and of one entry for every track that names a file on the disk,
    and of nothing else; in which order the entries end up in the archive
    is not stated.  Tracks without a file, or whose file is gone, are left
    out without an error.  An archived track is named by its
    [originalFileName] or, when that is missing, [null] or empty,
    [track-<position><extension>], with the 1-based position the track has
    in the track list, the tracks left out counted.  Every file the archive
    refers to is on the disk, and when the cover and all N tracks are on
    the disk the archive has N+2 entries. *)
Theorem export_skips_what_is_missing `{P : Platform}
    (id : string) (sess : Session) (fs : Disk) (db : list json) (i : nat)
    (o : list (string * json)) (album : string) (ts : list json) :
  isAdmin sess = true →
  readDB fs = JArr db →
  Forall (λ s, is_obj s = true) db →
  db !! i = Some (JObj o) →
  obj_get "id" o = Some (JStr id) →
  (∀ j s, (j < i)%nat → db !! j = Some s → id_is id s = false) →
  existsSync fs (path_join UPLOADS_DIR id) = true →
  obj_get "albumName" o = Some (JStr album) →
  ref_like (obj_get "cover" o) = true →
  obj_get "tracks" o = Some (JArr ts) →
  Forall (λ t, is_obj t = true ∧ ref_like (field "file" t) = true) ts →
  ∃ disposition entries,
    admin_route (Download id) sess fs
    = ({| status := 200; body := BArchive disposition entries |}, fs) ∧
    entries ≡ₚ metadata_entry (JObj o)
               :: cover_part fs (JObj o) ++ concat (imap (track_part fs) ts) ∧
    length entries
    = (1 + length (cover_part fs (JObj o))
       + length (List.filter (track_resolvable fs) ts))%nat ∧
    (length (cover_part fs (JObj o)) = 1%nat →
     Forall (λ t, track_resolvable fs t = true) ts →
     length entries = (length ts + 2)%nat) ∧
    (∀ e p, e ∈ entries → entry_source e = FromFile p →
            existsSync fs p = true) ∧
    (∀ k t, ts !! k = Some t → track_resolvable fs t = true →
            audio_entry_of k t ∈ entries) ∧
    (∀ k t p, ts !! k = Some t → field "file" t = Some (JStr p) →
       track_resolvable fs t = true →
       audio_entry t k p ∈ entries ∧
       (∀ name, field "originalFileName" t = Some (JStr name) → name ≠ "" →
                entry_name (audio_entry t k p) = JStr name) ∧
       (field "originalFileName" t = None ∨
        field "originalFileName" t = Some JNull ∨
        field "originalFileName" t = Some (JStr "") →
        entry_name (audio_entry t k p)
        = JStr ("track-" ++ decimal (Z.of_nat k + 1)
                ++ path_extname (path_join UPLOADS_DIR p)))).
Proof.
  intros Hadm Hdb Hobj Hl Ho Hfirst Hdir Halbum Hcover Htracks Hts.
  eexists _, _. split; [eapply download_route; eassumption|].
  split; [reflexivity|].
  assert (Hlen : length (metadata_entry (JObj o)
                           :: cover_part fs (JObj o)
                           ++ concat (imap (track_part fs) ts))
                 = (1 + length (cover_part fs (JObj o))
                    + length (List.filter (track_resolvable fs) ts))%nat).
  { cbn [length]. rewrite length_app. unfold track_part.
    rewrite (length_concat_imap_filter (track_resolvable fs) audio_entry_of).
    lia. }
  assert (Hin : ∀ k t, ts !! k = Some t → track_resolvable fs t = true →
                       audio_entry_of k t
                       ∈ metadata_entry (JObj o)
                           :: cover_part fs (JObj o)
                           ++ concat (imap (track_part fs) ts)).
  { intros k t Hk E.
    apply elem_of_cons. right. apply elem_of_app. right.
    apply elem_of_concat_imap. exists k, t. split; [exact Hk|].
    unfold track_part. rewrite E. apply list_elem_of_singleton. reflexivity. }
  split; [exact Hlen|]. split; [|split; [|split]].
  - intros Hc Hall. rewrite Hlen, Hc, (filter_all _ _ Hall). lia.
  - intros e p He Hp. apply elem_of_cons in He as [->|He]; [discriminate|].
    apply elem_of_app in He as [He|He].
    + eapply cover_part_exists; eauto.
    + apply elem_of_concat_imap in He as (k & t & _ & He).
      eapply track_part_exists; eauto.
  - exact Hin.
  - intros k t p Hk Hp E. split; [|split].
    + specialize (Hin k t Hk E). unfold audio_entry_of in Hin.
      rewrite Hp in Hin. exact Hin.
    + intros name Hname Hne. simpl. rewrite Hname. simpl.
      destruct (String.eqb_spec name ""); [contradiction|reflexivity].
    + intros [Hn|[Hn|Hn]]; simpl; rewrite Hn; reflexivity.
Qed.

Lemma export_skips_what_is_missing_witness :
  (∃ disposition entries,
     admin_route (P := Ref.platform) (Download "id8") Demo.admin
       Demo.export_gaps_disk
     = ({| status := 200; body := BArchive disposition entries |},
        Demo.export_gaps_disk) ∧
     length entries = 2%nat) ∧
  (∃ disposition entries,
     admin_route (P := Ref.platform) (Download "id9") Demo.admin
       Demo.export_disk
     = ({| status := 200; body := BArchive disposition entries |},
        Demo.export_disk) ∧
     length entries = 4%nat ∧
     {| entry_source := FromFile "/srv/app/uploads/id9/x.mp3";
        entry_name := JStr "x.mp3" |} ∈ entries ∧
     {| entry_source := FromFile "/srv/app/uploads/id9/y.flac";
        entry_name := JStr "track-2.flac" |} ∈ entries).
Proof.
  split.
  - destruct (export_skips_what_is_missing (P := Ref.platform) "id8"
                Demo.admin Demo.export_gaps_disk
                [JObj Demo.export_gaps_record] 0
                Demo.export_gaps_record "Gaps" Demo.export_gaps_tracks)
      as (d & entries & H1 & _ & H2 & _).
    + reflexivity.
    + vm_compute. reflexivity.
    + repeat constructor.
    + reflexivity.
    + reflexivity.
    + intros j s Hj. lia.
    + vm_compute. reflexivity.
    + reflexivity.
    + reflexivity.
    + reflexivity.
    + repeat constructor.
    + exists d, entries. split; [exact H1|]. rewrite H2. vm_compute. reflexivity.
  - destruct (export_skips_what_is_missing (P := Ref.platform) "id9"
                Demo.admin Demo.export_disk [JObj Demo.export_record] 0
                Demo.export_record "My Album!" Demo.export_tracks)
      as (d & entries & H1 & _ & _ & H2 & _ & _ & H3).
    + reflexivity.
    + vm_compute. reflexivity.
    + repeat constructor.
    + reflexivity.
    + reflexivity.
    + intros j s Hj. lia.
    + vm_compute. reflexivity.
    + reflexivity.
    + reflexivity.
    + reflexivity.
    + repeat constructor.
    + exists d, entries. split; [exact H1|].
      split.
      { apply H2; [vm_compute; reflexivity|].
        apply Forall_forall. intros t Ht.
        unfold Demo.export_tracks in Ht. rewrite !elem_of_cons in Ht.
        destruct Ht as [->|[->|Ht]]; [vm_compute; reflexivity..|inversion Ht]. }
      destruct (H3 0%nat _ "id9/x.mp3" eq_refl eq_refl) as (He2 & _ & _);
        [vm_compute; reflexivity|].
      destruct (H3 1%nat _ "id9/y.flac" eq_refl eq_refl) as (He3 & _ & _);
        [vm_compute; reflexivity|].
      split; [exact He2|exact He3].
Defined.

Lemma download_route_absent `{P : Platform} id sess fs db :
  isAdmin sess = true →
  readDB fs = JArr db →
  Forall (λ s, is_obj s = true) db →
  (∀ s, s ∈ db → id_is id s = false) →
  admin_route (Download id) sess fs = (res_send 404 "Not found", fs).
Proof.
  intros Hadm Hdb Hobj Habs.
  unfold admin_route, requireAdmin. rewrite Hadm.
  unfold download_handler. rewrite Hdb. cbn [js_array mbind exc_bind].
  rewrite (find_exc_absent id db Hobj Habs). reflexivity.
Qed.

Lemma download_route_no_directory `{P : Platform} id sess fs db i o :
  isAdmin sess = true →
  readDB fs = JArr db →
  Forall (λ s, is_obj s = true) db →
  db !! i = Some (JObj o) →
  obj_get "id" o = Some (JStr id) →
  (∀ j s, (j < i)%nat → db !! j = Some s → id_is id s = false) →
  existsSync fs (path_join UPLOADS_DIR id) = false →
  admin_route (Download id) sess fs = (res_send 404 "Files missing", fs).
Proof.
  intros Hadm Hdb Hobj Hl Ho Hfirst Hdir.
  unfold admin_route, requireAdmin. rewrite Hadm.
  unfold download_handler. rewrite Hdb. cbn [js_array mbind exc_bind].
  rewrite (find_exc_found id db i o Hobj Hl Ho Hfirst).
  cbn [mbind exc_bind js_get]. rewrite Ho.
  cbn [js_string fmap exc_fmap mbind exc_bind].
  rewrite Hdir. reflexivity.
Qed.

(** X16. The two refusals of the export: an identifier that no record
    carries is answered 404 [Not found]; a record whose directory is not
    on the disk is answered 404 [Files missing], whatever else the record
    says and before any of it is read.  Both answers are plain text and
    leave the disk as it was. *)
Theorem export_refusals `{P : Platform}
    (id : string) (sess : Session) (fs : Disk) (db : list json) :
  isAdmin sess = true →
  readDB fs = JArr db →
  Forall (λ s, is_obj s = true) db →
  ((∀ s, s ∈ db → id_is id s = false) →
   admin_route (Download id) sess fs = (res_send 404 "Not found", fs)) ∧
  (∀ i o, db !! i = Some (JObj o) →
          obj_get "id" o = Some (JStr id) →
          (∀ j s, (j < i)%nat → db !! j = Some s → id_is id s = false) →
          existsSync fs (path_join UPLOADS_DIR id) = false →
          admin_route (Download id) sess fs
          = (res_send 404 "Files missing", fs)).
Proof.
  intros Hadm Hdb Hobj. split.
  - apply download_route_absent; assumption.
  - intros i o. apply download_route_no_directory; assumption.
Qed.

Lemma export_refusals_witness :
  admin_route (P := Ref.platform) (Download "nobody") Demo.admin
    Demo.two_records_disk
  = (res_send 404 "Not found", Demo.two_records_disk) ∧
  admin_route (P := Ref.platform) (Download "s1") Demo.admin
    Demo.two_records_disk
  = (res_send 404 "Files missing", Demo.two_records_disk).
Proof.
  destruct (export_refusals (P := Ref.platform) "nobody" Demo.admin
              Demo.two_records_disk Demo.two_records) as [H _];
    [reflexivity|vm_compute; reflexivity|repeat constructor|].
  destruct (export_refusals (P := Ref.platform) "s1" Demo.admin
              Demo.two_records_disk Demo.two_records) as [_ H'];
    [reflexivity|vm_compute; reflexivity|repeat constructor|].
  split.
  - apply H. intros s Hs. unfold Demo.two_records in Hs.
    rewrite !elem_of_cons in Hs.
    destruct Hs as [->|[->|Hs]]; [reflexivity..|inversion Hs].
  - apply (H' 0%nat [ ("id", JStr "s1"); ("albumName", JStr "Test");
                       ("numSongs", JNum 7); ("tracks", JArr []);
                       ("status", JStr "pending"); ("adminNote", JNull) ]);
      [reflexivity|reflexivity| |vm_compute; reflexivity].
    intros j s Hj. lia.
Defined.

Lemma existsSync_writeDB `{P : Platform} v fs p :
  existsSync (writeDB v fs) p = existsSync fs p.
Proof. reflexivity. Qed.

(** X17. A submission without any file can be read but not exported:
    when a request with no named file part is accepted under a fresh
    identifier whose directory is not on the disk, no directory is made,
    the record is served to the reviewer, and the export of it answers 404
    [Files missing]. *)
Theorem fileless_submission_has_no_export `{P : Platform}
    (req : SubmitRequest) (subId now : string) (fs : Disk)
    (ts db : list json) (sess : Session) :
  named (req_parts req) = [] →
  JSON_parse (str_or (req_body req !! "tracks") "[]") = Some (JArr ts) →
  Forall (λ t, is_obj t = true) ts →
  readDB fs = JArr db →
  Forall (λ s, is_obj s = true) db →
  (∀ s, s ∈ db → id_is subId s = false) →
  existsSync fs (path_join UPLOADS_DIR subId) = false →
  roundtrips (JArr (db ++ [ingested subId now (req_body req) [] ts])) →
  isAdmin sess = true →
  ∃ fs2,
    post_submit req subId now fs = Some (accepted subId, fs2) ∧
    upload_files fs2 = upload_files fs ∧
    upload_dirs fs2 = upload_dirs fs ∧
    admin_route (GetSubmission subId) sess fs2
    = (res_json 200 (ingested subId now (req_body req) [] ts), fs2) ∧
    admin_route (Download subId) sess fs2
    = (res_send 404 "Files missing", fs2).
Proof.
  intros Hnone Hparse Hts Hdb Hobj Hfresh Hdir Hrt Hadm.
  assert (Hadmit : is_Some (upload_fields subId (req_parts req) fs)).
  { unfold upload_fields. apply store_parts_admits. intros g.
    unfold count_field. rewrite Hnone. cbn. lia. }
  destruct Hadmit as [[files fs1] Hup].
  destruct (upload_nothing _ _ _ _ _ Hup Hnone) as [-> ->].
  eexists. split; [apply (post_submit_ok _ _ _ _ _ _ _ _ Hup Hparse Hts Hdb)|].
  set (sub := ingested subId now (req_body req) [] ts) in *.
  remember (writeDB (JArr (db ++ [sub])) fs) as fs2 eqn:Efs2.
  assert (Hread : readDB fs2 = JArr (db ++ [sub])).
  { rewrite Efs2. apply readDB_writeDB, Hrt. }
  destruct (ingested_obj subId now (req_body req) [] ts) as (o & Ho & Hid).
  fold sub in Ho.
  assert (Hobj2 : Forall (λ s, is_obj s = true) (db ++ [sub])).
  { apply Forall_app. split; [exact Hobj|]. rewrite Ho. repeat constructor. }
  assert (Hl : (db ++ [sub])%list !! length db = Some (JObj o)).
  { rewrite <- Ho. apply list_lookup_middle. reflexivity. }
  assert (Hfirst : ∀ j s, (j < length db)%nat → (db ++ [sub])%list !! j = Some s →
                          id_is subId s = false).
  { intros j s Hj Hs. rewrite lookup_app_l in Hs by exact Hj.
    apply Hfresh. apply list_elem_of_lookup. eauto. }
  split; [rewrite Efs2; reflexivity|]. split; [rewrite Efs2; reflexivity|].
  split.
  - rewrite Ho.
    apply (get_route_found subId sess fs2 _ _ o Hadm Hread Hobj2 Hl Hid Hfirst).
  - apply (download_route_no_directory subId sess fs2 _ _ o Hadm Hread Hobj2
             Hl Hid Hfirst).
    rewrite Efs2, existsSync_writeDB. exact Hdir.
Qed.

Lemma fileless_submission_has_no_export_witness :
  ∃ fs2,
    post_submit (P := Ref.platform) Demo.request_fileless "id1" "t0"
      Demo.empty_disk = Some (accepted "id1", fs2) ∧
    admin_route (P := Ref.platform) (Download "id1") Demo.admin fs2
    = (res_send 404 "Files missing", fs2).
Proof.
  destruct (fileless_submission_has_no_export (P := Ref.platform)
              Demo.request_fileless "id1" "t0" Demo.empty_disk Demo.tracks_ba
              [] Demo.admin) as (fs2 & H1 & _ & _ & _ & H2).
  - reflexivity.
  - vm_compute. reflexivity.
  - repeat constructor.
  - vm_compute. reflexivity.
  - constructor.
  - intros s Hs. inversion Hs.
  - vm_compute. reflexivity.
  - vm_compute. reflexivity.
  - reflexivity.
  - exists fs2. split; [exact H1|exact H2].
Defined.

Lemma uploaded_files_exist `{P : Platform} subId parts fs files fs' f :
  upload_fields subId parts fs = Some (files, fs') →
  f ∈ files → is_Some (upload_files fs' !! path f).
Proof.
  intros H Hf.
  destruct (upload_fields_spec _ _ _ _ _ H) as (_ & Hex & _).
  rewrite (upload_fields_named _ _ _ _ _ H) in Hf.
  apply list_elem_of_fmap in Hf as (p & -> & Hp).
  apply list_elem_of_filter in Hp as [Hname Hp].
  apply (Hex p Hp Hname).
Qed.

Lemma files_of_elem g (files : list File) f :
  f ∈ files_of g files → f ∈ files.
Proof. unfold files_of. intros H. apply list_elem_of_filter in H as [_ H]. exact H. Qed.

Lemma matched_track_cases `{P : Platform} U k t :
  matched_track U k t = with_file t JNull JNull ∨
  ∃ f, f ∈ U ∧
       matched_track U k t = with_file t (file_ref f) (JStr (originalname f)).
Proof.
  unfold matched_track. destruct (List.find _ U) as [f|] eqn:E.
  - right. exists f. apply find_some in E as [Hin _].
    apply list_elem_of_In in Hin. auto.
  - destruct (U !! k) as [f|] eqn:Ek; [right|left; reflexivity].
    exists f. split; [apply list_elem_of_lookup; eauto|reflexivity].
Qed.

Lemma upload_resolvable `{P : Platform} fs f :
  relocatable f → is_Some (upload_files fs !! path f) →
  nonempty (path_relative UPLOADS_DIR (path f))
  && existsSync fs (path_join UPLOADS_DIR (path_relative UPLOADS_DIR (path f)))
  = true.
Proof.
  intros [Hne Hback] Hex. rewrite Hback.
  apply andb_true_intro. split.
  - unfold nonempty. destruct (String.eqb_spec (path_relative UPLOADS_DIR (path f)) "");
      [contradiction|reflexivity].
  - apply existsSync_true. auto.
Qed.

Lemma track_part_with_file `{P : Platform} fs k t f :
  relocatable f → is_Some (upload_files fs !! path f) → originalname f ≠ "" →
  track_part fs k (with_file t (file_ref f) (JStr (originalname f)))
  = [upload_entry f (originalname f)].
Proof.
  intros Hrel Hex Hname. unfold track_part, track_resolvable, audio_entry_of.
  rewrite with_file_file. unfold file_ref.
  rewrite (upload_resolvable fs f Hrel Hex).
  unfold audio_entry. rewrite with_file_originalFileName.
  destruct Hrel as [_ ->]. unfold upload_entry. f_equal. f_equal.
  cbn. destruct (String.eqb_spec (originalname f) ""); [contradiction|reflexivity].
Qed.

Lemma track_part_without_file `{P : Platform} fs k t :
  track_part fs k (with_file t JNull JNull) = [].
Proof.
  unfold track_part, track_resolvable. rewrite with_file_file. reflexivity.
Qed.

(** X18. Submission and export composed: after an accepted submission
    with at least one file, under a fresh identifier and a platform whose
    relative paths lead back to the uploads, the export of that identifier
    succeeds.  Its archive starts with the metadata of the new record; it
    holds the cover, under its base name, when one was sent; a track whose
    declared [fileName] is the name of an audio upload is archived from
    that upload's path under that name; and every file in the archive is
    an upload of this request. *)
Theorem submit_then_download `{P : Platform}
    (req : SubmitRequest) (subId now : string) (fs fs1 : Disk)
    (files : list File) (ts db : list json) (sess : Session) :
  upload_fields subId (req_parts req) fs = Some (files, fs1) →
  named (req_parts req) ≠ [] →
  Forall relocatable files →
  JSON_parse (str_or (req_body req !! "tracks") "[]") = Some (JArr ts) →
  Forall (λ t, is_obj t = true) ts →
  readDB fs = JArr db →
  Forall (λ s, is_obj s = true) db →
  (∀ s, s ∈ db → id_is subId s = false) →
  roundtrips (JArr (db ++ [ingested subId now (req_body req) files ts])) →
  isAdmin sess = true →
  ∃ fs2 disposition entries,
    post_submit req subId now fs = Some (accepted subId, fs2) ∧
    admin_route (Download subId) sess fs2
    = ({| status := 200; body := BArchive disposition entries |}, fs2) ∧
    entries !! 0%nat
    = Some (metadata_entry (ingested subId now (req_body req) files ts)) ∧
    (∀ c, head (files_of "cover" files) = Some c →
          entries !! 1%nat = Some (upload_entry c (path_basename (path c)))) ∧
    (∀ k t f, ts !! k = Some t → f ∈ files_of "trackFiles" files →
              field "fileName" t = Some (JStr (originalname f)) →
              upload_entry f (originalname f) ∈ entries) ∧
    (∀ e p, e ∈ entries → entry_source e = FromFile p →
            ∃ f, f ∈ files ∧ p = path f ∧
                 upload_files fs2 !! p = upload_files fs1 !! p ∧
                 is_Some (upload_files fs1 !! p)).
Proof.
  intros Hup Hsome Hrel Hparse Hts Hdb Hobj Hfresh Hrt Hadm.
  set (U := files_of "trackFiles" files).
  set (sub := ingested subId now (req_body req) files ts) in *.
  remember (writeDB (JArr (db ++ [sub])) fs1) as fs2 eqn:Efs2.
  assert (Hread : readDB fs2 = JArr (db ++ [sub])).
  { rewrite Efs2. apply readDB_writeDB, Hrt. }
  destruct (upload_fields_spec _ _ _ _ _ Hup) as (_ & _ & Hplaced).
  assert (HplacedU : Forall (placed subId) U) by apply files_of_placed, Hplaced.
  assert (Hexists : ∀ f, f ∈ files → is_Some (upload_files fs2 !! path f)).
  { intros f Hf. rewrite Efs2. cbn.
    apply (uploaded_files_exist _ _ _ _ _ _ Hup Hf). }
  assert (HrelU : ∀ f, f ∈ U → relocatable f ∧ originalname f ≠ ""
                                ∧ is_Some (upload_files fs2 !! path f)).
  { intros f Hf. rewrite Forall_forall in Hrel, HplacedU.
    pose proof (files_of_elem _ _ _ Hf) as Hin.
    split; [auto|]. split; [apply (HplacedU f Hf)|auto]. }
  pose (out := imap (matched_track U) ts).
  pose (o := [ ("id", JStr subId);
               ("albumName", JStr (trim (str_or (req_body req !! "albumName") "")));
               ("releaseDate", JStr (str_or (req_body req !! "releaseDate") ""));
               ("platforms", JArr (JStr <$> parse_platforms (req_body req !! "platforms")));
               ("numSongs", js_number (parse_numSongs (req_body req !! "numSongs")));
               ("cover", match head (files_of "cover" files) with
                         | Some f => file_ref f
                         | None => JNull
                         end);
               ("tracks", JArr out);
               ("createdAt", JStr now);
               ("status", JStr "pending");
               ("adminNote", JNull) ]).
  assert (Ho : sub = JObj o) by reflexivity.
  assert (Hobj2 : Forall (λ s, is_obj s = true) (db ++ [sub])).
  { apply Forall_app. split; [exact Hobj|]. repeat constructor. }
  assert (Hl : (db ++ [sub])%list !! length db = Some (JObj o)).
  { rewrite <- Ho. apply list_lookup_middle. reflexivity. }
  assert (Hfirst : ∀ j s, (j < length db)%nat → (db ++ [sub])%list !! j = Some s →
                          id_is subId s = false).
  { intros j s Hj Hs. rewrite lookup_app_l in Hs by exact Hj.
    apply Hfresh. apply list_elem_of_lookup. eauto. }
  assert (Hdir : existsSync fs2 (path_join UPLOADS_DIR subId) = true).
  { rewrite Efs2, existsSync_writeDB. apply (upload_dir_exists _ _ _ _ _ Hup Hsome). }
  assert (Hcref : ref_like (obj_get "cover" o) = true).
  { cbn. destruct (head (files_of "cover" files)); reflexivity. }
  assert (Htref : Forall (λ t, is_obj t = true ∧ ref_like (field "file" t) = true)
                    out).
  { apply Forall_forall. intros r Hr. unfold out in Hr.
    apply list_elem_of_lookup in Hr as [k Hr]. rewrite list_lookup_imap in Hr.
    destruct (ts !! k) as [t|]; [|discriminate]. injection Hr as <-.
    destruct (matched_track_cases U k t) as [->|(f & _ & ->)];
      (split; [reflexivity|rewrite with_file_file; reflexivity]). }
  pose proof (download_route subId sess fs2 (db ++ [sub]) (length db) o
                (trim (str_or (req_body req !! "albumName") "")) out
                Hadm Hread Hobj2 Hl eq_refl Hfirst Hdir eq_refl Hcref eq_refl
                Htref) as Hdl.
  exists fs2. eexists _, _.
  split; [rewrite Efs2; apply (post_submit_ok _ _ _ _ _ _ _ _ Hup Hparse Hts Hdb)|].
  split; [apply Hdl|].
  assert (Hcover : ∀ c, head (files_of "cover" files) = Some c →
             cover_part fs2 (JObj o) = [upload_entry c (path_basename (path c))]).
  { intros c Hc. unfold cover_part. cbn [field o obj_get String.eqb Ascii.eqb
      Bool.eqb]. rewrite Hc. unfold file_ref.
    assert (Hcin : c ∈ files).
    { apply (files_of_elem "cover"). destruct (files_of "cover" files);
        [discriminate|]. injection Hc as ->. apply elem_of_cons. auto. }
    rewrite Forall_forall in Hrel.
    rewrite (upload_resolvable fs2 c (Hrel c Hcin) (Hexists c Hcin)).
    destruct (Hrel c Hcin) as [_ ->]. reflexivity. }
  assert (Hnocover : head (files_of "cover" files) = None →
                     cover_part fs2 (JObj o) = []).
  { intros Hc. unfold cover_part. cbn [field o obj_get String.eqb Ascii.eqb
      Bool.eqb]. rewrite Hc. reflexivity. }
  assert (Htrack : ∀ k t, ts !! k = Some t →
             track_part fs2 k (matched_track U k t) = [] ∨
             ∃ f, f ∈ U ∧ track_part fs2 k (matched_track U k t)
                            = [upload_entry f (originalname f)]).
  { intros k t Hk.
    destruct (matched_track_cases U k t) as [->|(f & Hf & ->)].
    - left. apply track_part_without_file.
    - right. exists f. split; [exact Hf|].
      destruct (HrelU f Hf) as (H1 & H2 & H3).
      apply track_part_with_file; assumption. }
  split; [reflexivity|]. split; [|split].
  + intros c Hc. rewrite (Hcover c Hc). reflexivity.
  + intros k t f Hk Hf Hname.
    apply elem_of_cons. right. apply elem_of_app. right.
    apply elem_of_concat_imap. exists k, (matched_track U k t).
    split; [unfold out; rewrite list_lookup_imap, Hk; reflexivity|].
    rewrite (matched_track_by_name subId U k t f HplacedU Hf Hname).
    destruct (HrelU f Hf) as (H1 & H2 & H3).
    rewrite track_part_with_file by assumption.
    apply list_elem_of_singleton. reflexivity.
  + intros e p He Hp.
    assert (Hgoal : ∀ f, f ∈ files → p = path f →
               ∃ f, f ∈ files ∧ p = path f ∧
                    upload_files fs2 !! p = upload_files fs1 !! p ∧
                    is_Some (upload_files fs1 !! p)).
    { intros f Hf ->. exists f. split; [exact Hf|]. split; [reflexivity|].
      split; [rewrite Efs2; reflexivity|].
      apply (uploaded_files_exist _ _ _ _ _ _ Hup Hf). }
    apply elem_of_cons in He as [->|He]; [discriminate|].
    apply elem_of_app in He as [He|He].
    * destruct (head (files_of "cover" files)) as [c|] eqn:Hc.
      -- rewrite (Hcover c eq_refl) in He.
         apply list_elem_of_singleton in He as ->. cbn in Hp. injection Hp as <-.
         apply (Hgoal c); [|reflexivity].
         apply (files_of_elem "cover"). destruct (files_of "cover" files);
           [discriminate|]. injection Hc as ->. apply elem_of_cons. auto.
      -- rewrite (Hnocover eq_refl) in He. inversion He.
    * apply elem_of_concat_imap in He as (k & r & Hr & He).
      unfold out in Hr. rewrite list_lookup_imap in Hr.
      destruct (ts !! k) as [t|] eqn:Hk; [|discriminate]. injection Hr as <-.
      destruct (Htrack k t Hk) as [E|(f & Hf & E)]; rewrite E in He.
      -- inversion He.
      -- apply list_elem_of_singleton in He as ->. cbn in Hp. injection Hp as <-.
         apply (Hgoal f); [|reflexivity]. apply (files_of_elem _ _ _ Hf).
Qed.

Lemma submit_then_download_witness :
  ∃ fs2 disposition entries,
    post_submit (P := Ref.platform) Demo.request_ba "id1" "t0" Demo.empty_disk
    = Some (accepted "id1", fs2) ∧
    admin_route (P := Ref.platform) (Download "id1") Demo.admin fs2
    = ({| status := 200; body := BArchive disposition entries |}, fs2) ∧
    upload_entry Demo.file_b "b.mp3" ∈ entries.
Proof.
  destruct (submit_then_download (P := Ref.platform) Demo.request_ba
              "id1" "t0" Demo.empty_disk (Demo.stored Demo.parts_ab).2
              (Demo.stored Demo.parts_ab).1 Demo.tracks_ba [] Demo.admin)
    as (fs2 & d & entries & H1 & H2 & _ & _ & H3 & _).
  - vm_compute. reflexivity.
  - discriminate.
  - repeat constructor; discriminate.
  - vm_compute. reflexivity.
  - repeat constructor.
  - vm_compute. reflexivity.
  - constructor.
  - intros s Hs. inversion Hs.
  - vm_compute. reflexivity.
  - reflexivity.
  - exists fs2, d, entries. split; [exact H1|]. split; [exact H2|].
    apply (H3 0%nat (JObj [("title", JStr "A"); ("fileName", JStr "b.mp3")])
             Demo.file_b); [reflexivity| |reflexivity].
    apply list_elem_of_lookup. exists 1%nat. vm_compute. reflexivity.
Defined.

(** ** Sessions over a sequence of requests *)

Lemma admin_run_snoc `{P : Platform} l a st :
  admin_run (l ++ [a]) st = (admin_step a (admin_run l st)).2.
Proof. unfold admin_run. rewrite foldl_app. reflexivity. Qed.

Lemma admin_step_session `{P : Platform} a st :
  isAdmin (admin_step a st).2.1
  = match a with
    | Login p => bool_decide (p = Some ADMIN_PASS) || isAdmin st.1
    | Logout => false
    | Route _ => isAdmin st.1
    end.
Proof.
  destruct st as [sess fs], a as [p| |q]; cbn.
  - unfold post_login.
    destruct (String.eqb_spec (str_or p "") ADMIN_PASS) as [E|E]; cbn.
    + rewrite bool_decide_eq_true_2; [reflexivity|].
      destruct p as [s|]; cbn in E.
      * destruct (String.eqb_spec s ""); [|congruence].
        exfalso. apply ADMIN_PASS_nonempty. congruence.
      * exfalso. apply ADMIN_PASS_nonempty. congruence.
    + rewrite bool_decide_eq_false_2; [reflexivity|].
      intros ->. apply E. cbn.
      destruct (String.eqb_spec ADMIN_PASS ""); [|reflexivity].
      exfalso. apply ADMIN_PASS_nonempty. assumption.
  - reflexivity.
  - destruct (admin_route q sess fs). reflexivity.
Qed.

(** X19. Over any sequence of logins, logouts and admin requests of one
    client, the session is an admin session at the end exactly when a
    login with the configured password occurred with no logout after it,
    or the session was one at the start and no logout occurred at all.  A
    wrong password neither grants nor revokes anything. *)
Theorem session_is_admin_iff `{P : Platform}
    (l : list AdminAction) (sess : Session) (fs : Disk) :
  isAdmin (admin_run l (sess, fs)).1 = true ↔
  (isAdmin sess = true ∧ Logout ∉ l) ∨
  (∃ l1 l2, l = (l1 ++ Login (Some ADMIN_PASS) :: l2)%list ∧ Logout ∉ l2).
Proof.
  induction l as [|a l IH] using rev_ind.
  - cbn. split.
    + intros H. left. split; [exact H|]. intros Hin. inversion Hin.
    + intros [[H _]|(l1 & l2 & H & _)]; [exact H|].
      destruct l1; discriminate.
  - rewrite admin_run_snoc, admin_step_session.
    destruct a as [p| |q].
    + rewrite orb_true_iff, bool_decide_eq_true, IH. split.
      * intros [->|[[H1 H2]|(l1 & l2 & -> & H2)]].
        -- right. exists l, []. split; [reflexivity|]. intros Hin. inversion Hin.
        -- left. split; [exact H1|]. rewrite elem_of_app, elem_of_cons.
           intros [?|[?|Hin]]; [auto|discriminate|inversion Hin].
        -- right. exists l1, (l2 ++ [Login p])%list.
           split; [rewrite <- app_assoc; reflexivity|].
           rewrite elem_of_app, elem_of_cons.
           intros [?|[?|Hin]]; [auto|discriminate|inversion Hin].
      * intros [[H1 H2]|(l1 & l2 & E & H2)].
        -- right. left. split; [exact H1|]. intros Hin. apply H2.
           apply elem_of_app. auto.
        -- destruct l2 as [|b l2 _] using rev_ind.
           ++ apply app_inj_tail in E as [_ E]. left. congruence.
           ++ right. right. rewrite app_comm_cons, app_assoc in E.
              apply app_inj_tail in E as [-> _].
              exists l1, l2. split; [reflexivity|]. intros Hin. apply H2.
              apply elem_of_app. auto.
    + split; [discriminate|].
      intros [[_ H]|(l1 & l2 & E & H)].
      * exfalso. apply H, elem_of_app. right. apply elem_of_cons. auto.
      * exfalso. destruct l2 as [|b l2 _] using rev_ind.
        -- apply app_inj_tail in E as [_ E]. discriminate.
        -- rewrite app_comm_cons, app_assoc in E.
           apply app_inj_tail in E as [_ <-].
           apply H, elem_of_app. right. apply elem_of_cons. auto.
    + rewrite IH. split.
      * intros [[H1 H2]|(l1 & l2 & -> & H2)].
        -- left. split; [exact H1|]. rewrite elem_of_app, elem_of_cons.
           intros [?|[?|Hin]]; [auto|discriminate|inversion Hin].
        -- right. exists l1, (l2 ++ [Route q])%list.
           split; [rewrite <- app_assoc; reflexivity|].
           rewrite elem_of_app, elem_of_cons.
           intros [?|[?|Hin]]; [auto|discriminate|inversion Hin].
      * intros [[H1 H2]|(l1 & l2 & E & H2)].
        -- left. split; [exact H1|]. intros Hin. apply H2.
           apply elem_of_app. auto.
        -- destruct l2 as [|b l2 _] using rev_ind.
           ++ apply app_inj_tail in E as [_ E]. discriminate.
           ++ right. rewrite app_comm_cons, app_assoc in E.
              apply app_inj_tail in E as [-> _].
              exists l1, l2. split; [reflexivity|]. intros Hin. apply H2.
              apply elem_of_app. auto.
Qed.

(** X20. Without the password nothing is reachable: over any sequence
    of requests that starts without an admin session and contains no
    login with the configured password, the disk at the end is the disk at
    the start and every admin request in the sequence was redirected to
    the login page. *)
Theorem no_password_no_change `{P : Platform}
    (l : list AdminAction) (sess : Session) (fs : Disk) :
  isAdmin sess = false →
  Login (Some ADMIN_PASS) ∉ l →
  (admin_run l (sess, fs)).2 = fs ∧
  isAdmin (admin_run l (sess, fs)).1 = false ∧
  ∀ l1 q l2, l = (l1 ++ Route q :: l2)%list →
    (admin_step (Route q) (admin_run l1 (sess, fs))).1
    = res_redirect "/admin/login".
Proof.
  intros Hguest Hno.
  assert (Hrun : ∀ l, Login (Some ADMIN_PASS) ∉ l →
            (admin_run l (sess, fs)).2 = fs ∧
            isAdmin (admin_run l (sess, fs)).1 = false).
  { clear l Hno. induction l as [|a l IH] using rev_ind; intros Hno.
    - auto.
    - destruct IH as [IH1 IH2].
      { intros Hin. apply Hno, elem_of_app. auto. }
      rewrite admin_run_snoc.
      pose proof (admin_step_session a (admin_run l (sess, fs))) as Hs.
      destruct (admin_run l (sess, fs)) as [s1 f1]. cbn in IH1, IH2. subst f1.
      split.
      + destruct a as [p| |q]; cbn.
        * destruct (post_login p s1). reflexivity.
        * reflexivity.
        * unfold admin_route. rewrite (requireAdmin_guest _ _ _ IH2). reflexivity.
      + rewrite Hs. destruct a as [p| |q]; cbn; [|reflexivity|exact IH2].
        rewrite IH2, orb_false_r. apply bool_decide_eq_false_2. intros ->.
        apply Hno, elem_of_app. right. apply elem_of_cons. auto. }
  destruct (Hrun l Hno) as [H1 H2]. split; [exact H1|]. split; [exact H2|].
  intros l1 q l2 ->.
  destruct (Hrun l1) as [_ H3].
  { intros Hin. apply Hno, elem_of_app. auto. }
  destruct (admin_run l1 (sess, fs)) as [s1 f1]. cbn in H3 |- *.
  unfold admin_route. rewrite (requireAdmin_guest _ _ _ H3). reflexivity.
Qed.

(** ** Start-up *)

(** X21. Starting the server never changes what the record store
    holds: an existing record file is left as it is, a missing one is
    created holding the empty list, which is what a missing file reads as;
    no uploaded file is touched, the uploads root exists afterwards, and
    starting twice is the same as starting once. *)
Theorem startup_keeps_store `{P : Platform} (fs : Disk) :
  JSON_parse (JSON_stringify (JArr []) 0) = Some (JArr []) →
  readDB (startup fs) = readDB fs ∧
  (∀ text, db_file fs = Some text → db_file (startup fs) = Some text) ∧
  is_Some (db_file (startup fs)) ∧
  upload_files (startup fs) = upload_files fs ∧
  existsSync (startup fs) UPLOADS_DIR = true ∧
  startup (startup fs) = startup fs.
Proof.
  intros Hempty.
  assert (Hroot : ∀ d, existsSync
            (if existsSync d UPLOADS_DIR then d else mkdirSync UPLOADS_DIR d)
            UPLOADS_DIR = true).
  { intros d. destruct (existsSync d UPLOADS_DIR) eqn:E; [exact E|].
    apply existsSync_true. right. cbn.
    apply elem_of_union_l, elem_of_singleton. reflexivity. }
  unfold startup.
  set (fs1 := if existsSync fs UPLOADS_DIR then fs else mkdirSync UPLOADS_DIR fs).
  assert (Hdb1 : db_file fs1 = db_file fs).
  { unfold fs1. destruct (existsSync fs UPLOADS_DIR); reflexivity. }
  assert (Hf1 : upload_files fs1 = upload_files fs).
  { unfold fs1. destruct (existsSync fs UPLOADS_DIR); reflexivity. }
  assert (Hex1 : existsSync fs1 UPLOADS_DIR = true) by apply Hroot.
  assert (Hread1 : readDB fs1 = readDB fs).
  { unfold readDB. rewrite Hdb1. reflexivity. }
  destruct (db_file fs1) as [text|] eqn:E.
  - rewrite Hex1. cbn iota. rewrite E.
    split; [exact Hread1|]. split; [intros t Ht; congruence|].
    split; [eauto|]. split; [exact Hf1|]. split; reflexivity.
  - cbn [db_file upload_files].
    change (existsSync {| db_file := Some (JSON_stringify (JArr []) 0);
                          upload_files := upload_files fs1;
                          upload_dirs := upload_dirs fs1 |} UPLOADS_DIR)
      with (existsSync fs1 UPLOADS_DIR).
    rewrite Hex1. cbn [db_file].
    split.
    { unfold readDB at 1. cbn [db_file]. rewrite Hempty.
      unfold readDB. rewrite <- Hdb1. reflexivity. }
    split; [intros t Ht; congruence|].
    split; [eauto|]. split; [exact Hf1|]. split; reflexivity.
Qed.

Lemma startup_keeps_store_witness :
  readDB (P := Ref.platform) (startup (P := Ref.platform) Demo.empty_disk)
  = JArr [] ∧
  db_file (startup (P := Ref.platform) Demo.two_records_disk)
  = db_file Demo.two_records_disk.
Proof.
  split.
  - destruct (startup_keeps_store (P := Ref.platform) Demo.empty_disk)
      as (H & _); [vm_compute; reflexivity|].
    rewrite H. reflexivity.
  - destruct (startup_keeps_store (P := Ref.platform) Demo.two_records_disk)
      as (_ & H & _); [vm_compute; reflexivity|].
    apply H. reflexivity.
Defined.

Lemma no_password_no_change_witness :
  (admin_run (P := Ref.platform)
     [Login (Some "guess"); Route (Approve "s1" None); Logout;
      Route (Download "s2")]
     (Demo.guest, Demo.two_records_disk)).2 = Demo.two_records_disk.
Proof.
  apply (no_password_no_change (P := Ref.platform)
           [Login (Some "guess"); Route (Approve "s1" None); Logout;
            Route (Download "s2")] Demo.guest Demo.two_records_disk).
  - reflexivity.
  - rewrite !elem_of_cons.
    intros [H|[H|[H|[H|H]]]]; try discriminate; inversion H.
Defined.

(** ** The file name of the archive *)

Lemma sanitize_length s : String.length (sanitize s) = String.length s.
Proof. induction s as [|c s IH]; cbn; [reflexivity|]. rewrite IH. reflexivity. Qed.

Lemma sanitize_kept s :
  Forall (λ c, keep_char c = true) (list_ascii_of_string (sanitize s)).
Proof.
  induction s as [|c s IH]; cbn; constructor; [|exact IH].
  destruct (keep_char c) eqn:E; [exact E|reflexivity].
Qed.

Lemma sanitize_fixed s :
  Forall (λ c, keep_char c = true) (list_ascii_of_string s) → sanitize s = s.
Proof.
  induction s as [|c s IH]; cbn; [reflexivity|].
  intros H. inversion H as [|? ? Hc Hs]; subst.
  rewrite Hc, IH by exact Hs. reflexivity.
Qed.

(** X22. The file name offered for the archive is harmless: it is the
    album name, or the identifier when the album name is empty, with every
    character other than a letter, a digit, [_], [-] and [.] replaced by
    [_], one for one; so it has the length of the name it was made from,
    holds no other character (no quote, no slash, no line break), and a
    name that is already clean is kept as it is. *)
Theorem export_filename_is_safe `{P : Platform}
    (id : string) (sess : Session) (fs : Disk) (db : list json) (i : nat)
    (o : list (string * json)) (album : string) (ts : list json) :
  isAdmin sess = true →
  readDB fs = JArr db →
  Forall (λ s, is_obj s = true) db →
  db !! i = Some (JObj o) →
  obj_get "id" o = Some (JStr id) →
  (∀ j s, (j < i)%nat → db !! j = Some s → id_is id s = false) →
  existsSync fs (path_join UPLOADS_DIR id) = true →
  obj_get "albumName" o = Some (JStr album) →
  ref_like (obj_get "cover" o) = true →
  obj_get "tracks" o = Some (JArr ts) →
  Forall (λ t, is_obj t = true ∧ ref_like (field "file" t) = true) ts →
  let name := if String.eqb album "" then id else album in
  ∃ entries,
    admin_route (Download id) sess fs
    = ({| status := 200;
          body := BArchive ("attachment; filename=" ++ sanitize name ++ ".zip")
                    entries |}, fs) ∧
    String.length (sanitize name) = String.length name ∧
    Forall (λ c, keep_char c = true) (list_ascii_of_string (sanitize name)) ∧
    (Forall (λ c, keep_char c = true) (list_ascii_of_string name) →
     sanitize name = name) ∧
    sanitize (sanitize name) = sanitize name.
Proof.
  intros Hadm Hdb Hobj Hl Ho Hfirst Hdir Halbum Hcover Htracks Hts name.
  eexists.
  split; [eapply download_route; eassumption|].
  split; [apply sanitize_length|]. split; [apply sanitize_kept|].
  split; [apply sanitize_fixed|]. apply sanitize_fixed, sanitize_kept.
Qed.

Lemma export_filename_is_safe_witness :
  ∃ entries,
    admin_route (P := Ref.platform) (Download "id9") Demo.admin Demo.export_disk
    = ({| status := 200;
          body := BArchive "attachment; filename=My_Album_.zip" entries |},
       Demo.export_disk).
Proof.
  destruct (export_filename_is_safe (P := Ref.platform) "id9" Demo.admin
              Demo.export_disk [JObj Demo.export_record] 0 Demo.export_record
              "My Album!" Demo.export_tracks)
    as (entries & H1 & _).
  - reflexivity.
  - vm_compute. reflexivity.
  - repeat constructor.
  - reflexivity.
  - reflexivity.
  - intros j s Hj. lia.
  - vm_compute. reflexivity.
  - reflexivity.
  - reflexivity.
  - reflexivity.
  - repeat constructor.
  - exists entries. exact H1.
Defined.

(** ** Strings: white space, commas *)

Lemma rev_string_involutive s : rev_string (rev_string s) = s.
Proof.
  unfold rev_string. rewrite list_ascii_of_string_of_list_ascii, rev_involutive.
  apply string_of_list_ascii_of_string.
Qed.

Lemma string_of_list_ascii_snoc l c :
  string_of_list_ascii (l ++ [c]) = (string_of_list_ascii l ++ String c "")%string.
Proof. induction l as [|x l IH]; simpl; [reflexivity|]. rewrite IH. reflexivity. Qed.

Lemma list_ascii_of_string_snoc s c :
  list_ascii_of_string (s ++ String c "")%string
  = (list_ascii_of_string s ++ [c])%list.
Proof. induction s as [|x s IH]; simpl; [reflexivity|]. rewrite IH. reflexivity. Qed.

Lemma rev_string_cons c s :
  rev_string (String c s) = (rev_string s ++ String c "")%string.
Proof. unfold rev_string. cbn. apply string_of_list_ascii_snoc. Qed.

Lemma rev_string_snoc s c :
  rev_string (s ++ String c "")%string = String c (rev_string s).
Proof.
  unfold rev_string. rewrite list_ascii_of_string_snoc, rev_app_distr.
  reflexivity.
Qed.

Lemma skip_ws_snoc s c :
  is_ws c = false →
  skip_ws (s ++ String c "")%string = (skip_ws s ++ String c "")%string.
Proof.
  intros Hc. induction s as [|x s IH]; simpl.
  - rewrite Hc. reflexivity.
  - destruct (is_ws x); [exact IH|reflexivity].
Qed.

Lemma skip_ws_head s :
  skip_ws s = "" ∨ ∃ c r, skip_ws s = String c r ∧ is_ws c = false.
Proof.
  induction s as [|x s IH]; cbn; [auto|].
  destruct (is_ws x) eqn:E; [exact IH|]. right. eauto.
Qed.

Lemma skip_ws_fixed c r : is_ws c = false → skip_ws (String c r) = String c r.
Proof. intros H. cbn. rewrite H. reflexivity. Qed.

Lemma skip_ws_idem s : skip_ws (skip_ws s) = skip_ws s.
Proof.
  destruct (skip_ws_head s) as [->|(c & r & -> & Hc)]; [reflexivity|].
  apply skip_ws_fixed, Hc.
Qed.

Lemma strip_end_cons c s :
  is_ws c = false →
  rev_string (skip_ws (rev_string (String c s)))
  = String c (rev_string (skip_ws (rev_string s))).
Proof.
  intros Hc. rewrite rev_string_cons, (skip_ws_snoc _ _ Hc).
  apply rev_string_snoc.
Qed.

Lemma trim_idem s : trim (trim s) = trim s.
Proof.
  unfold trim. destruct (skip_ws_head s) as [->|(c & r & -> & Hc)];
    [reflexivity|].
  rewrite (strip_end_cons c r Hc), (skip_ws_fixed _ _ Hc).
  rewrite (strip_end_cons _ _ Hc). f_equal.
  rewrite rev_string_involutive, skip_ws_idem. reflexivity.
Qed.

Lemma skip_ws_chars (Q : ascii → Prop) s :
  Forall Q (list_ascii_of_string s) → Forall Q (list_ascii_of_string (skip_ws s)).
Proof.
  induction s as [|x s IH]; cbn; [auto|].
  intros H. destruct (is_ws x); [|exact H].
  apply IH. inversion H; assumption.
Qed.

Lemma rev_string_chars (Q : ascii → Prop) s :
  Forall Q (list_ascii_of_string s) → Forall Q (list_ascii_of_string (rev_string s)).
Proof.
  intros H. unfold rev_string. rewrite list_ascii_of_string_of_list_ascii.
  apply Forall_rev, H.
Qed.

Lemma trim_chars (Q : ascii → Prop) s :
  Forall Q (list_ascii_of_string s) → Forall Q (list_ascii_of_string (trim s)).
Proof.
  intros H. unfold trim.
  apply rev_string_chars, skip_ws_chars, rev_string_chars, skip_ws_chars, H.
Qed.





Lemma split_on_segments sep s :
  Forall (λ x, Forall (λ c, c ≠ sep) (list_ascii_of_string x)) (split_on sep s).
Proof.
  induction s as [|c s IH]; cbn; [repeat constructor|].
  destruct (Ascii.eqb_spec c sep) as [->|Hc]; [constructor; [constructor|exact IH]|].
  destruct (split_on sep s) as [|h t]; [repeat constructor; exact Hc|].
  inversion IH as [|? ? Hh Ht]; subst.
  constructor; [|exact Ht]. cbn. constructor; assumption.
Qed.

Lemma parse_platforms_clean (f : option string) :
  Forall (λ p, p ≠ "" ∧ trim p = p ∧
               Forall (λ c, c ≠ ","%char) (list_ascii_of_string p))
    (parse_platforms f).
Proof.
  unfold parse_platforms. apply Forall_forall. intros p Hp.
  apply list_elem_of_filter in Hp as [Hne Hp].
  apply list_elem_of_fmap in Hp as (x & -> & Hx).
  split; [|split].
  - unfold nonempty in Hne. intros E. rewrite E in Hne. discriminate.
  - apply trim_idem.
  - apply trim_chars. pose proof (split_on_segments "," (str_or f "")) as H.
    rewrite Forall_forall in H. apply H, Hx.
Qed.

(** X23. The platforms of a stored submission are clean, whatever the
    request said: the record lists the comma-separated segments of the
    [platforms] field in their order, each without white space at its ends
    (trimming one again changes nothing), none empty and none holding a
    comma; a missing field gives the empty list. *)
Theorem stored_platforms_clean `{P : Platform}
    (req : SubmitRequest) (subId now : string) (fs fs1 : Disk)
    (files : list File) (ts db : list json) :
  upload_fields subId (req_parts req) fs = Some (files, fs1) →
  JSON_parse (str_or (req_body req !! "tracks") "[]") = Some (JArr ts) →
  Forall (λ t, is_obj t = true) ts →
  readDB fs = JArr db →
  ∃ sub ps,
    post_submit req subId now fs
    = Some (accepted subId, writeDB (JArr (db ++ [sub])) fs1) ∧
    field "platforms" sub = Some (JArr (JStr <$> ps)) ∧
    ps = filter (λ s, s ≠ "")
           (trim <$> split_comma (default "" (req_body req !! "platforms"))) ∧
    Forall (λ p, p ≠ "" ∧ trim p = p ∧
                 Forall (λ c, c ≠ ","%char) (list_ascii_of_string p)) ps ∧
    (req_body req !! "platforms" = None → ps = []).
Proof.
  intros Hup Hparse Hts Hdb.
  exists (ingested subId now (req_body req) files ts),
         (parse_platforms (req_body req !! "platforms")).
  split; [apply (post_submit_ok _ _ _ _ _ _ _ _ Hup Hparse Hts Hdb)|].
  split; [reflexivity|]. split; [|split].
  - unfold parse_platforms. rewrite str_or_empty.
    apply list_filter_iff. intros s. unfold nonempty.
    destruct (String.eqb_spec s ""); split; try congruence; auto.
  - apply parse_platforms_clean.
  - intros ->. reflexivity.
Qed.

Lemma stored_platforms_clean_witness :
  ∃ sub,
    post_submit (P := Ref.platform) Demo.request_platforms "id1" "t0"
      Demo.empty_disk
    = Some (accepted "id1",
            writeDB (P := Ref.platform) (JArr ([] ++ [sub])%list)
              (Demo.stored Demo.parts_ab).2) ∧
    field "platforms" sub = Some (JArr [JStr "Spotify"; JStr "Apple Music"]).
Proof.
  destruct (stored_platforms_clean (P := Ref.platform) Demo.request_platforms
              "id1" "t0" Demo.empty_disk (Demo.stored Demo.parts_ab).2
              (Demo.stored Demo.parts_ab).1 [] [])
    as (sub & ps & H1 & H2 & H3 & _).
  - vm_compute. reflexivity.
  - vm_compute. reflexivity.
  - constructor.
  - vm_compute. reflexivity.
  - exists sub. split; [exact H1|]. rewrite H2, H3. vm_compute. reflexivity.
Defined.

(** ** The submission form *)




(** ** The form and the server composed *)

Lemma form_submit_inv `{P : Platform} st req :
  form_submit st = Some req →
  ∃ coverFile, coverInput st = Some coverFile ∧ cover_ok st = true ∧
               forallb titled (trackEls st) = true ∧
               req = form_data st coverFile.
Proof.
  unfold form_submit. destruct (coverInput st) as [c|]; [|discriminate].
  destruct (cover_ok st); [|discriminate].
  destruct (forallb titled (trackEls st)); [|discriminate].
  intros [= <-]. eauto.
Qed.

Lemma form_data_parts `{P : Platform} st c :
  req_parts (form_data st c)
  = file_part "cover" c :: (file_part "trackFiles" <$> chosen_files st).
Proof.
  unfold form_data, chosen_files. cbn [req_parts]. f_equal.
  induction (trackEls st) as [|row rows IH]; [reflexivity|].
  cbn. destruct (row_file row); cbn; rewrite IH; reflexivity.
Qed.

Lemma form_data_named `{P : Platform} st c :
  file_name c ≠ "" →
  Forall (λ f, file_name f ≠ "") (chosen_files st) →
  named (req_parts (form_data st c)) = req_parts (form_data st c).
Proof.
  intros Hc Hf. rewrite form_data_parts. unfold named.
  rewrite filter_cons_True by exact Hc. f_equal.
  induction Hf as [|f l Hname _ IH]; [reflexivity|].
  rewrite fmap_cons, filter_cons_True by exact Hname. rewrite IH. reflexivity.
Qed.

Lemma filter_field_parts (g h : string) (l : list ChosenFile) :
  filter (λ p, part_field p = g) (file_part h <$> l)
  = if decide (h = g) then file_part h <$> l else [].
Proof.
  induction l as [|f l IH]; [destruct (decide (h = g)); reflexivity|].
  rewrite fmap_cons, filter_cons. cbn [file_part part_field].
  rewrite IH. destruct (decide (h = g)); reflexivity.
Qed.

Lemma form_data_count `{P : Platform} st c g :
  file_name c ≠ "" →
  Forall (λ f, file_name f ≠ "") (chosen_files st) →
  count_field g (req_parts (form_data st c))
  = ((if decide ("cover" = g) then 1 else 0)
     + (if decide ("trackFiles" = g) then length (chosen_files st) else 0))%nat.
Proof.
  intros Hc Hf. unfold count_field. rewrite (form_data_named st c Hc Hf).
  rewrite form_data_parts, filter_cons. cbn [file_part part_field].
  rewrite filter_field_parts.
  destruct (decide ("cover" = g)); destruct (decide ("trackFiles" = g));
    cbn [length]; rewrite ?length_fmap; lia.
Qed.

(** X25. What the form sends is admitted by the upload exactly when at
    most 200 rows carry an audio file: the request has one [cover] part,
    one [trackFiles] part per row with a file, in row order, and no part
    for any other field. *)
Theorem form_request_admitted `{P : Platform}
    (st : AlbumForm) (req : SubmitRequest) (subId : string) (fs : Disk) :
  form_submit st = Some req →
  (∀ c, coverInput st = Some c → file_name c ≠ "") →
  Forall (λ f, file_name f ≠ "") (chosen_files st) →
  (is_Some (upload_fields subId (req_parts req) fs)
   ↔ (length (chosen_files st) ≤ 200)%nat) ∧
  ∃ c, coverInput st = Some c ∧
       req_parts req
       = file_part "cover" c :: (file_part "trackFiles" <$> chosen_files st).
Proof.
  intros Hsub Hcover Hfiles.
  destruct (form_submit_inv st req Hsub) as (c & Hc & _ & _ & ->).
  split; [|exists c; split; [exact Hc|apply form_data_parts]].
  unfold upload_fields. rewrite store_parts_admits. split.
  - intros H. specialize (H "trackFiles").
    rewrite (form_data_count st c _ (Hcover c Hc) Hfiles) in H.
    rewrite decide_False, decide_True in H by (reflexivity || discriminate).
    change (field_limits !! "trackFiles") with (Some 200%nat) in H.
    cbn in H. lia.
  - intros H g. rewrite (form_data_count st c _ (Hcover c Hc) Hfiles).
    destruct (decide ("cover" = g)) as [<-|Hg1].
    + rewrite decide_False by discriminate.
      change (field_limits !! "cover") with (Some 1%nat). cbn. lia.
    + destruct (decide ("trackFiles" = g)) as [<-|Hg2]; [|lia].
      change (field_limits !! "trackFiles") with (Some 200%nat). cbn. lia.
Qed.

Lemma form_request_admitted_witness :
  is_Some (upload_fields (P := Ref.platform) "id1"
             (req_parts Demo.form_request) Demo.empty_disk).
Proof.
  destruct (form_request_admitted (P := Ref.platform) Demo.form
              Demo.form_request "id1" Demo.empty_disk) as [H _].
  - reflexivity.
  - intros c [= <-]. discriminate.
  - repeat constructor; discriminate.
  - apply H. vm_compute. lia.
Defined.


Lemma str_or_some s : str_or (Some s) "" = s.
Proof. cbn. destruct (String.eqb_spec s ""); congruence. Qed.

Lemma form_tracks_objects `{P : Platform} st :
  Forall (λ t, is_obj t = true) (form_tracks st).
Proof.
  apply Forall_forall. intros t Ht. unfold form_tracks in Ht.
  apply list_elem_of_lookup in Ht as [k Ht]. rewrite list_lookup_imap in Ht.
  destruct (trackEls st !! k); [|discriminate]. injection Ht as <-. reflexivity.
Qed.



Lemma form_uploads `{P : Platform} st c subId fs files fs1 :
  upload_fields subId (req_parts (form_data st c)) fs = Some (files, fs1) →
  file_name c ≠ "" →
  Forall (λ f, file_name f ≠ "") (chosen_files st) →
  files_of "trackFiles" files
  = file_of subId <$> (file_part "trackFiles" <$> chosen_files st).
Proof.
  intros Hup Hc Hf.
  rewrite (upload_fields_named _ _ _ _ _ Hup), files_of_file_of.
  rewrite (form_data_named st c Hc Hf), form_data_parts.
  rewrite filter_cons_False by discriminate.
  rewrite filter_field_parts, decide_True by reflexivity. reflexivity.
Qed.

Lemma with_file_stored `{P : Platform} subId t (g : ChosenFile) :
  let f := file_of subId (file_part "trackFiles" g) in
  field "file" (with_file t (file_ref f) (JStr (originalname f)))
  = Some (stored_ref subId (file_name g)) ∧
  field "originalFileName" (with_file t (file_ref f) (JStr (originalname f)))
  = Some (JStr (file_name g)).
Proof. cbn zeta. rewrite with_file_file, with_file_originalFileName. auto. Qed.

(** X27. Which audio a track of the form ends up with: a row with a
    file is stored with that file's name and the path of the upload of
    that name; a row without a file is not stored without audio, but with
    the upload at its own position in the list of the files that were
    sent, that is, the file chosen in another row, whenever at least as
    many files were sent as the row's number; only beyond that are [file]
    and [originalFileName] [null]. *)
Theorem form_files_assigned `{P : Platform}
    (st : AlbumForm) (req : SubmitRequest) (subId now : string)
    (fs fs1 : Disk) (files : list File) (db : list json) :
  form_submit st = Some req →
  JSON_parse (str_or (req_body req !! "tracks") "[]")
  = Some (JArr (form_tracks st)) →
  upload_fields subId (req_parts req) fs = Some (files, fs1) →
  readDB fs = JArr db →
  (∀ c, coverInput st = Some c → file_name c ≠ "") →
  Forall (λ f, file_name f ≠ "") (chosen_files st) →
  ∃ sub out,
    post_submit req subId now fs
    = Some (accepted subId, writeDB (JArr (db ++ [sub])) fs1) ∧
    field "tracks" sub = Some (JArr out) ∧
    ∀ k row, trackEls st !! k = Some row →
      ∃ r, out !! k = Some r ∧
        match row_file row, chosen_files st !! k with
        | Some g, _ | None, Some g =>
            field "file" r = Some (stored_ref subId (file_name g)) ∧
            field "originalFileName" r = Some (JStr (file_name g))
        | None, None =>
            field "file" r = Some JNull ∧
            field "originalFileName" r = Some JNull
        end.
Proof.
  intros Hsub Hparse Hup Hdb Hcover Hfiles.
  destruct (form_submit_inv st req Hsub) as (c & Hc & _ & _ & ->).
  pose proof (form_tracks_objects st) as Hobj.
  pose proof (form_uploads st c subId fs files fs1 Hup (Hcover c Hc) Hfiles) as HU.
  destruct (upload_fields_spec _ _ _ _ _ Hup) as (_ & _ & Hplaced).
  pose proof (files_of_placed subId "trackFiles" files Hplaced) as HplacedU.
  set (U := files_of "trackFiles" files) in *.
  exists (ingested subId now (req_body (form_data st c)) files (form_tracks st)),
         (imap (matched_track U) (form_tracks st)).
  split; [apply (post_submit_ok _ _ _ _ _ _ _ _ Hup Hparse Hobj Hdb)|].
  split; [reflexivity|].
  intros k row Hk.
  exists (matched_track U k (track_json k row)). split.
  { unfold form_tracks. rewrite !list_lookup_imap, Hk. reflexivity. }
  destruct (row_file row) as [g|] eqn:Hg.
  - set (f := file_of subId (file_part "trackFiles" g)).
    assert (Hin : f ∈ U).
    { rewrite HU. apply list_elem_of_fmap. exists (file_part "trackFiles" g).
      split; [reflexivity|]. apply list_elem_of_fmap. exists g.
      split; [reflexivity|]. unfold chosen_files.
      apply list_elem_of_omap. exists row. split; [|exact Hg].
      apply list_elem_of_lookup. eauto. }
    rewrite (matched_track_by_name subId U k (track_json k row) f HplacedU Hin).
    + apply (with_file_stored subId _ g).
    + cbn. rewrite Hg. reflexivity.
  - rewrite (matched_track_by_position subId U k (track_json k row) HplacedU).
    + rewrite HU, !list_lookup_fmap.
      destruct (chosen_files st !! k) as [g|].
      * apply (with_file_stored subId _ g).
      * change (field "file" (with_file (track_json k row) JNull JNull)
                = Some JNull ∧
                field "originalFileName"
                  (with_file (track_json k row) JNull JNull) = Some JNull).
        rewrite with_file_file, with_file_originalFileName. auto.
    + intros f _. cbn. rewrite Hg. discriminate.
Qed.

Lemma form_files_assigned_witness :
  ∃ sub out r,
    post_submit (P := Ref.platform) Demo.form_request "id1" "t0" Demo.empty_disk
    = Some (accepted "id1",
            writeDB (P := Ref.platform) (JArr ([] ++ [sub])%list)
              (Demo.stored (req_parts Demo.form_request)).2) ∧
    field "tracks" sub = Some (JArr out) ∧
    out !! 0%nat = Some r ∧
    row_file Demo.row_b = None ∧
    field "file" r = Some (JStr "id1/a.mp3").
Proof.
  destruct (form_files_assigned (P := Ref.platform) Demo.form Demo.form_request
              "id1" "t0" Demo.empty_disk
              (Demo.stored (req_parts Demo.form_request)).2
              (Demo.stored (req_parts Demo.form_request)).1 [])
    as (sub & out & H1 & H2 & H3).
  - reflexivity.
  - vm_compute. reflexivity.
  - vm_compute. reflexivity.
  - vm_compute. reflexivity.
  - intros c [= <-]. discriminate.
  - repeat constructor; discriminate.
  - destruct (H3 0%nat Demo.row_b eq_refl) as (r & Hr & Hfile & _).
    exists sub, out, r. split; [exact H1|]. split; [exact H2|].
    split; [exact Hr|]. split; [reflexivity|exact Hfile].
Defined.


(** ** The note of the dashboard *)

(** X28. The note typed into the dashboard is what a review stores:
    with the body the dashboard sends, an approval or rejection of a
    stored identifier sets [adminNote] to the text of the note box, and to
    [null] when the box is empty, so that reviewing with an empty box
    erases an earlier note. *)
Theorem dashboard_note_stored `{P : Platform}
    (approve : bool) (id note_value : string)
    (sess : Session) (fs : Disk) (db : list json) :
  JSON_parse (JSON_stringify (review_body note_value) 0)
  = Some (review_body note_value) →
  isAdmin sess = true →
  readDB fs = JArr db →
  Forall (λ s, is_obj s = true) db →
  (∃ s, s ∈ db ∧ id_is id s = true) →
  ∃ r i o o',
    dashboard_review approve id note_value = Some r ∧
    db !! i = Some (JObj o) ∧
    obj_get "id" o = Some (JStr id) ∧
    admin_route r sess fs = (ok_json, writeDB (JArr (<[i := JObj o']> db)) fs) ∧
    obj_get "status" o' = Some (JStr (outcome_of approve)) ∧
    obj_get "adminNote" o'
    = Some (if String.eqb note_value "" then JNull else JStr note_value) ∧
    ∀ k, k ≠ "status" → k ≠ "adminNote" → obj_get k o' = obj_get k o.
Proof.
  intros Hrt Hadm Hdb Hobj Hex.
  set (note := field "note" (review_body note_value)).
  destruct (reviewed_spec (outcome_of approve) id note db Hobj Hex)
    as (i & o & Hl & Ho & _ & _ & Hr).
  exists (review_request approve id note), i, o,
         (decided (outcome_of approve) note o).
  split; [unfold dashboard_review; rewrite Hrt; reflexivity|].
  split; [exact Hl|]. split; [exact Ho|]. split.
  { rewrite admin_route_review by exact Hadm.
    rewrite (review_handler_found _ id note fs db Hdb Hobj Hex), Hr.
    reflexivity. }
  split.
  { unfold decided. rewrite obj_get_set_ne by discriminate.
    apply obj_get_set_eq. }
  split.
  { unfold decided. rewrite obj_get_set_eq. f_equal.
    unfold note. cbn. destruct (String.eqb note_value "") eqn:E; cbn;
      [reflexivity|]. rewrite E. reflexivity. }
  intros k. apply decided_other.
Qed.

Lemma dashboard_note_stored_witness :
  ∃ r i o',
    dashboard_review (P := Ref.platform) true "s2" "" = Some r ∧
    admin_route (P := Ref.platform) r Demo.admin Demo.two_records_disk
    = (ok_json,
       writeDB (P := Ref.platform) (JArr (<[i := JObj o']> Demo.two_records))
         Demo.two_records_disk) ∧
    obj_get "adminNote" o' = Some JNull.
Proof.
  destruct (dashboard_note_stored (P := Ref.platform) true "s2" ""
              Demo.admin Demo.two_records_disk Demo.two_records)
    as (r & i & o & o' & H1 & _ & _ & H2 & _ & H3 & _).
  - vm_compute. reflexivity.
  - reflexivity.
  - vm_compute. reflexivity.
  - repeat constructor.
  - exists (Demo.record "s2" "rejected"). split; [|reflexivity].
    apply elem_of_cons. right. apply elem_of_cons. auto.
  - exists r, i, o'. split; [exact H1|]. split; [exact H2|exact H3].
Defined.

(** ** The password hash *)

Lemma ToInt32_mod x : ToInt32 x mod 2 ^ 32 = x mod 2 ^ 32.
Proof.
  unfold ToInt32. rewrite Zminus_mod, Zmod_mod, <- Zminus_mod. f_equal. lia.
Qed.

Lemma ToInt32_small c : 0 ≤ c < 2 ^ 31 → ToInt32 c = c.
Proof.
  intros H. unfold ToInt32. rewrite Z.mod_small; lia.
Qed.

Lemma add_mod_congr a a' b b' :
  a mod 2 ^ 32 = a' mod 2 ^ 32 → b mod 2 ^ 32 = b' mod 2 ^ 32 →
  (a + b) mod 2 ^ 32 = (a' + b') mod 2 ^ 32.
Proof.
  intros Ha Hb. rewrite Z.add_mod, Ha, Hb, <- Z.add_mod by lia. reflexivity.
Qed.

Lemma js_shl_mod x k :
  0 ≤ k → js_shl x k mod 2 ^ 32 = (x * 2 ^ k) mod 2 ^ 32.
Proof.
  intros Hk. unfold js_shl. rewrite ToInt32_mod, Z.shiftl_mul_pow2 by exact Hk.
  rewrite <- Z.mul_mod_idemp_l, ToInt32_mod, Z.mul_mod_idemp_l by lia.
  reflexivity.
Qed.

Lemma lxor_mod x c :
  0 ≤ c < 2 ^ 32 →
  Z.lxor x c mod 2 ^ 32 = Z.lxor (x mod 2 ^ 32) c.
Proof.
  intros Hc. apply Z.bits_inj'. intros i Hi.
  rewrite Z.lxor_spec.
  destruct (Z.lt_ge_cases i 32) as [Hlt|Hge].
  - rewrite !Z.mod_pow2_bits_low by lia. apply Z.lxor_spec.
  - rewrite !Z.mod_pow2_bits_high by lia.
    replace (Z.testbit c i) with false; [reflexivity|].
    symmetry. destruct (Z.eq_dec c 0) as [->|Hne]; [apply Z.bits_0|].
    apply Z.bits_above_log2; [lia|].
    apply Z.lt_le_trans with 32; [|exact Hge].
    apply Z.log2_lt_pow2; lia.
Qed.

Lemma hash_round_mod h c :
  0 ≤ c < 2 ^ 16 →
  hash_round h c mod 2 ^ 32
  = (Z.lxor (h mod 2 ^ 32) c * 16777619) mod 2 ^ 32.
Proof.
  intros Hc. unfold hash_round. cbn zeta.
  set (h1 := js_xor h c).
  assert (Hh1 : h1 mod 2 ^ 32 = Z.lxor (h mod 2 ^ 32) c).
  { unfold h1, js_xor. rewrite (ToInt32_small c) by lia.
    rewrite lxor_mod by lia. rewrite ToInt32_mod. reflexivity. }
  rewrite <- Hh1, Z.mul_mod_idemp_l by lia.
  replace (h1 * 16777619)
    with (h1 + (h1 * 2 ^ 1 + h1 * 2 ^ 4 + h1 * 2 ^ 7 + h1 * 2 ^ 8 + h1 * 2 ^ 24))
    by lia.
  repeat apply add_mod_congr; try reflexivity; apply js_shl_mod; lia.
Qed.

Lemma simpleHash_units_fnv (units : list Z) :
  Forall (λ c, 0 ≤ c < 2 ^ 16) units →
  simpleHash_units units = fnv1a32 units.
Proof.
  intros H. unfold simpleHash_units, fnv1a32.
  change (ToUint32 2166136261) with 2166136261.
  change 2166136261 with (ToUint32 2166136261) at 2.
  generalize 2166136261. induction H as [|c l Hc _ IH]; intros h.
  - reflexivity.
  - cbn [foldl]. rewrite IH. f_equal. unfold ToUint32 at 1.
    apply hash_round_mod, Hc.
Qed.

Lemma charCodes_units s : Forall (λ c, 0 ≤ c < 2 ^ 16) (charCodes s).
Proof.
  unfold charCodes. apply Forall_fmap, Forall_forall. intros c _. cbn.
  pose proof (nat_ascii_bounded c). lia.
Qed.

Lemma hex_digits_S fuel n acc :
  hex_digits (S fuel) n acc
  = if n / 16 =? 0 then String (hex_char (n mod 16)) acc
    else hex_digits fuel (n / 16) (String (hex_char (n mod 16)) acc).
Proof. reflexivity. Qed.

Lemma hex_digits_length fuel n acc :
  (String.length acc < String.length (hex_digits (S fuel) n acc)
   ≤ String.length acc + S fuel)%nat.
Proof.
  revert n acc. induction fuel as [|fuel IH]; intros n acc;
    rewrite hex_digits_S; destruct (n / 16 =? 0);
    try (cbn [hex_digits String.length]; lia).
  specialize (IH (n / 16) (String (hex_char (n mod 16)) acc)).
  cbn [String.length] in IH. lia.
Qed.

(** X29. The hash of the sign-in page is the 32-bit FNV-1a hash: the
    chain of shifts and additions on 32-bit values multiplies by the prime
    16777619 modulo 2^32, so for every string the result is the
    hexadecimal numeral of FNV-1a over its code units, a number below
    2^32 written with one to eight digits. *)
Theorem simpleHash_is_fnv1a (s : string) :
  _simpleHash s = toString16 (fnv1a32 (charCodes s)) ∧
  simpleHash_units (charCodes s) = fnv1a32 (charCodes s) ∧
  0 ≤ fnv1a32 (charCodes s) < 2 ^ 32 ∧
  (1 ≤ String.length (_simpleHash s) ≤ 8)%nat.
Proof.
  pose proof (simpleHash_units_fnv (charCodes s) (charCodes_units s)) as H.
  split; [unfold _simpleHash; rewrite H; reflexivity|].
  split; [exact H|]. split.
  - rewrite <- H. unfold simpleHash_units, ToUint32. apply Z.mod_pos_bound. lia.
  - unfold _simpleHash, toString16.
    pose proof (hex_digits_length 7 (simpleHash_units (charCodes s)) "") as Hl.
    cbn [String.length] in Hl. lia.
Qed.

(** ** The login form *)

Lemma length_zero_empty s : (String.length s =? 0)%nat = String.eqb s "".
Proof. destruct s; reflexivity. Qed.

Lemma login_form_submit_spec v :
  login_form_submit v = if String.eqb (trim v) "" then None else Some v.
Proof.
  unfold login_form_submit, nonempty. rewrite length_zero_empty, negb_involutive.
  destruct (String.eqb_spec v "") as [->|Hv]; [reflexivity|].
  reflexivity.
Qed.

Lemma post_login_typed `{P : Platform} p sess :
  post_login (Some p) sess
  = if String.eqb p ADMIN_PASS
    then (res_redirect "/admin/dashboard", {| isAdmin := true |})
    else (res_redirect "/admin/login?err=1", sess).
Proof. unfold post_login. rewrite str_or_some. reflexivity. Qed.

(** X30. The login form never sends a blank password, and otherwise
    adds nothing of its own: the submission is prevented exactly when the
    password is empty or all white space, and every other password is
    posted as typed.  So a guest becomes admin through the form exactly
    when the typed password is the configured one and the configured one
    is not blank; a blank configured password cannot be used through the
    form at all. *)
Theorem login_form_sends_no_blank `{P : Platform}
    (password_value : string) (sess : Session) :
  isAdmin sess = false →
  (login_form_submit password_value = None ↔ trim password_value = "") ∧
  (∀ p, login_form_submit password_value = Some p → p = password_value) ∧
  (isAdmin (login_through_form password_value sess).2 = true
   ↔ password_value = ADMIN_PASS ∧ trim ADMIN_PASS ≠ "") ∧
  (trim password_value = "" →
   login_through_form password_value sess = (None, sess)).
Proof.
  intros Hguest. unfold login_through_form.
  rewrite login_form_submit_spec.
  destruct (String.eqb_spec (trim password_value) "") as [Hblank|Hsome].
  - split; [tauto|]. split; [discriminate|]. split; [|reflexivity].
    cbn. rewrite Hguest. split; [discriminate|].
    intros [-> H]. contradiction.
  - split; [split; [discriminate|contradiction]|].
    split; [intros p [= <-]; reflexivity|]. split; [|contradiction].
    rewrite post_login_typed.
    destruct (String.eqb_spec password_value ADMIN_PASS) as [E|E]; cbn.
    + subst. tauto.
    + rewrite Hguest. split; [discriminate|]. intros [? _]. contradiction.
Qed.

Lemma login_form_sends_no_blank_witness :
  login_through_form (P := Ref.platform) "   " Demo.guest = (None, Demo.guest) ∧
  login_through_form (P := Ref.platform) Demo.nbsp Demo.guest
  = (None, Demo.guest) ∧
  isAdmin (login_through_form (P := Ref.platform) "adminpass" Demo.guest).2
  = true.
Proof.
  split; [|split].
  - destruct (login_form_sends_no_blank (P := Ref.platform) "   " Demo.guest)
      as (_ & _ & _ & H); [reflexivity|]. apply H. reflexivity.
  - destruct (login_form_sends_no_blank (P := Ref.platform) Demo.nbsp
                Demo.guest)
      as (_ & _ & _ & H); [reflexivity|]. apply H. reflexivity.
  - destruct (login_form_sends_no_blank (P := Ref.platform) "adminpass"
                Demo.guest) as (_ & _ & H & _); [reflexivity|].
    apply H. split; [reflexivity|]. vm_compute. discriminate.
Defined.
